(** * Wafer defect monitoring: simulation controller and data aggregator

    A shallow embedding of [Repository/Manufacturing_Simulation.py] and
    [Repository/Data_Aggregator.py].

    Python values are embedded as the inductive [pyval]; a [dict] is an
    association list in insertion order.  A number is held by the
    rational it denotes, and comparisons are exact.  The arithmetic of
    the aggregator (sum, true division, product, [round]) is that of
    binary64 floats: every result is rounded to the nearest binary64
    number, ties to even ([fl]).  On integers this is what Python
    computes as long as the integers and their sums stay below [2^53],
    where integer and float arithmetic agree; there is no infinity, and a
    mean beyond the range of a float raises [OverflowError], as the
    division of integers does.  A raised exception is the [Raise] branch
    of [result]. *)

From Stdlib Require Import List String Ascii ZArith QArith Qround Qabs Qpower Bool Arith.
From Stdlib Require Import Lia Lqa Permutation Sorted DecimalString DecimalNat.
Import ListNotations.

Open Scope string_scope.
Local Set Warnings "-register-all".

(* ------------------------------------------------------------------ *)
(** ** Python values *)

Module Py.

Inductive pyval : Type :=
| PNone
| PBool (b : bool)
| PNum (q : Q)
| PStr (s : string)
| PList (l : list pyval)
| PDict (d : list (string * pyval)).

Definition dict : Type := list (string * pyval).

(** Exceptions the modelled code can raise out of a function. *)
Inductive exn : Type := TypeError | AttributeError | ValueError | OverflowError.

Inductive result (A : Type) : Type :=
| Ok (a : A)
| Raise (e : exn).
Arguments Ok {A} a.
Arguments Raise {A} e.

Definition bind {A B : Type} (m : result A) (k : A -> result B) : result B :=
  match m with
  | Ok a => k a
  | Raise e => Raise e
  end.

(** [d.get(k)] and [d.get(k, default)] *)
Fixpoint dict_get (k : string) (d : dict) : option pyval :=
  match d with
  | [] => None
  | (k', v) :: t => if String.eqb k k' then Some v else dict_get k t
  end.

Definition dict_get_or (k : string) (default : pyval) (d : dict) : pyval :=
  match dict_get k d with
  | Some v => v
  | None => default
  end.

(** [d[k] = v]: an existing key keeps its position, a new key goes last. *)
Fixpoint dict_set (k : string) (v : pyval) (d : dict) : dict :=
  match d with
  | [] => [(k, v)]
  | (k', v') :: t =>
      if String.eqb k k' then (k, v) :: t else (k', v') :: dict_set k v t
  end.

Definition dict_has (k : string) (d : dict) : bool :=
  match dict_get k d with
  | Some _ => true
  | None => false
  end.

(** [bool] is a subclass of [int]: [True] is 1 and [False] is 0. *)
Definition as_number (v : pyval) : option Q :=
  match v with
  | PNum q => Some q
  | PBool true => Some 1%Q
  | PBool false => Some 0%Q
  | _ => None
  end.

(** Truth value of an object, as [if v:] and [not v] take it. *)
Definition truthy (v : pyval) : bool :=
  match v with
  | PNone => false
  | PBool b => b
  | PNum q => negb (Qeq_bool q 0)
  | PStr s => negb (String.eqb s "")
  | PList l => match l with [] => false | _ => true end
  | PDict d => match d with [] => false | _ => true end
  end.

(** [v > t] and [v <= t] against a float [t]: only numbers are ordered
    with a float, anything else is a [TypeError]. *)
Definition gt_float (v : pyval) (t : Q) : result bool :=
  match as_number v with
  | Some q => Ok (negb (Qle_bool q t))
  | None => Raise TypeError
  end.

Definition le_float (v : pyval) (t : Q) : result bool :=
  match as_number v with
  | Some q => Ok (Qle_bool q t)
  | None => Raise TypeError
  end.

(** [v == "s"] for a string literal. *)
Definition eq_str (v : pyval) (s : string) : bool :=
  match v with
  | PStr s' => String.eqb s' s
  | _ => false
  end.

(** Objects that can key a [dict]. *)
Definition hashable (v : pyval) : bool :=
  match v with
  | PList _ | PDict _ => false
  | _ => true
  end.

(** Key equality of hashable objects: numbers and booleans compare by
    value ([True == 1 == 1.0]). *)
Definition key_eqb (a b : pyval) : bool :=
  match a, b with
  | PNone, PNone => true
  | PStr s, PStr s' => String.eqb s s'
  | _, _ =>
      match as_number a, as_number b with
      | Some x, Some y => Qeq_bool x y
      | _, _ => false
      end
  end.

(** The nearest integer, ties to even. *)
Definition round_half_even (x : Q) : Z :=
  let f := Qfloor x in
  let r := (x - inject_Z f)%Q in
  match (r ?= 1 # 2)%Q with
  | Lt => f
  | Gt => (f + 1)%Z
  | Eq => if Z.even f then f else (f + 1)%Z
  end.

(** *** Binary64 arithmetic *)

Definition pow2 (k : Z) : Q := (2 ^ k)%Q.

(** The [e] with [2^e <= |q| < 2^(e+1)], for [q] other than 0. *)
Definition binade (q : Q) : Z :=
  let e0 := (Z.log2 (Z.abs (Qnum q)) - Z.log2 (Zpos (Qden q)))%Z in
  if Qle_bool (pow2 e0) (Qabs q) then e0 else (e0 - 1)%Z.

(** The exponent of the last of the 53 bits of a binary64 number next to
    [q]; it stops at [-1074], where the subnormal numbers are. *)
Definition last_place (q : Q) : Z := Z.max (binade q - 52) (-1074).

(** The binary64 number nearest to [q], ties to the even significand:
    what an operation on floats returns for the exact result [q]. *)
Definition fl (q : Q) : Q :=
  if Qeq_bool q 0 then 0%Q
  else (inject_Z (round_half_even (q / pow2 (last_place q))) * pow2 (last_place q))%Q.

(** [sys.float_info.max] *)
Definition max_float : Q := (inject_Z (2 ^ 53 - 1) * pow2 971)%Q.

(** The float of an exact quotient: [OverflowError] beyond the range. *)
Definition to_float (q : Q) : result Q :=
  if Qle_bool (Qabs (fl q)) max_float then Ok (fl q) else Raise OverflowError.

(** [sum(l)]: starts from the integer 0 and adds left to right. *)
Fixpoint sum_from (acc : Q) (l : list pyval) : result Q :=
  match l with
  | [] => Ok acc
  | v :: t =>
      match as_number v with
      | Some q => sum_from (fl (acc + q)) t
      | None => Raise TypeError
      end
  end.

Definition sum (l : list pyval) : result Q := sum_from 0 l.

Definition pow10 (n : nat) : Z := (10 ^ Z.of_nat n)%Z.

(** The nearest multiple of [10^-n], ties to even. *)
Definition round_decimal (x : Q) (n : nat) : Q :=
  (inject_Z (round_half_even (x * inject_Z (pow10 n))) / inject_Z (pow10 n))%Q.

(** [round(x, n)] of a float: the float nearest to the decimal rounding
    of the exact value of [x]. *)
Definition round (x : Q) (n : nat) : Q := fl (round_decimal x n).

(** [list.sort(key=key, reverse=True)]: a stable sort, largest key first;
    records with equal keys keep the order they had. *)
Fixpoint insert_desc {A : Type} (key : A -> Q) (x : A) (l : list A) : list A :=
  match l with
  | [] => [x]
  | y :: t =>
      if Qle_bool (key y) (key x) then x :: y :: t
      else y :: insert_desc key x t
  end.

Definition sort_desc {A : Type} (key : A -> Q) (l : list A) : list A :=
  fold_right (insert_desc key) [] l.

(** [f"{n:04d}"] *)
Definition str_nat (n : nat) : string := NilEmpty.string_of_uint (Nat.to_uint n).

Fixpoint zeros (n : nat) : string :=
  match n with
  | O => ""
  | S k => "0" ++ zeros k
  end.

Definition format_04d (n : nat) : string :=
  let s := str_nat n in
  zeros (4 - String.length s) ++ s.

End Py.

Notation "x <- m ;; k" := (Py.bind m (fun x => k))
  (at level 61, m at next level, right associativity).

(* ------------------------------------------------------------------ *)
(** ** Manufacturing_Simulation.py *)

Module Simulation.
Import Py.

(** What the outside world contributes to one call: the random draws, the
    clock and the file system. *)
Record world : Type := {
  random_random : Q;
  random_choice : list string -> string;
  now_stamp : string;          (* datetime.now().strftime("%Y%m%d_%H%M%S_%f") *)
  now_iso : string;            (* datetime.now().isoformat() *)
  copy2_ok : string -> string -> bool;   (* shutil.copy2 did not raise *)
  os_path_exists : pyval -> result bool
}.

Record WaferImageGenerator : Type := {
  normal_images : list string;
  defect_images : list string;
  output_dir : string
}.

Definition nonempty {A : Type} (l : list A) : bool :=
  match l with [] => false | _ => true end.

(** [s.endswith("/")] *)
Fixpoint ends_with_sep (s : string) : bool :=
  match s with
  | EmptyString => false
  | String c EmptyString => Ascii.eqb c "/"
  | String _ t => ends_with_sep t
  end.

(** [os.path.join(a, b)] of [posixpath]: an absolute [b] replaces [a];
    the separator is added unless [a] is empty or ends with one. *)
Definition os_path_join (a b : string) : string :=
  if String.prefix "/" b then b
  else if String.eqb a "" || ends_with_sep a then a ++ b
  else a ++ "/" ++ b.

(** The default of [normal_probability]: the float [0.7]. *)
Definition normal_probability_default : Q := fl (7 # 10).

(** [WaferImageGenerator.generate_image] *)
Definition generate_image (g : WaferImageGenerator) (w : world)
    (wafer_id machine_type : string) (normal_probability : Q) : option string :=
  if negb (nonempty (normal_images g)) && negb (nonempty (defect_images g))
  then None
  else
    let source_image :=
      if negb (Qle_bool normal_probability (random_random w)) then
        if nonempty (normal_images g) then Some (random_choice w (normal_images g))
        else if nonempty (defect_images g) then Some (random_choice w (defect_images g))
        else None
      else
        if nonempty (defect_images g) then Some (random_choice w (defect_images g))
        else if nonempty (normal_images g) then Some (random_choice w (normal_images g))
        else None in
    match source_image with
    | None => None
    | Some src =>
        let filename := machine_type ++ "_" ++ wafer_id ++ "_" ++ now_stamp w ++ ".jpg" in
        let output_path := os_path_join (output_dir g) filename in
        if copy2_ok w src output_path then Some output_path else None
    end.

Record ManufacturingMachine : Type := {
  machine_id : string;
  machine_type : string;
  image_generator : WaferImageGenerator;
  is_running : bool;
  processed_wafers : nat;
  wafer_counter : nat;
  min_interval : Q;
  max_interval : Q
}.

Definition set_running (b : bool) (m : ManufacturingMachine) : ManufacturingMachine :=
  {| machine_id := machine_id m; machine_type := machine_type m;
     image_generator := image_generator m; is_running := b;
     processed_wafers := processed_wafers m; wafer_counter := wafer_counter m;
     min_interval := min_interval m; max_interval := max_interval m |}.

Definition start (m : ManufacturingMachine) : ManufacturingMachine := set_running true m.
Definition stop (m : ManufacturingMachine) : ManufacturingMachine := set_running false m.

Definition incr_wafer_counter (m : ManufacturingMachine) : ManufacturingMachine :=
  {| machine_id := machine_id m; machine_type := machine_type m;
     image_generator := image_generator m; is_running := is_running m;
     processed_wafers := processed_wafers m; wafer_counter := S (wafer_counter m);
     min_interval := min_interval m; max_interval := max_interval m |}.

Definition incr_processed_wafers (m : ManufacturingMachine) : ManufacturingMachine :=
  {| machine_id := machine_id m; machine_type := machine_type m;
     image_generator := image_generator m; is_running := is_running m;
     processed_wafers := S (processed_wafers m); wafer_counter := wafer_counter m;
     min_interval := min_interval m; max_interval := max_interval m |}.

(** [ManufacturingMachine._get_process_step] *)
Definition _get_process_step (m : ManufacturingMachine) : string :=
  if String.eqb (machine_type m) "Mechanical"
  then "Mechanical Processing (Dicing, Grinding, Polishing)"
  else if String.eqb (machine_type m) "Electrical"
  then "Electrical Testing (Probe Testing, Parametric Testing)"
  else if String.eqb (machine_type m) "Thermal"
  then "Thermal Processing (Annealing, Stress Relief, Burn-in)"
  else "Unknown Process".

Definition make_wafer_id (m : ManufacturingMachine) : string :=
  machine_type m ++ "_" ++ machine_id m ++ "_W" ++ format_04d (wafer_counter m).

(** [ManufacturingMachine.process_wafer]: the machine after the call and
    the value returned ([None] is Python's [None]). *)
Definition process_wafer (m : ManufacturingMachine) (w : world)
    : ManufacturingMachine * option dict :=
  if negb (is_running m) then (m, None)
  else
    let m1 := incr_wafer_counter m in
    let wafer_id := make_wafer_id m1 in
    match generate_image (image_generator m1) w wafer_id (machine_type m1) normal_probability_default with
    | None => (m1, None)
    | Some image_path =>
        let m2 := incr_processed_wafers m1 in
        (m2, Some [ ("wafer_id", PStr wafer_id);
                    ("machine_id", PStr (machine_id m2));
                    ("machine_type", PStr (machine_type m2));
                    ("image_path", PStr image_path);
                    ("timestamp", PStr (now_iso w));
                    ("process_step", PStr (_get_process_step m2)) ])
    end.

(** [process_wafer] past its test of [is_running]: the rest of the call
    does not read the flag again. *)
Definition process_wafer_running (m : ManufacturingMachine) (w : world)
    : ManufacturingMachine * option dict :=
  let m1 := incr_wafer_counter m in
  let wafer_id := make_wafer_id m1 in
  match generate_image (image_generator m1) w wafer_id (machine_type m1) normal_probability_default with
  | None => (m1, None)
  | Some image_path =>
      let m2 := incr_processed_wafers m1 in
      (m2, Some [ ("wafer_id", PStr wafer_id);
                  ("machine_id", PStr (machine_id m2));
                  ("machine_type", PStr (machine_type m2));
                  ("image_path", PStr image_path);
                  ("timestamp", PStr (now_iso w));
                  ("process_step", PStr (_get_process_step m2)) ])
  end.

(** The defect scorer is an external collaborator: a call either returns
    a dictionary or raises an exception whose [str(e)] is the message. *)
Inductive outcome : Type :=
| Returns (d : dict)
| Raises (msg : string).

Record scorers : Type := {
  predictor : option (pyval -> outcome);        (* self.predictor.predict *)
  defect_counter : option (pyval -> outcome);   (* self.defect_counter.count_defects *)
  str_of : pyval -> string;                     (* f"{v}" *)
  format_percent : Q -> string                  (* f"{x:.2%}" *)
}.

Definition defect_threshold : Q := 40.

Definition run_prediction (s : scorers) (image_path : pyval) : dict :=
  match predictor s with
  | Some predict =>
      match predict image_path with
      | Returns d =>
          if negb (nonempty d) || negb (dict_has "Defect Class" d)
          then [ ("Defect Class", PStr "Unknown"); ("Confidence Score", PNum 0);
                 ("error", PStr "Invalid prediction result") ]
          else d
      | Raises msg =>
          [ ("Defect Class", PStr "Error"); ("Confidence Score", PNum 0);
            ("error", PStr msg) ]
      end
  | None =>
      [ ("Defect Class", PStr "Unknown"); ("Confidence Score", PNum 0);
        ("error", PStr "Predictor not initialized") ]
  end.

Definition run_defect_count (s : scorers) (image_path : pyval) : dict :=
  match defect_counter s with
  | Some count_defects =>
      match count_defects image_path with
      | Returns d =>
          if negb (nonempty d) || negb (dict_has "defect_percentage" d)
          then [ ("defect_percentage", PNum 0);
                 ("error", PStr "Invalid defect count result") ]
          else d
      | Raises msg => [ ("defect_percentage", PNum 0); ("error", PStr msg) ]
      end
  | None =>
      [ ("defect_percentage", PNum 0);
        ("error", PStr "Defect counter not initialized") ]
  end.

(** [f"{confidence:.2%}"]: numbers only. *)
Definition format_confidence (s : scorers) (confidence : pyval) : result string :=
  match as_number confidence with
  | Some q => Ok (format_percent s q)
  | None =>
      match confidence with
      | PStr _ => Raise ValueError
      | _ => Raise TypeError
      end
  end.

(** The percentage the pass/fail decision of a call is made on:
    [defect_count_result.get("defect_percentage", 0.0)]. *)
Definition decision_percentage (s : scorers) (image_path : pyval) : pyval :=
  dict_get_or "defect_percentage" (PNum 0) (run_defect_count s image_path).

(** [ManufacturingProcessController.process_wafer_with_analysis] *)
Definition process_wafer_with_analysis (s : scorers) (w : world)
    (wafer_info : dict) : result dict :=
  let image_path := dict_get_or "image_path" PNone wafer_info in
  found <- (if truthy image_path then os_path_exists w image_path else Ok false) ;;
  if negb found then Ok (dict_set "error" (PStr "Image not found") wafer_info)
  else
    let prediction_result := run_prediction s image_path in
    let defect_count_result := run_defect_count s image_path in
    let analysis_result :=
      dict_set "analysis_timestamp" (PStr (now_iso w))
        (dict_set "defect_count" (PDict defect_count_result)
          (dict_set "prediction" (PDict prediction_result) wafer_info)) in
    let defect_class := dict_get_or "Defect Class" (PStr "Unknown") prediction_result in
    let defect_percentage := dict_get_or "defect_percentage" (PNum 0) defect_count_result in
    let confidence := dict_get_or "Confidence Score" (PNum 0) prediction_result in
    is_pass <- le_float defect_percentage defect_threshold ;;
    let analysis_result :=
      dict_set "quality_status" (PStr (if is_pass then "PASS" else "FAIL")) analysis_result in
    exceeded <- gt_float defect_percentage defect_threshold ;;
    conf <- format_confidence s confidence ;;
    let quality_reason :=
      "Defect Percentage: " ++ str_of s defect_percentage ++ "% " ++
      (if exceeded then "(>40% threshold)" else "(<=40% threshold)") ++ ", " ++
      "Defect Class: " ++ str_of s defect_class ++ ", " ++
      "Confidence: " ++ conf in
    let analysis_result := dict_set "quality_reason" (PStr quality_reason) analysis_result in
    let analysis_result := dict_set "defect_threshold" (PNum defect_threshold) analysis_result in
    let analysis_result := dict_set "defect_percentage" defect_percentage analysis_result in
    let analysis_result := dict_set "threshold_exceeded" (PBool exceeded) analysis_result in
    Ok analysis_result.

(** What is on disk under [self.results_file]: nothing before the first
    write, a JSON list, or a text that is no JSON document (empty or cut
    short). *)
Inductive file_content : Type :=
| Missing
| Whole (l : list dict)
| Broken.

(** What the rewrite of the results file comes to: [open(..., 'w')] and
    [json.dump] both succeed; [open] raises and the file is untouched;
    or [open] has truncated the file and [json.dump] raises before the
    text is complete.  Either failure is logged and swallowed. *)
Inductive write_outcome : Type :=
| Written
| NotOpened
| CutShort.

(** The controller's shared state: the machines, the result list, its
    on-disk mirror (the whole list is rewritten on every append) and the
    run's flags. *)
Record Controller : Type := {
  machines : list ManufacturingMachine;
  results : list dict;
  results_file : file_content;
  ctl_is_running : bool;
  simulation_date : option string
}.

(** [ManufacturingProcessController.save_result] *)
Definition save_result (c : Controller) (written : write_outcome) (result : dict)
    : Controller :=
  let result :=
    match simulation_date c with
    | Some d => if negb (String.eqb d "") then dict_set "simulation_date" (PStr d) result
                else result
    | None => result
    end in
  let results' := (results c ++ [result])%list in
  {| machines := machines c;
     results := results';
     results_file := match written with
                     | Written => Whole results'
                     | NotOpened => results_file c
                     | CutShort => Broken
                     end;
     ctl_is_running := ctl_is_running c;
     simulation_date := simulation_date c |}.

(** *** The worker threads of [run_simulation]

    One thread runs [machine_worker] for each machine.  A thread is at
    the top of its [while] loop, or inside the loop before the
    [max_wafers] check, or past that check (the lock is released there)
    and about to call [process_wafer], or inside [process_wafer] past its
    test of [is_running] (no lock is held there, and [stop] takes none),
    or holding the raw record of a wafer it has still to analyse and
    save, or gone.  One step of a thread is what it does between two
    points where what another thread or [stop_all_machines] writes can
    change what it does; the machines and the result list are shared
    through the controller.  The counters of a machine are written by its
    own thread only. *)
Inductive pc : Type :=
| AtLoop
| Entered
| Checked
| Started
| Produced (wafer_info : dict)
| Exited.

Record config : Type := {
  ctl : Controller;
  threads : list pc;           (* thread [i] drives machine [i] *)
  time_up : bool               (* time.time() >= end_time *)
}.

(** [max_wafers and len(self.results) >= max_wafers] *)
Definition cap_reached (max_wafers : option nat) (c : Controller) : bool :=
  match max_wafers with
  | Some n => negb (Nat.eqb n 0) && Nat.leb n (List.length (results c))
  | None => false
  end.

(** The [logger.info] line after [save_result] indexes the record; it
    raises on a record that lacks the keys. *)
Definition log_line_ok (r : dict) : bool :=
  match dict_get "prediction" r, dict_get "defect_count" r with
  | Some (PDict _), Some (PDict dc) =>
      match as_number (dict_get_or "defect_percentage" (PNum 0) dc) with
      | Some _ => dict_has "quality_status" r
      | None => false
      end
  | _, _ => false
  end.

Definition set_nth {A : Type} (i : nat) (x : A) (l : list A) : list A :=
  (firstn i l ++ x :: skipn (S i) l)%list.

Definition with_machine (c : Controller) (i : nat) (m : ManufacturingMachine)
    : Controller :=
  {| machines := set_nth i m (machines c);
     results := results c;
     results_file := results_file c;
     ctl_is_running := ctl_is_running c;
     simulation_date := simulation_date c |}.

Definition goto (cf : config) (c : Controller) (i : nat) (p : pc) : config :=
  {| ctl := c; threads := set_nth i p (threads cf); time_up := time_up cf |}.

(** One step of thread [i]; [written] and [w] are what the disk and the
    world give during that step. *)
Definition worker_step (s : scorers) (max_wafers : option nat) (i : nat)
    (w : world) (written : write_outcome) (cf : config) : option config :=
  match nth_error (threads cf) i, nth_error (machines (ctl cf)) i with
  | Some p, Some m =>
      match p with
      | Exited => None
      | AtLoop =>
          (* while self.is_running and time.time() < end_time *)
          if negb (ctl_is_running (ctl cf)) || time_up cf
          then Some (goto cf (ctl cf) i Exited)
          else Some (goto cf (ctl cf) i Entered)
      | Entered =>
          (* with self.results_lock: if max_wafers and ...: break *)
          if cap_reached max_wafers (ctl cf)
          then Some (goto cf (ctl cf) i Exited)
          else Some (goto cf (ctl cf) i Checked)
      | Checked =>
          (* machine.process_wafer(): if not self.is_running: return None;
             the sleep follows a None *)
          if negb (is_running m) then Some (goto cf (ctl cf) i AtLoop)
          else Some (goto cf (ctl cf) i Started)
      | Started =>
          (* the rest of process_wafer *)
          match process_wafer_running m w with
          | (m', None) => Some (goto cf (with_machine (ctl cf) i m') i AtLoop)
          | (m', Some wafer_info) =>
              Some (goto cf (with_machine (ctl cf) i m') i (Produced wafer_info))
          end
      | Produced wafer_info =>
          (* analysis, save_result under the lock, the log line, the sleep *)
          match process_wafer_with_analysis s w wafer_info with
          | Raise _ => Some (goto cf (ctl cf) i Exited)
          | Ok analysis_result =>
              Some (goto cf (save_result (ctl cf) written analysis_result) i
                      (if log_line_ok analysis_result then AtLoop else Exited))
          end
      end
  | _, _ => None
  end.

(** [ManufacturingProcessController.start_all_machines] and
    [stop_all_machines] *)
Definition start_all_machines (c : Controller) : Controller :=
  {| machines := map start (machines c);
     results := results c;
     results_file := results_file c;
     ctl_is_running := true;
     simulation_date := simulation_date c |}.

Definition stop_all_machines (c : Controller) : Controller :=
  {| machines := map stop (machines c);
     results := results c;
     results_file := results_file c;
     ctl_is_running := false;
     simulation_date := simulation_date c |}.

(** The two writes of [stop_all_machines], which holds no lock: the
    [machine.stop()] of one turn of its loop, and the assignment
    [self.is_running = False] after the loop. *)
Definition stop_machine (i : nat) (c : Controller) : Controller :=
  match nth_error (machines c) i with
  | Some m => with_machine c i (stop m)
  | None => c
  end.

Definition stop_controller (c : Controller) : Controller :=
  {| machines := machines c;
     results := results c;
     results_file := results_file c;
     ctl_is_running := false;
     simulation_date := simulation_date c |}.

(** What can happen next in a run: the clock passes [end_time], a call
    of [stop_all_machines] stops one more machine or clears the
    controller's flag, or one thread takes a step. *)
Inductive action : Type :=
| Timeout
| StopMachine (i : nat)
| StopController
| Step (i : nat) (w : world) (written : write_outcome).

Definition do_action (s : scorers) (max_wafers : option nat) (a : action)
    (cf : config) : option config :=
  match a with
  | Timeout => Some {| ctl := ctl cf; threads := threads cf; time_up := true |}
  | StopMachine i =>
      Some {| ctl := stop_machine i (ctl cf); threads := threads cf;
              time_up := time_up cf |}
  | StopController =>
      Some {| ctl := stop_controller (ctl cf); threads := threads cf;
              time_up := time_up cf |}
  | Step i w written => worker_step s max_wafers i w written cf
  end.

(** A call of [stop_all_machines] on [n] machines that nothing
    interrupts. *)
Definition stopping (n : nat) : list action :=
  (map StopMachine (seq 0 n) ++ [StopController])%list.

Fixpoint run (s : scorers) (max_wafers : option nat) (acts : list action)
    (cf : config) : option config :=
  match acts with
  | [] => Some cf
  | a :: rest =>
      match do_action s max_wafers a cf with
      | Some cf' => run s max_wafers rest cf'
      | None => None
      end
  end.

(** The beginning of [run_simulation]: the date is set, every machine is
    started and one thread per machine stands at the top of its loop. *)
Definition run_simulation_start (c : Controller) (date : string) : config :=
  {| ctl := start_all_machines
              {| machines := machines c;
                 results := results c;
                 results_file := results_file c;
                 ctl_is_running := ctl_is_running c;
                 simulation_date := Some date |};
     threads := map (fun _ => AtLoop) (machines c);
     time_up := false |}.

(** A controller as [__init__] leaves it. *)
Definition new_controller (ms : list ManufacturingMachine) : Controller :=
  {| machines := ms; results := []; results_file := Missing;
     ctl_is_running := false; simulation_date := None |}.

Definition all_exited (cf : config) : bool :=
  forallb (fun p => match p with Exited => true | _ => false end) (threads cf).

(** A thread past the check has a wafer in flight. *)
Definition flying (p : pc) : bool :=
  match p with
  | Checked | Started | Produced _ => true
  | _ => false
  end.

Definition in_flight (l : list pc) : nat := List.length (filter flying l).

(** *** The machines of a controller *)

(** [f"{n:02d}"] *)
Definition format_02d (n : nat) : string :=
  let s := str_nat n in
  zeros (2 - String.length s) ++ s.

(** [ManufacturingMachine.__init__] and the three subclasses, which set
    the type and the pacing interval. *)
Definition new_machine (id type : string) (g : WaferImageGenerator)
    (lo hi : Q) : ManufacturingMachine :=
  {| machine_id := id; machine_type := type; image_generator := g;
     is_running := false; processed_wafers := 0; wafer_counter := 0;
     min_interval := lo; max_interval := hi |}.

Definition MechanicalMachine (id : string) (g : WaferImageGenerator) :=
  new_machine id "Mechanical" g 5 8.

Definition ElectricalMachine (id : string) (g : WaferImageGenerator) :=
  new_machine id "Electrical" g 5 6.

Definition ThermalMachine (id : string) (g : WaferImageGenerator) :=
  new_machine id "Thermal" g 5 12.

(** The three loops of [ManufacturingProcessController.__init__] that
    fill [self.machines]. *)
Definition init_machines (g : WaferImageGenerator)
    (num_mechanical num_electrical num_thermal : nat) : list ManufacturingMachine :=
  (map (fun i => MechanicalMachine ("MECH_" ++ format_02d (i + 1)) g)
       (seq 0 num_mechanical)
   ++ map (fun i => ElectricalMachine ("ELEC_" ++ format_02d (i + 1)) g)
          (seq 0 num_electrical)
   ++ map (fun i => ThermalMachine ("THERM_" ++ format_02d (i + 1)) g)
          (seq 0 num_thermal))%list.

(** [ManufacturingMachine.get_status] *)
Definition get_status (m : ManufacturingMachine) : dict :=
  [ ("machine_id", PStr (machine_id m));
    ("machine_type", PStr (machine_type m));
    ("is_running", PBool (is_running m));
    ("processed_wafers", PNum (inject_Z (Z.of_nat (processed_wafers m))));
    ("wafer_counter", PNum (inject_Z (Z.of_nat (wafer_counter m)))) ].

End Simulation.

(* ------------------------------------------------------------------ *)
(** ** Data_Aggregator.py *)

Module Aggregator.
Import Py.

(** What the interpreter and pandas contribute: the text [str(v)] of a
    value that is not a string, and whether [pd.to_datetime] accepts a
    column of timestamps (it raises otherwise). *)
Record host : Type := {
  str_of_object : pyval -> string;
  to_datetime_ok : list pyval -> bool
}.

(** A [pd.DataFrame] built from a list of records; [converted] tells
    whether its timestamp column went through [pd.to_datetime].  The frame
    serves [get_time_series_data] only; no query below reads it. *)
Record DataFrame : Type := {
  rows : list dict;
  converted : bool
}.

Record DataAggregator : Type := {
  data : list dict;
  df : option DataFrame
}.

(** [DataAggregator.__init__] *)
Definition init : DataAggregator := {| data := []; df := None |}.

(** The results directory as [load_results] sees it. *)
Record snapshot_file : Type := {
  path : string;
  st_mtime : Q
}.

(** What [json.load] gives for a snapshot, which holds what
    [save_result] writes: a list of records, or one record (a JSON
    object). *)
Inductive parsed : Type :=
| ParsedList (l : list dict)
| ParsedOne (d : dict).

Record filesystem : Type := {
  glob_results : list snapshot_file;          (* results_dir.glob("results_*.json") *)
  read_json : string -> option parsed         (* None: open or json.load raised *)
}.

Definition timestamp_column (l : list dict) : list pyval :=
  map (dict_get_or "timestamp" PNone) l.

(** [pd.DataFrame(records)] followed by the conversion of the timestamp
    column, when there is one. *)
Definition build_frame (h : host) (l : list dict) : DataFrame * result unit :=
  if existsb (dict_has "timestamp") l then
    if to_datetime_ok h (timestamp_column l)
    then ({| rows := l; converted := true |}, Ok tt)
    else ({| rows := l; converted := false |}, Raise ValueError)
  else ({| rows := l; converted := false |}, Ok tt).

Fixpoint read_all (fs : filesystem) (files : list string) : list dict :=
  match files with
  | [] => []
  | f :: rest =>
      match read_json fs f with
      | Some (ParsedList l) => l ++ read_all fs rest
      | Some (ParsedOne d) => d :: read_all fs rest
      | None => read_all fs rest
      end
  end.

(** [DataAggregator.load_results]: the aggregator after the call and the
    value returned. *)
Definition load_results (h : host) (fs : filesystem) (file_path : option string)
    (a : DataAggregator) : DataAggregator * result (list dict) :=
  let files_to_load :=
    match file_path with
    | Some f => [f]
    | None => map path (sort_desc st_mtime (glob_results fs))
    end in
  let all_results := read_all fs files_to_load in
  match all_results with
  | [] => ({| data := all_results; df := df a |}, Ok all_results)
  | _ :: _ =>
      let (frame, r) := build_frame h all_results in
      ({| data := all_results; df := Some frame |}, _ <- r ;; Ok all_results)
  end.

Definition simulation_date_is (d : string) (r : dict) : bool :=
  eq_str (dict_get_or "simulation_date" PNone r) d.

(** [DataAggregator.filter_by_simulation_date] *)
Definition filter_by_simulation_date (a : DataAggregator) (simulation_date : string)
    : list dict :=
  match data a with
  | [] => []
  | _ :: _ => filter (simulation_date_is simulation_date) (data a)
  end.

Definition is_pass (r : dict) : bool :=
  eq_str (dict_get_or "quality_status" PNone r) "PASS".

Definition not_none (v : pyval) : bool :=
  match v with PNone => false | _ => true end.

(** [r.get("prediction", {})] used as a dictionary. *)
Definition prediction_of (r : dict) : result dict :=
  match dict_get "prediction" r with
  | None => Ok []
  | Some (PDict d) => Ok d
  | Some _ => Raise AttributeError
  end.

Definition count_pass (l : list dict) : Z := Z.of_nat (List.length (filter is_pass l)).

(** [[r.get("defect_percentage", 0) for r in data
      if r.get("defect_percentage") is not None]] *)
Definition known_percentages (l : list dict) : list pyval :=
  map (dict_get_or "defect_percentage" (PNum 0))
      (filter (fun r => not_none (dict_get_or "defect_percentage" PNone r)) l).

Fixpoint known_confidences (l : list dict) : result (list pyval) :=
  match l with
  | [] => Ok []
  | r :: rest =>
      p <- prediction_of r ;;
      if not_none (dict_get_or "Confidence Score" PNone p) then
        p' <- prediction_of r ;;
        tl <- known_confidences rest ;;
        Ok (dict_get_or "Confidence Score" (PNum 0) p' :: tl)
      else known_confidences rest
  end.

(** [sum(l) / len(l) if l else 0] *)
Definition mean_or_zero (l : list pyval) : result Q :=
  match l with
  | [] => Ok 0%Q
  | _ :: _ => s <- sum l ;; to_float (s / inject_Z (Z.of_nat (List.length l)))%Q
  end.

(** [count / total * 100]: a true division, then a product. *)
Definition percent_of (count total : Z) : Q :=
  fl (fl (inject_Z count / inject_Z total) * 100)%Q.

(** [(count / total * 100) if total > 0 else 0] *)
Definition rate (count total : Z) : Q :=
  if (0 <? total)%Z then percent_of count total else 0%Q.

Record statistics : Type := {
  total_wafers : Z;
  pass_count : Z;
  fail_count : Z;
  pass_rate : Q;
  fail_rate : Q;
  average_defect_percentage : Q;
  average_confidence : Q
}.

(** Either the statistics or the marker [{"error": msg}]. *)
Inductive summary : Type :=
| ErrorMarker (msg : string)
| Statistics (s : statistics).

(** [DataAggregator.get_summary_statistics] *)
Definition get_summary_statistics (a : DataAggregator) : result summary :=
  match data a with
  | [] => Ok (ErrorMarker "No data loaded")
  | _ :: _ =>
      let total := Z.of_nat (List.length (data a)) in
      let passed := count_pass (data a) in
      let failed := (total - passed)%Z in
      avg_defect_percentage <- mean_or_zero (known_percentages (data a)) ;;
      confidences <- known_confidences (data a) ;;
      avg_confidence <- mean_or_zero confidences ;;
      Ok (Statistics
            {| total_wafers := total;
               pass_count := passed;
               fail_count := failed;
               pass_rate := rate passed total;
               fail_rate := rate failed total;
               average_defect_percentage := round avg_defect_percentage 2;
               average_confidence := round avg_confidence 4 |})
  end.

(** [DataAggregator.get_daily_statistics] *)
Definition get_daily_statistics (h : host) (a : DataAggregator)
    (simulation_date : string) : result summary :=
  let daily_data := filter_by_simulation_date a simulation_date in
  match daily_data with
  | [] => Ok (ErrorMarker ("No data found for date " ++ simulation_date))
  | _ :: _ =>
      let (frame, r) := build_frame h daily_data in
      let temp_aggregator := {| data := daily_data; df := Some frame |} in
      _ <- r ;; get_summary_statistics temp_aggregator
  end.

(** A [defaultdict]: [m[k] = f(m[k])], where a key not yet present
    starts from [default] and goes last; a key already present keeps its
    position and its first spelling. *)
Fixpoint update {K V : Type} (eqb : K -> K -> bool) (k : K) (default : V)
    (f : V -> V) (m : list (K * V)) : list (K * V) :=
  match m with
  | [] => [(k, f default)]
  | (k', v) :: t =>
      if eqb k' k then (k', f v) :: t else (k', v) :: update eqb k default f t
  end.

(** [counts[k] += 1] on a [defaultdict(int)]; an unhashable key is a
    [TypeError]. *)
Definition count_key (k : pyval) (m : list (pyval * Z)) : result (list (pyval * Z)) :=
  if hashable k then Ok (update key_eqb k 0%Z Z.succ m) else Raise TypeError.

Definition defect_class_of (r : dict) : result pyval :=
  p <- prediction_of r ;; Ok (dict_get_or "Defect Class" (PStr "Unknown") p).

(** The per-machine accumulator of [get_machine_statistics]. *)
Record machine_acc : Type := {
  acc_total : Z;
  acc_pass : Z;
  acc_fail : Z;
  acc_defect_percentages : list pyval;
  acc_defect_classes : list (pyval * Z)
}.

Definition machine_acc_default : machine_acc :=
  {| acc_total := 0; acc_pass := 0; acc_fail := 0;
     acc_defect_percentages := []; acc_defect_classes := [] |}.

(** [f"{v}"]: a string is itself. *)
Definition format_value (h : host) (v : pyval) : string :=
  match v with
  | PStr s => s
  | _ => str_of_object h v
  end.

Definition machine_key (h : host) (r : dict) : string :=
  format_value h (dict_get_or "machine_type" (PStr "Unknown") r) ++ "_" ++
  format_value h (dict_get_or "machine_id" (PStr "Unknown") r).

Definition get_acc (key : string) (m : list (string * machine_acc)) : machine_acc :=
  match find (fun kv => String.eqb (fst kv) key) m with
  | Some kv => snd kv
  | None => machine_acc_default
  end.

(** One iteration of the loop over [self.data]. *)
Definition machine_step (h : host) (m : list (string * machine_acc)) (r : dict)
    : result (list (string * machine_acc)) :=
  let key := machine_key h r in
  let defect_pct := dict_get_or "defect_percentage" PNone r in
  defect_class <- defect_class_of r ;;
  classes <- count_key defect_class (acc_defect_classes (get_acc key m)) ;;
  Ok (update String.eqb key machine_acc_default
        (fun s =>
           {| acc_total := s.(acc_total) + 1;
              acc_pass := if is_pass r then s.(acc_pass) + 1 else s.(acc_pass);
              acc_fail := if is_pass r then s.(acc_fail) else s.(acc_fail) + 1;
              acc_defect_percentages :=
                if not_none defect_pct
                then s.(acc_defect_percentages) ++ [defect_pct]
                else s.(acc_defect_percentages);
              acc_defect_classes := classes |}) m)%Z.

Fixpoint machine_loop (h : host) (m : list (string * machine_acc)) (l : list dict)
    : result (list (string * machine_acc)) :=
  match l with
  | [] => Ok m
  | r :: rest => m' <- machine_step h m r ;; machine_loop h m' rest
  end.

Record machine_statistics : Type := {
  ms_machine_id : string;
  ms_total_wafers : Z;
  ms_pass_count : Z;
  ms_fail_count : Z;
  ms_pass_rate : Q;
  ms_average_defect_percentage : Q;
  ms_defect_class_distribution : list (pyval * Z)
}.

Definition format_machine (kv : string * machine_acc) : result (string * machine_statistics) :=
  let (key, stats) := kv in
  avg <- mean_or_zero (acc_defect_percentages stats) ;;
  Ok (key,
      {| ms_machine_id := key;
         ms_total_wafers := acc_total stats;
         ms_pass_count := acc_pass stats;
         ms_fail_count := acc_fail stats;
         ms_pass_rate :=
           if (0 <? acc_total stats)%Z
           then round (percent_of (acc_pass stats) (acc_total stats)) 2
           else 0%Q;
         ms_average_defect_percentage :=
           match acc_defect_percentages stats with
           | [] => 0%Q
           | _ :: _ => round avg 2
           end;
         ms_defect_class_distribution := acc_defect_classes stats |}).

Fixpoint map_result {A B : Type} (f : A -> result B) (l : list A) : result (list B) :=
  match l with
  | [] => Ok []
  | x :: t => y <- f x ;; ys <- map_result f t ;; Ok (y :: ys)
  end.

(** [DataAggregator.get_machine_statistics] *)
Definition get_machine_statistics (h : host) (a : DataAggregator)
    : result (list (string * machine_statistics)) :=
  match data a with
  | [] => Ok []
  | _ :: _ =>
      machine_stats <- machine_loop h [] (data a) ;;
      map_result format_machine machine_stats
  end.

(** Either [{}] or [{"counts": ..., "percentages": ...}]. *)
Inductive distribution : Type :=
| EmptyDistribution
| Distribution (counts : list (pyval * Z)) (percentages : list (pyval * Q)).

Fixpoint count_classes (m : list (pyval * Z)) (l : list dict) : result (list (pyval * Z)) :=
  match l with
  | [] => Ok m
  | r :: rest =>
      defect_class <- defect_class_of r ;;
      m' <- count_key defect_class m ;;
      count_classes m' rest
  end.

Definition sum_values (m : list (pyval * Z)) : Z :=
  fold_left Z.add (map snd m) 0%Z.

(** [DataAggregator.get_defect_distribution] *)
Definition get_defect_distribution (a : DataAggregator) : result distribution :=
  match data a with
  | [] => Ok EmptyDistribution
  | _ :: _ =>
      defect_counts <- count_classes [] (data a) ;;
      let total := sum_values defect_counts in
      Ok (Distribution defect_counts
            (if (0 <? total)%Z
             then map (fun kv => (fst kv, round (percent_of (snd kv) total) 2))
                      defect_counts
             else []))
  end.

(** The loop of [get_anomalies]. *)
Fixpoint exceeding (threshold_percentage : Q) (l : list dict) : result (list dict) :=
  match l with
  | [] => Ok []
  | r :: rest =>
      above <- gt_float (dict_get_or "defect_percentage" (PNum 0) r) threshold_percentage ;;
      tl <- exceeding threshold_percentage rest ;;
      Ok (if above then r :: tl else tl)
  end.

(** The number [x.get("defect_percentage", 0)] that the sort compares;
    every record that reaches the sort has one. *)
Definition percentage_key (r : dict) : Q :=
  match as_number (dict_get_or "defect_percentage" (PNum 0) r) with
  | Some q => q
  | None => 0
  end.

(** [DataAggregator.get_anomalies] *)
Definition get_anomalies (a : DataAggregator) (threshold_percentage : Q)
    : result (list dict) :=
  match data a with
  | [] => Ok []
  | _ :: _ =>
      anomalies <- exceeding threshold_percentage (data a) ;;
      Ok (sort_desc percentage_key anomalies)
  end.

(** [config_LLM.DEFECT_PERCENTAGE_THRESHOLD] *)
Definition DEFECT_PERCENTAGE_THRESHOLD : Q := 40.

Record date_acc : Type := {
  d_total_wafers : Z;
  d_pass_count : Z;
  d_fail_count : Z;
  d_defect_percentages : list pyval;
  d_anomalies : Z
}.

Definition date_acc_default : date_acc :=
  {| d_total_wafers := 0; d_pass_count := 0; d_fail_count := 0;
     d_defect_percentages := []; d_anomalies := 0 |}.

(** One iteration of the loop of [get_date_statistics]. *)
Definition date_step (m : list (pyval * date_acc)) (r : dict)
    : result (list (pyval * date_acc)) :=
  let sim_date := dict_get_or "simulation_date" PNone r in
  if negb (truthy sim_date) then Ok m
  else if negb (hashable sim_date) then Raise TypeError
  else
    let defect_pct := dict_get_or "defect_percentage" (PNum 0) r in
    above <- gt_float defect_pct DEFECT_PERCENTAGE_THRESHOLD ;;
    Ok (update key_eqb sim_date date_acc_default
          (fun s =>
             {| d_total_wafers := s.(d_total_wafers) + 1;
                d_pass_count := if is_pass r then s.(d_pass_count) + 1 else s.(d_pass_count);
                d_fail_count := if is_pass r then s.(d_fail_count) else s.(d_fail_count) + 1;
                d_defect_percentages :=
                  if not_none defect_pct
                  then s.(d_defect_percentages) ++ [defect_pct]
                  else s.(d_defect_percentages);
                d_anomalies := if above then s.(d_anomalies) + 1 else s.(d_anomalies) |}) m)%Z.

Fixpoint date_loop (m : list (pyval * date_acc)) (l : list dict)
    : result (list (pyval * date_acc)) :=
  match l with
  | [] => Ok m
  | r :: rest => m' <- date_step m r ;; date_loop m' rest
  end.

Record date_statistics : Type := {
  ds_total_wafers : Z;
  ds_pass_count : Z;
  ds_fail_count : Z;
  ds_pass_rate : Q;
  ds_avg_defect_percentage : Q;
  ds_anomalies : Z
}.

Definition format_date (kv : pyval * date_acc) : result (pyval * date_statistics) :=
  let (date, stats) := kv in
  avg_defect <- mean_or_zero (d_defect_percentages stats) ;;
  Ok (date,
      {| ds_total_wafers := d_total_wafers stats;
         ds_pass_count := d_pass_count stats;
         ds_fail_count := d_fail_count stats;
         ds_pass_rate := round (rate (d_pass_count stats) (d_total_wafers stats)) 2;
         ds_avg_defect_percentage := round avg_defect 2;
         ds_anomalies := d_anomalies stats |}).

(** [DataAggregator.get_date_statistics] *)
Definition get_date_statistics (a : DataAggregator)
    : result (list (pyval * date_statistics)) :=
  match data a with
  | [] => Ok []
  | _ :: _ =>
      date_stats <- date_loop [] (data a) ;;
      map_result format_date date_stats
  end.

(** [dates.add(sim_date)] on a [set]: an object equal to a member is
    not added again.  The members are kept here in the order they came;
    [sorted] below makes the order of the set immaterial. *)
Definition set_add (k : pyval) (members : list pyval) : list pyval :=
  if existsb (fun k' => key_eqb k' k) members then members
  else (members ++ [k])%list.

Fixpoint collect_dates (members : list pyval) (l : list dict) : result (list pyval) :=
  match l with
  | [] => Ok members
  | r :: rest =>
      let sim_date := dict_get_or "simulation_date" PNone r in
      if truthy sim_date then
        if hashable sim_date then collect_dates (set_add sim_date members) rest
        else Raise TypeError
      else collect_dates members rest
  end.

Definition is_str (v : pyval) : bool :=
  match v with PStr _ => true | _ => false end.

Definition text_of (v : pyval) : string :=
  match v with PStr s => s | _ => "" end.

Definition number_of (v : pyval) : Q :=
  match as_number v with Some q => q | None => 0 end.

(** A stable sort, largest first, by an order given as a test. *)
Fixpoint insert_desc_by {A : Type} (leb : A -> A -> bool) (x : A) (l : list A)
    : list A :=
  match l with
  | [] => [x]
  | y :: t => if leb y x then x :: y :: t else y :: insert_desc_by leb x t
  end.

Definition sort_desc_by {A : Type} (leb : A -> A -> bool) (l : list A) : list A :=
  fold_right (insert_desc_by leb) [] l.

(** [sorted(l, reverse=True)]: strings are ordered with strings and
    numbers with numbers; ordering a string with a number is a
    [TypeError]. *)
Definition sorted_reverse (l : list pyval) : result (list pyval) :=
  if forallb is_str l
  then Ok (sort_desc_by (fun a b => String.leb (text_of a) (text_of b)) l)
  else if forallb (fun v => match as_number v with Some _ => true | None => false end) l
  then Ok (sort_desc number_of l)
  else Raise TypeError.

(** [DataAggregator.get_available_simulation_dates] *)
Definition get_available_simulation_dates (a : DataAggregator) : result (list pyval) :=
  match data a with
  | [] => Ok []
  | _ :: _ =>
      dates <- collect_dates [] (data a) ;;
      sorted_reverse dates
  end.

Record ranking_entry : Type := {
  rk_machine : string;
  rk_pass_rate : Q;
  rk_total_wafers : Z;
  rk_average_defect_percentage : Q
}.

Definition ranking_of (kv : string * machine_statistics) : ranking_entry :=
  {| rk_machine := fst kv;
     rk_pass_rate := ms_pass_rate (snd kv);
     rk_total_wafers := ms_total_wafers (snd kv);
     rk_average_defect_percentage := ms_average_defect_percentage (snd kv) |}.

(** [DataAggregator.get_machine_performance_ranking] *)
Definition get_machine_performance_ranking (h : host) (a : DataAggregator)
    : result (list ranking_entry) :=
  machine_stats <- get_machine_statistics h a ;;
  Ok (sort_desc rk_pass_rate (map ranking_of machine_stats)).

End Aggregator.

(* ------------------------------------------------------------------ *)
(** ** Summary_Generator.py: the helpers that read a record *)

Module Report.
Import Py Aggregator.

(** [s.replace(c, by)] for a one-character [c]. *)
Fixpoint replace_char (c : ascii) (by_ : string) (s : string) : string :=
  match s with
  | EmptyString => EmptyString
  | String a t =>
      if Ascii.eqb a c then by_ ++ replace_char c by_ t
      else String a (replace_char c by_ t)
  end.

(** [SummaryGenerator._esc] *)
Definition _esc (h : host) (s : pyval) : string :=
  match s with
  | PNone => ""
  | _ =>
      replace_char ">" "&gt;"
        (replace_char "<" "&lt;"
           (replace_char "&" "&amp;" (format_value h s)))
  end.

(** [SummaryGenerator._get_pred] and [_get_defect_pct] *)
Definition _get_pred (record : dict) (key : string) (default : pyval) : result pyval :=
  p <- prediction_of record ;; Ok (dict_get_or key default p).

Definition _get_defect_pct (record : dict) : result pyval :=
  match dict_get "defect_count" record with
  | None => Ok PNone
  | Some (PDict d) => Ok (dict_get_or "defect_percentage" PNone d)
  | Some _ => Raise AttributeError
  end.

End Report.

(* ------------------------------------------------------------------ *)
(** ** Concrete runs used by the examples below *)

Module Fixtures.
Import Py Simulation.

Definition generator : WaferImageGenerator :=
  {| normal_images := ["Test/Normal/n1.jpg"];
     defect_images := ["Test/Scratch/s1.jpg"];
     output_dir := "processed_images" |}.

Definition empty_generator : WaferImageGenerator :=
  {| normal_images := []; defect_images := []; output_dir := "processed_images" |}.

Definition first_image (l : list string) : string :=
  match l with [] => "" | x :: _ => x end.

(** A world where every copy succeeds and every path exists. *)
Definition world_ok : world :=
  {| random_random := 1 # 2;
     random_choice := first_image;
     now_stamp := "20250101_080000_000000";
     now_iso := "2025-01-01T08:00:00";
     copy2_ok := fun _ _ => true;
     os_path_exists := fun _ => Ok true |}.

(** A world where the image file is gone when the analysis starts. *)
Definition world_image_missing : world :=
  {| random_random := 1 # 2;
     random_choice := first_image;
     now_stamp := "20250101_080000_000000";
     now_iso := "2025-01-01T08:00:00";
     copy2_ok := fun _ _ => true;
     os_path_exists := fun _ => Ok false |}.

Definition show (v : pyval) : string :=
  match v with
  | PStr s => s
  | PNum _ => "55.0"
  | _ => "None"
  end.

(** A scorer that sees a scratch covering 55 % of every wafer. *)
Definition scorers_55 : scorers :=
  {| predictor := Some (fun _ => Returns [ ("Defect Class", PStr "Scratch");
                                           ("Confidence Score", PNum (9 # 10)) ]);
     defect_counter := Some (fun _ => Returns [ ("defect_percentage", PNum 55) ]);
     str_of := show;
     format_percent := fun _ => "90.00%" |}.

Definition mech_01 : ManufacturingMachine :=
  {| machine_id := "MECH_01"; machine_type := "Mechanical";
     image_generator := generator; is_running := true;
     processed_wafers := 0; wafer_counter := 0;
     min_interval := 5; max_interval := 8 |}.

Definition elec_01 : ManufacturingMachine :=
  {| machine_id := "ELEC_01"; machine_type := "Electrical";
     image_generator := generator; is_running := false;
     processed_wafers := 0; wafer_counter := 0;
     min_interval := 5; max_interval := 6 |}.

Definition therm_01 : ManufacturingMachine :=
  {| machine_id := "THERM_01"; machine_type := "Thermal";
     image_generator := generator; is_running := false;
     processed_wafers := 0; wafer_counter := 0;
     min_interval := 5; max_interval := 12 |}.

(** The raw record [mech_01] emits for its first wafer. *)
Definition wafer_info_1 : dict :=
  [ ("wafer_id", PStr "Mechanical_MECH_01_W0001");
    ("machine_id", PStr "MECH_01");
    ("machine_type", PStr "Mechanical");
    ("image_path", PStr "processed_images/Mechanical_Mechanical_MECH_01_W0001_20250101_080000_000000.jpg");
    ("timestamp", PStr "2025-01-01T08:00:00");
    ("process_step", PStr "Mechanical Processing (Dicing, Grinding, Polishing)") ].

(** *** Data sets *)

Import Aggregator.

Definition wafer (id : string) (pct : Q) (status : string) : dict :=
  [ ("wafer_id", PStr id);
    ("machine_id", PStr "MECH_01");
    ("machine_type", PStr "Mechanical");
    ("timestamp", PStr "2025-01-01T08:00:00");
    ("prediction", PDict [ ("Defect Class", PStr (if String.eqb status "PASS"
                                                   then "Normal" else "Scratch"));
                           ("Confidence Score", PNum (9 # 10)) ]);
    ("quality_status", PStr status);
    ("defect_percentage", PNum pct);
    ("simulation_date", PStr "2025-01-01") ].

(** A batch of 10 wafers: six at 10 % that pass, four at 55 % that fail. *)
Definition batch : list dict :=
  [ wafer "W0001" 10 "PASS"; wafer "W0002" 10 "PASS"; wafer "W0003" 10 "PASS";
    wafer "W0004" 10 "PASS"; wafer "W0005" 10 "PASS"; wafer "W0006" 10 "PASS";
    wafer "W0007" 55 "FAIL"; wafer "W0008" 55 "FAIL"; wafer "W0009" 55 "FAIL";
    wafer "W0010" 55 "FAIL" ].

Definition loaded_batch : DataAggregator := {| data := batch; df := None |}.

(** Partial records: no [quality_status], a [null] one, one in lower
    case, and one proper pass. *)
Definition partial_records : list dict :=
  [ [ ("wafer_id", PStr "W0001"); ("machine_id", PStr "MECH_01");
      ("machine_type", PStr "Mechanical"); ("defect_percentage", PNum 12) ];
    [ ("wafer_id", PStr "W0002"); ("machine_id", PStr "MECH_01");
      ("machine_type", PStr "Mechanical"); ("quality_status", PNone) ];
    [ ("wafer_id", PStr "W0003"); ("machine_id", PStr "ELEC_01");
      ("machine_type", PStr "Electrical"); ("quality_status", PStr "pass");
      ("defect_percentage", PNum 8) ];
    [ ("wafer_id", PStr "W0004"); ("machine_id", PStr "ELEC_01");
      ("machine_type", PStr "Electrical"); ("quality_status", PStr "PASS");
      ("defect_percentage", PNum 4) ] ].

Definition loaded_partial : DataAggregator := {| data := partial_records; df := None |}.

(** A record whose [defect_percentage] is [null]. *)
Definition null_percentage : list dict :=
  [ [ ("wafer_id", PStr "W0001"); ("simulation_date", PStr "2025-01-01");
      ("quality_status", PStr "PASS"); ("defect_percentage", PNone) ] ].

Definition loaded_null : DataAggregator := {| data := null_percentage; df := None |}.

(** A record at 10 % and one without [defect_percentage], same date. *)
Definition missing_percentage : list dict :=
  [ [ ("wafer_id", PStr "W0001"); ("simulation_date", PStr "2025-01-01");
      ("quality_status", PStr "PASS"); ("defect_percentage", PNum 10) ];
    [ ("wafer_id", PStr "W0002"); ("simulation_date", PStr "2025-01-01");
      ("quality_status", PStr "PASS") ] ].

Definition loaded_missing : DataAggregator := {| data := missing_percentage; df := None |}.

(** Six records over two days, of three defect classes; the last two
    have no date and an empty one. *)
Definition day_wafer (id date cls status : string) (pct : Q) : dict :=
  [ ("wafer_id", PStr id);
    ("machine_id", PStr "ELEC_01");
    ("prediction", PDict [ ("Defect Class", PStr cls) ]);
    ("quality_status", PStr status);
    ("defect_percentage", PNum pct);
    ("simulation_date", PStr date) ].

Definition two_days : list dict :=
  [ day_wafer "W0001" "2025-01-01" "Normal" "PASS" 10;
    day_wafer "W0002" "2025-01-02" "Scratch" "FAIL" 55;
    day_wafer "W0003" "2025-01-01" "Scratch" "FAIL" 60;
    day_wafer "W0004" "2025-01-02" "Normal" "PASS" 12;
    [ ("wafer_id", PStr "W0005"); ("quality_status", PStr "PASS") ];
    day_wafer "W0006" "" "Donut" "FAIL" 70 ].

Definition loaded_two_days : DataAggregator := {| data := two_days; df := None |}.

(** Three records measured in floats: the percentages are the floats
    of 0.01 and 0.02, the third record has none; the first passes. *)
Definition float_record (id status : string) (pct : Q) : dict :=
  [ ("wafer_id", PStr id);
    ("machine_id", PStr "MECH_01");
    ("machine_type", PStr "Mechanical");
    ("prediction", PDict [ ("Defect Class", PStr "Normal");
                           ("Confidence Score", PNum (fl (9 # 10))) ]);
    ("quality_status", PStr status);
    ("defect_percentage", PNum (fl pct));
    ("simulation_date", PStr "2025-01-01") ].

Definition float_records : list dict :=
  [ float_record "W0001" "PASS" (1 # 100);
    float_record "W0002" "FAIL" (2 # 100);
    [ ("wafer_id", PStr "W0003"); ("quality_status", PStr "FAIL") ] ].

Definition loaded_floats : DataAggregator := {| data := float_records; df := None |}.

(** 160 records, 23 of them of the class Scratch. *)
Definition class_record (cls : string) : dict :=
  [ ("prediction", PDict [ ("Defect Class", PStr cls) ]) ].

Definition shares : list dict :=
  (repeat (class_record "Scratch") 23 ++ repeat (class_record "Normal") 137)%list.

Definition loaded_shares : DataAggregator := {| data := shares; df := None |}.

Definition host_ok : host :=
  {| str_of_object := fun _ => "None"; to_datetime_ok := fun _ => true |}.

End Fixtures.

(* ------------------------------------------------------------------ *)
(** ** Notions used to state the properties *)

Module Props.
Import Py Simulation.

Definition is_some {A : Type} (o : option A) : bool :=
  match o with Some _ => true | None => false end.

(** The image a call of [process_wafer] on a running machine asks for. *)
Definition requested_image (m : ManufacturingMachine) (w : world) : option string :=
  generate_image (image_generator m) w (make_wafer_id (incr_wafer_counter m))
    (machine_type m) normal_probability_default.

(** [wafer_info.get("image_path")] and the guard
    [image_path and os.path.exists(image_path)] of
    [process_wafer_with_analysis]. *)
Definition image_path_of (wafer_info : dict) : pyval :=
  dict_get_or "image_path" PNone wafer_info.

Definition image_found (w : world) (wafer_info : dict) : result bool :=
  if truthy (image_path_of wafer_info)
  then os_path_exists w (image_path_of wafer_info)
  else Ok false.

(** The record of the first wafer of [mech_01] after its analysis by
    [scorers_55], and what comes back when its image file is missing. *)
Definition analysed_1 : dict :=
  (Fixtures.wafer_info_1 ++
   [ ("prediction", PDict [ ("Defect Class", PStr "Scratch");
                            ("Confidence Score", PNum (9 # 10)) ]);
     ("defect_count", PDict [ ("defect_percentage", PNum 55) ]);
     ("analysis_timestamp", PStr "2025-01-01T08:00:00");
     ("quality_status", PStr "FAIL");
     ("quality_reason",
      PStr "Defect Percentage: 55.0% (>40% threshold), Defect Class: Scratch, Confidence: 90.00%");
     ("defect_threshold", PNum 40);
     ("defect_percentage", PNum 55);
     ("threshold_exceeded", PBool true) ])%list.

Definition not_found_1 : dict :=
  (Fixtures.wafer_info_1 ++ [ ("error", PStr "Image not found") ])%list.

(** *** The run *)

Definition checked (p : pc) : nat := if flying p then 1 else 0.

(** What bounds a run with the cap [cap] and [n] threads: the records
    stored plus the wafers in flight never exceed [cap - 1 + n]. *)
Definition within_cap (cap n : nat) (cf : config) : Prop :=
  List.length (threads cf) = n
  /\ (List.length (results (ctl cf)) + in_flight (threads cf) <= cap - 1 + n)%nat.

Definition three_machines : list ManufacturingMachine :=
  [ Fixtures.mech_01; Fixtures.elec_01; Fixtures.therm_01 ].

(** One step of thread [i] in a world where everything succeeds; a full
    iteration of the loop takes five. *)
Definition turn (i : nat) : action := Step i Fixtures.world_ok Written.

Definition turns (i n : nat) : list action := repeat (turn i) n.

(** Three machines, [max_wafers = 5]: one schedule of the run.  Thread 0
    stores four wafers; then the three threads pass the check one after
    the other while four records are stored, each produces and stores its
    wafer, and each leaves at its next check. *)
Definition racing_schedule : list action :=
  (turns 0 20
   ++ turns 0 2 ++ turns 1 2 ++ turns 2 2
   ++ turns 0 3 ++ turns 1 3 ++ turns 2 3
   ++ turns 0 2 ++ turns 1 2 ++ turns 2 2)%list.

Definition racing_run : option config :=
  run Fixtures.scorers_55 (Some 5%nat) racing_schedule
    (run_simulation_start (new_controller three_machines) "2025-01-01").

(** Where that schedule ends. *)
Definition racing_end : config :=
  Eval vm_compute in
    match racing_run with
    | Some cf => cf
    | None => run_simulation_start (new_controller three_machines) "2025-01-01"
    end.

(** Another schedule of the same run: thread 0 stores one wafer, the
    clock passes the end time and every thread leaves its loop. *)
Definition short_schedule : list action :=
  (turns 0 5 ++ [Timeout] ++ turns 0 1 ++ turns 1 1 ++ turns 2 1)%list.

Definition short_run : option config :=
  run Fixtures.scorers_55 (Some 5%nat) short_schedule
    (run_simulation_start (new_controller three_machines) "2025-01-01").

(** *** Aggregator *)

Import Aggregator.

(** Where the sum of floats between 0 and 100 stops growing. *)
Definition sum_cap : Q := pow2 61.

(** The exact sum of numbers. *)
Definition Qsum (l : list Q) : Q := fold_left Qplus l 0.

(** Sum and mean of floats as Python computes them: each addition and
    the division are rounded; the mean of nothing is 0. *)
Definition float_sum_from (acc : Q) (l : list Q) : Q :=
  fold_left (fun s q => fl (s + q)) l acc.

Definition float_sum (l : list Q) : Q := float_sum_from 0 l.

Definition float_mean (l : list Q) : Q :=
  match l with
  | [] => 0
  | _ :: _ => fl (float_sum l / inject_Z (Z.of_nat (List.length l)))
  end.



(** What the rounded operations of a rate, and those of a percentage
    rounded to 2 decimals, can add to the exact value. *)
Definition rate_slack : Q := pow2 (-45).

Definition percentage_slack : Q := (1 # 200) + pow2 (-44).




(** A field that is absent, [null] or a number. *)
Definition optional_number (k : string) (d : dict) : bool :=
  match dict_get k d with
  | None | Some PNone => true
  | Some v => is_some (as_number v)
  end.

(** [r.get("prediction", {})] is usable: the key is absent or holds a
    dictionary, of which [f] holds. *)
Definition prediction_ok (f : dict -> bool) (r : dict) : bool :=
  match dict_get "prediction" r with
  | None => true
  | Some (PDict p) => f p
  | Some _ => false
  end.

(** A record as the data model has it, each field being optional: the
    defect percentage and the confidence score are numbers when they are
    there. *)
Definition numbers_ok (r : dict) : bool :=
  optional_number "defect_percentage" r &&
  prediction_ok (optional_number "Confidence Score") r.



(** A record whose defect class can key a dictionary. *)
Definition class_ok (r : dict) : bool :=
  prediction_ok (fun p => hashable (dict_get_or "Defect Class" (PStr "Unknown") p)) r.

(** A record whose [defect_percentage] reads as a number (0 when the key
    is absent, as [get_anomalies] reads it). *)
Definition percentage_readable (r : dict) : bool :=
  is_some (as_number (dict_get_or "defect_percentage" (PNum 0) r)).

Definition exceeds (t : Q) (r : dict) : bool :=
  negb (Qle_bool (percentage_key r) t).

Definition same_percentage (q : Q) (r : dict) : bool :=
  Qeq_bool (percentage_key r) q.

(** The records of one machine group, and how many records a predicate
    holds of. *)
Definition machine_group (h : host) (key : string) (l : list dict) : list dict :=
  filter (fun r => String.eqb (machine_key h r) key) l.

Definition how_many (f : dict -> bool) (l : list dict) : Z :=
  Z.of_nat (List.length (filter f l)).

Definition is_fail (r : dict) : bool := negb (is_pass r).

Definition bump (b : bool) : Z := if b then 1%Z else 0%Z.

(** What the two queries answer on the partial records. *)
Definition partial_summary : statistics :=
  Eval vm_compute in
    match get_summary_statistics Fixtures.loaded_partial with
    | Ok (Statistics st) => st
    | _ => {| total_wafers := 0; pass_count := 0; fail_count := 0; pass_rate := 0;
              fail_rate := 0; average_defect_percentage := 0;
              average_confidence := 0 |}
    end.

Definition partial_machines : list (string * machine_statistics) :=
  Eval vm_compute in
    match get_machine_statistics Fixtures.host_ok Fixtures.loaded_partial with
    | Ok ms => ms
    | Raise _ => []
    end.

(** [x] may stand before [y] in a list sorted largest key first. *)
Definition before {A : Type} (key : A -> Q) (x y : A) : Prop := (key y <= key x)%Q.

(** Largest percentage first. *)
Definition descending (l : list dict) : Prop := Sorted (before percentage_key) l.

(** *** Further notions *)

(** The keys of a sequence in the order of their first appearance. *)
Definition add_key (k : string) (ks : list string) : list string :=
  if existsb (String.eqb k) ks then ks else (ks ++ [k])%list.

Definition first_seen (ks : list string) : list string :=
  fold_left (fun acc k => add_key k acc) ks [].

Definition total_of (ms : list (string * machine_statistics)) : Z :=
  fold_right Z.add 0%Z (map (fun kv => ms_total_wafers (snd kv)) ms).

Definition acc_sum (m : list (string * machine_acc)) : Z :=
  fold_right Z.add 0%Z (map (fun kv => acc_total (snd kv)) m).

Definition same_pass_rate (q : Q) (e : ranking_entry) : bool :=
  Qeq_bool (rk_pass_rate e) q.

(** The records a snapshot file contributes: those of its list, the
    single record it holds when it holds no list, none when it cannot be
    opened or parsed. *)
Definition records_of (fs : filesystem) (f : string) : list dict :=
  match read_json fs f with
  | Some (ParsedList l) => l
  | Some (ParsedOne d) => [d]
  | None => []
  end.

(** *** Wafer identifiers *)

Definition is_digit (c : ascii) : bool :=
  Nat.leb 48 (nat_of_ascii c) && Nat.leb (nat_of_ascii c) 57.

Definition starts_with_digit (s : string) : bool :=
  match s with
  | String c _ => is_digit c
  | EmptyString => false
  end.

(** Reading a decimal number at the head of a string: the number and
    what follows it. *)
Fixpoint read_nat_from (acc : nat) (s : string) : nat * string :=
  match s with
  | String c t =>
      if is_digit c then read_nat_from (10 * acc + (nat_of_ascii c - 48)) t
      else (acc, s)
  | EmptyString => (acc, s)
  end.

Definition read_nat (s : string) : nat * string := read_nat_from 0 s.

(** A machine is known by its type and its identifier; the wafer
    identifier it gives to its [k]-th wafer. *)
Definition identity (m : ManufacturingMachine) : string * string :=
  (machine_type m, machine_id m).

Definition wafer_id_of (p : string * string) (k : nat) : string :=
  fst p ++ "_" ++ snd p ++ "_W" ++ format_04d k.

(** The three kinds of machines [__init__] creates and the identity of
    the [n]-th machine of a kind. *)
Inductive kind : Type := Mech | Elec | Therm.

Definition kind_identity (kd : kind) (n : nat) : string * string :=
  match kd with
  | Mech => ("Mechanical", "MECH_" ++ format_02d n)
  | Elec => ("Electrical", "ELEC_" ++ format_02d n)
  | Therm => ("Thermal", "THERM_" ++ format_02d n)
  end.

(** No two machines of the list can give the same wafer identifier. *)
Definition separate (ids : list (string * string)) : Prop :=
  forall i j p q ki kj,
    nth_error ids i = Some p -> nth_error ids j = Some q ->
    wafer_id_of p ki = wafer_id_of q kj -> i = j /\ ki = kj.

(** *** What a run keeps *)

(** The raw records the threads hold between [process_wafer] and
    [save_result]. *)
Definition infos_of (p : pc) : list dict :=
  match p with
  | Produced wafer_info => [wafer_info]
  | _ => []
  end.

Definition produced_infos (l : list pc) : list dict := flat_map infos_of l.

(** The wafer identifiers of the records stored or held. *)
Definition known_ids (cf : config) : list (option pyval) :=
  map (dict_get "wafer_id") (results (ctl cf) ++ produced_infos (threads cf)).

(** [x] is the identifier one of the machines gave to one of the wafers
    it has counted so far. *)
Definition issued (ms : list ManufacturingMachine) (x : option pyval) : Prop :=
  exists i m k,
    nth_error ms i = Some m
    /\ (k <= wafer_counter m)%nat
    /\ x = Some (PStr (wafer_id_of (identity m) k)).

Definition unique_ids (ids : list (string * string)) (cf : config) : Prop :=
  map identity (machines (ctl cf)) = ids
  /\ NoDup (known_ids cf)
  /\ Forall (issued (machines (ctl cf))) (known_ids cf).

(** Every machine and the controller are stopped. *)
Definition stopped (c : Controller) : Prop :=
  ctl_is_running c = false /\ Forall (fun m => is_running m = false) (machines c).

Definition pending (l : list pc) : nat := List.length (produced_infos l).

Definition stamped (d : string) (r : dict) : Prop :=
  dict_get "simulation_date" r = Some (PStr d).

(** The results file, when it holds a JSON list, holds the result list
    as it was at some earlier point. *)
Definition file_behind (c : Controller) : Prop :=
  match results_file c with
  | Whole l => exists rest, results c = (l ++ rest)%list
  | Missing | Broken => True
  end.

(** A thread inside [process_wafer], past the test of [is_running], has
    begun a wafer. *)
Definition begun (p : pc) : nat :=
  match p with
  | Started => 1
  | _ => 0
  end.

Definition started (l : list pc) : nat := list_sum (map begun l).

(** What a stop leaves to happen, between a configuration [cf] and a
    later one [cf']: the machine of a thread numbers and processes at
    most the wafer its thread had begun. *)
Definition finishes_begun (cf cf' : config) : Prop :=
  forall i m p,
    nth_error (machines (ctl cf)) i = Some m ->
    nth_error (threads cf) i = Some p ->
    exists m' p',
      nth_error (machines (ctl cf')) i = Some m'
      /\ nth_error (threads cf') i = Some p'
      /\ (wafer_counter m' + begun p' = wafer_counter m + begun p)%nat
      /\ (processed_wafers m <= processed_wafers m')%nat
      /\ (processed_wafers m' + begun p' <= processed_wafers m + begun p)%nat.

(** A run stopped while thread 0 is inside [process_wafer] and thread 1
    is about to call it: the configuration before the stop, the one
    after an uninterrupted [stop_all_machines], and the one after the
    threads have finished. *)
Definition producing : config :=
  Eval vm_compute in
    match run Fixtures.scorers_55 (Some 5%nat) (turns 0 3 ++ turns 1 2)
            (run_simulation_start (new_controller three_machines) "2025-01-01") with
    | Some cf => cf
    | None => run_simulation_start (new_controller three_machines) "2025-01-01"
    end.

Definition stopped_machines : config :=
  Eval vm_compute in
    match run Fixtures.scorers_55 (Some 5%nat) (stopping 3) producing with
    | Some cf => cf
    | None => producing
    end.

Definition halting_schedule : list action :=
  (turns 0 3 ++ turns 1 2 ++ turns 2 1)%list.

Definition halted : config :=
  Eval vm_compute in
    match run Fixtures.scorers_55 (Some 5%nat) halting_schedule stopped_machines with
    | Some cf => cf
    | None => stopped_machines
    end.

(** *** Escaping *)

Import Report.

(** Undoing [_esc]: the three entities back to their characters. *)
Fixpoint unescape (s : string) : string :=
  match s with
  | EmptyString => EmptyString
  | String a t =>
      if Ascii.eqb a "&" then
        match t with
        | String "a" (String "m" (String "p" (String ";" r))) => String "&" (unescape r)
        | String "l" (String "t" (String ";" r)) => String "<" (unescape r)
        | String "g" (String "t" (String ";" r)) => String ">" (unescape r)
        | _ => String a (unescape t)
        end
      else String a (unescape t)
  end.

Fixpoint occurs (c : ascii) (s : string) : bool :=
  match s with
  | EmptyString => false
  | String a t => Ascii.eqb a c || occurs c t
  end.

(** The text [_esc] works on. *)
Definition text_to_escape (h : host) (v : pyval) : string :=
  match v with
  | PNone => ""
  | _ => format_value h v
  end.

(** What one character becomes. *)
Definition escape_char (a : ascii) : string :=
  if Ascii.eqb a "&" then "&amp;"
  else if Ascii.eqb a "<" then "&lt;"
  else if Ascii.eqb a ">" then "&gt;"
  else String a EmptyString.

Fixpoint escape_all (s : string) : string :=
  match s with
  | EmptyString => EmptyString
  | String a t => escape_char a ++ escape_all t
  end.

(** *** Dates and classes *)

(** The entry of a string key in a dictionary keyed by objects, [d] when
    there is none. *)
Definition get_at {V : Type} (d : V) (k : string) (m : list (pyval * V)) : V :=
  match find (fun kv => key_eqb (fst kv) (PStr k)) m with
  | Some kv => snd kv
  | None => d
  end.

(** A [simulation_date] as the data model has it: absent, [null] or a
    string. *)
Definition date_ok (r : dict) : bool :=
  match dict_get "simulation_date" r with
  | None | Some PNone | Some (PStr _) => true
  | Some _ => false
  end.

(** The records of a date. *)
Definition dated (d : string) (r : dict) : bool :=
  eq_str (dict_get_or "simulation_date" PNone r) d.

Definition date_group (d : string) (l : list dict) : list dict := filter (dated d) l.

(** A defect class as the data model has it: a string (["Unknown"] when
    the record has no prediction or no class). *)
Definition class_is_str (r : dict) : bool :=
  prediction_ok (fun p => is_str (dict_get_or "Defect Class" (PStr "Unknown") p)) r.

Definition class_text (r : dict) : string :=
  match dict_get "prediction" r with
  | Some (PDict p) => text_of (dict_get_or "Defect Class" (PStr "Unknown") p)
  | _ => "Unknown"
  end.

Definition class_group (c : string) (l : list dict) : list dict :=
  filter (fun r => String.eqb (class_text r) c) l.

(** Largest string first. *)
Definition descending_text (l : list string) : Prop :=
  Sorted (fun a b => String.leb b a = true) l.

Definition key_is_date (k : pyval) : bool :=
  match k with
  | PStr s => negb (String.eqb s "")
  | _ => false
  end.

(** A percentage as the data model has it: a number between 0 and 100. *)
Definition percent_value (v : pyval) : bool :=
  match as_number v with
  | Some q => Qle_bool 0 q && Qle_bool q 100
  | None => false
  end.

(** A record whose date is absent, [null] or a string and whose
    percentage (0 when the key is absent, as [get_date_statistics] reads
    it) is one. *)
Definition date_record_ok (r : dict) : bool :=
  date_ok r && percent_value (dict_get_or "defect_percentage" (PNum 0) r).

Definition over_threshold (r : dict) : bool := exceeds DEFECT_PERCENTAGE_THRESHOLD r.

(** What the loop of [get_defect_distribution] keeps true of its
    counts, on classes that are strings. *)
Definition counts_inv (m : list (pyval * Z)) : Prop :=
  NoDup (map fst m)
  /\ Forall (fun k => is_str k = true) (map fst m)
  /\ Forall (fun n => (1 <= n)%Z) (map snd m).

(** What the loop of [get_available_simulation_dates] keeps true of its
    set. *)
Definition dates_inv (members : list pyval) : Prop :=
  NoDup members /\ Forall (fun k => key_is_date k = true) members.

Definition text_leb (a b : pyval) : bool := String.leb (text_of a) (text_of b).

(** *** Counters *)

(** A number that [get_status] reports. *)
Definition status_number (field : string) (m : ManufacturingMachine) : option Q :=
  match dict_get field (get_status m) with
  | Some v => as_number v
  | None => None
  end.

Definition processed_total (ms : list ManufacturingMachine) : nat :=
  list_sum (map processed_wafers ms).

(** No machine has processed more wafers than it has numbered, and the
    records stored or held by a thread are among the processed ones. *)
Definition counters_cover (cf : config) : Prop :=
  Forall (fun m => (processed_wafers m <= wafer_counter m)%nat) (machines (ctl cf))
  /\ (List.length (results (ctl cf)) + pending (threads cf)
      <= processed_total (machines (ctl cf)))%nat.

(** What the loop of [get_date_statistics] keeps true of its table. *)
Definition date_inv (m : list (pyval * date_acc)) : Prop :=
  NoDup (map fst m)
  /\ Forall (fun k => key_is_date k = true) (map fst m)
  /\ Forall (fun s => Forall (fun v => percent_value v = true) (d_defect_percentages s)
                      /\ (1 <= d_total_wafers s)%Z)
            (map snd m).

End Props.

(* ------------------------------------------------------------------ *)
(** ** Facts about dictionaries *)

Module PyFacts.
Import Py.

Lemma dict_get_set_same (k : string) (v : pyval) (d : dict) :
  dict_get k (dict_set k v d) = Some v.
Proof.
  induction d as [|[k' v'] t IH]; simpl.
  - now rewrite String.eqb_refl.
  - destruct (String.eqb k k') eqn:E; simpl; rewrite ?String.eqb_refl; auto.
    now rewrite E.
Qed.

Lemma dict_get_set_other (k k' : string) (v : pyval) (d : dict) :
  String.eqb k k' = false ->
  dict_get k (dict_set k' v d) = dict_get k d.
Proof.
  intros Hne. induction d as [|[k0 v0] t IH]; simpl.
  - now rewrite Hne.
  - destruct (String.eqb k' k0) eqn:E; simpl.
    + apply String.eqb_eq in E. subst k0. now rewrite Hne.
    + destruct (String.eqb k k0); auto.
Qed.

Lemma le_float_gt_float (v : pyval) (t : Q) (b : bool) :
  le_float v t = Ok b -> gt_float v t = Ok (negb b).
Proof.
  unfold le_float, gt_float. destruct (as_number v); [|discriminate].
  intros H. injection H as <-. reflexivity.
Qed.

Lemma le_float_number (v : pyval) (t : Q) (b : bool) :
  le_float v t = Ok b -> exists q, as_number v = Some q /\ b = Qle_bool q t.
Proof.
  unfold le_float. destruct (as_number v) as [q|]; [|discriminate].
  intros H. injection H as <-. now exists q.
Qed.

End PyFacts.

(* ------------------------------------------------------------------ *)
(** ** Manufacturing_Simulation.py: machines and the pass/fail decision *)

Module SimulationFacts.
Import Py Simulation Props PyFacts.

(** C9.  [process_wafer] returns a record exactly when the machine is
    running and the image generation succeeds.  A machine that is not
    running is left as it is (both counters unchanged).  A running machine
    always has its [wafer_counter] incremented, also when the image
    generation fails and [None] is returned; [processed_wafers] is
    incremented only when a record is returned.  Nothing else of the
    machine changes. *)
Theorem process_wafer_counters (m : ManufacturingMachine) (w : world) :
  let m' := fst (process_wafer m w) in
  let r := snd (process_wafer m w) in
  is_some r = is_running m && is_some (requested_image m w)
  /\ (if is_running m then wafer_counter m' = S (wafer_counter m) else m' = m)
  /\ processed_wafers m' =
       (if is_some r then S (processed_wafers m) else processed_wafers m)
  /\ is_running m' = is_running m
  /\ machine_id m' = machine_id m /\ machine_type m' = machine_type m.
Proof.
  unfold process_wafer, requested_image.
  destruct (is_running m) eqn:Hrun; simpl.
  - destruct (generate_image _ _ _ _ _); simpl; rewrite ?Hrun; repeat split.
  - repeat split. assumption.
Qed.

(** The wafer identifiers of one machine can have gaps: a first call
    whose image generation fails uses up number 1, and the next record is
    number 2 while [processed_wafers] is 1. *)
Example wafer_id_gap :
  let failing := {| machine_id := "MECH_01"; machine_type := "Mechanical";
                    image_generator := Fixtures.empty_generator; is_running := true;
                    processed_wafers := 0; wafer_counter := 0;
                    min_interval := 5; max_interval := 8 |} in
  let m1 := fst (process_wafer failing Fixtures.world_ok) in
  let refilled := {| machine_id := machine_id m1; machine_type := machine_type m1;
                     image_generator := Fixtures.generator; is_running := is_running m1;
                     processed_wafers := processed_wafers m1;
                     wafer_counter := wafer_counter m1;
                     min_interval := 5; max_interval := 8 |} in
  snd (process_wafer failing Fixtures.world_ok) = None
  /\ wafer_counter m1 = 1%nat /\ processed_wafers m1 = 0%nat
  /\ option_map (dict_get "wafer_id") (snd (process_wafer refilled Fixtures.world_ok))
     = Some (Some (PStr "Mechanical_MECH_01_W0002"))
  /\ processed_wafers (fst (process_wafer refilled Fixtures.world_ok)) = 1%nat.
Proof. vm_compute. repeat split. Qed.

Example process_wafer_first_record :
  snd (process_wafer Fixtures.mech_01 Fixtures.world_ok) = Some Fixtures.wafer_info_1.
Proof. vm_compute. reflexivity. Qed.

(** C1, as the code has it.  A record built by
    [process_wafer_with_analysis] is of one of two kinds.  When the image
    is not found, it is the raw record with an ["error"] entry added and
    nothing else: no pass/fail decision is made.  When the image is found,
    the stored [defect_percentage] is the very value the decision was made
    on, it is a number [q], and [quality_status] is ["PASS"] exactly when
    [q <= 40] and ["FAIL"] exactly when not. *)
Theorem quality_status_follows_percentage
    (s : scorers) (w : world) (wafer_info r : dict) :
  process_wafer_with_analysis s w wafer_info = Ok r ->
  (image_found w wafer_info = Ok false
   /\ r = dict_set "error" (PStr "Image not found") wafer_info)
  \/
  (image_found w wafer_info = Ok true
   /\ exists q : Q,
        as_number (decision_percentage s (image_path_of wafer_info)) = Some q
        /\ dict_get "defect_percentage" r
           = Some (decision_percentage s (image_path_of wafer_info))
        /\ (dict_get "quality_status" r = Some (PStr "PASS") <-> (q <= 40)%Q)
        /\ (dict_get "quality_status" r = Some (PStr "FAIL") <-> ~ (q <= 40)%Q)).
Proof.
  unfold process_wafer_with_analysis, image_found, image_path_of, decision_percentage.
  set (image_path := dict_get_or "image_path" PNone wafer_info).
  destruct (if truthy image_path then os_path_exists w image_path else Ok false)
    as [found|e] eqn:Hfound; simpl; [|discriminate].
  destruct found; simpl.
  - set (pct := dict_get_or "defect_percentage" (PNum 0) (run_defect_count s image_path)).
    destruct (le_float pct defect_threshold) as [is_pass|e] eqn:Hle; simpl; [|discriminate].
    rewrite (le_float_gt_float _ _ _ Hle). simpl.
    destruct (format_confidence s _) as [conf|e]; simpl; [|discriminate].
    intros H. injection H as <-. right. split; [reflexivity|].
    destruct (le_float_number _ _ _ Hle) as (q & Hq & ->).
    exists q. split; [exact Hq|]. split.
    + rewrite dict_get_set_other by reflexivity. apply dict_get_set_same.
    + rewrite !(dict_get_set_other "quality_status") by reflexivity.
      rewrite dict_get_set_same. unfold defect_threshold.
      destruct (Qle_bool q 40) eqn:Hb.
      * apply Qle_bool_iff in Hb. split; split; intros H; try discriminate; tauto.
      * assert (~ (q <= 40)%Q) by (rewrite <- Qle_bool_iff; congruence).
        split; split; intros H'; try discriminate; tauto.
  - intros H. injection H as <-. left. split; reflexivity.
Qed.

Lemma quality_status_follows_percentage_witness :
  (image_found Fixtures.world_ok Fixtures.wafer_info_1 = Ok false
   /\ analysed_1 = dict_set "error" (PStr "Image not found") Fixtures.wafer_info_1)
  \/
  (image_found Fixtures.world_ok Fixtures.wafer_info_1 = Ok true
   /\ exists q : Q,
        as_number (decision_percentage Fixtures.scorers_55
                     (image_path_of Fixtures.wafer_info_1)) = Some q
        /\ dict_get "defect_percentage" analysed_1
           = Some (decision_percentage Fixtures.scorers_55
                     (image_path_of Fixtures.wafer_info_1))
        /\ (dict_get "quality_status" analysed_1 = Some (PStr "PASS") <-> (q <= 40)%Q)
        /\ (dict_get "quality_status" analysed_1 = Some (PStr "FAIL") <-> ~ (q <= 40)%Q)).
Proof.
  apply (quality_status_follows_percentage Fixtures.scorers_55 Fixtures.world_ok).
  vm_compute. reflexivity.
Defined.

(** C1 as stated fails on the records of the other kind: for a wafer
    whose image file is missing, the record that is built (and that the
    worker then saves) has no [quality_status] at all, neither ["PASS"]
    nor ["FAIL"], and no [defect_percentage]. *)
Lemma record_without_quality_status :
  process_wafer_with_analysis Fixtures.scorers_55 Fixtures.world_image_missing
    Fixtures.wafer_info_1 = Ok not_found_1
  /\ dict_get "quality_status" not_found_1 = None
  /\ dict_get "defect_percentage" not_found_1 = None.
Proof. vm_compute. repeat split. Qed.

End SimulationFacts.

(* ------------------------------------------------------------------ *)
(** ** Rounding and sums *)

Module NumFacts.
Import Py Props.
Local Open Scope Q_scope.

Lemma round_half_even_error (x : Q) :
  (Qabs (inject_Z (round_half_even x) - x) <= 1 # 2)%Q.
Proof.
  unfold round_half_even.
  pose proof (Qfloor_le x) as Hlo.
  pose proof (Qlt_floor x) as Hhi.
  rewrite inject_Z_plus in Hhi. change (inject_Z 1) with 1%Q in Hhi.
  apply Qabs_Qle_condition.
  destruct (x - inject_Z (Qfloor x) ?= 1 # 2)%Q eqn:Hc.
  - apply Qeq_alt in Hc.
    destruct (Z.even (Qfloor x)); rewrite ?inject_Z_plus;
      change (inject_Z 1) with 1%Q; split; lra.
  - apply Qlt_alt in Hc. split; lra.
  - apply Qgt_alt in Hc. rewrite inject_Z_plus.
    change (inject_Z 1) with 1%Q. split; lra.
Qed.

Lemma pow10_pos (n : nat) : (0 < inject_Z (pow10 n))%Q.
Proof.
  unfold pow10. change 0%Q with (inject_Z 0). rewrite <- Zlt_Qlt.
  apply Z.pow_pos_nonneg; lia.
Qed.

(** The decimal rounding to [n] places is within half a unit of the
    last place. *)
Lemma round_decimal_error (x : Q) (n : nat) :
  (Qabs (round_decimal x n - x) <= (1 # 2) / inject_Z (pow10 n))%Q.
Proof.
  unfold round_decimal.
  pose proof (pow10_pos n) as HP.
  set (P := inject_Z (pow10 n)) in *.
  pose proof (round_half_even_error (x * P)) as He.
  set (z := inject_Z (round_half_even (x * P))) in *.
  apply Qabs_Qle_condition in He. apply Qabs_Qle_condition.
  assert (Hinv : (0 < / P)%Q) by now apply Qinv_lt_0_compat.
  assert (Hx : (x == (x * P) * / P)%Q) by (field; lra).
  unfold Qdiv. set (c := (/ P)%Q) in *.
  set (y := (x * P)%Q) in *.
  split; rewrite Hx at 1; nra.
Qed.

Lemma round_decimal_error_2 (x : Q) : (Qabs (round_decimal x 2 - x) <= 1 # 200)%Q.
Proof.
  pose proof (round_decimal_error x 2) as H.
  eapply Qle_trans; [exact H|]. vm_compute. discriminate.
Qed.

Lemma round_decimal_error_4 (x : Q) : (Qabs (round_decimal x 4 - x) <= 1 # 20000)%Q.
Proof.
  pose proof (round_decimal_error x 4) as H.
  eapply Qle_trans; [exact H|]. vm_compute. discriminate.
Qed.

(** *** Powers of two and binades *)

Lemma pow2_pos (k : Z) : 0 < pow2 k.
Proof. apply Qpower_0_lt. reflexivity. Qed.

Lemma pow2_add (a b : Z) : pow2 (a + b) == pow2 a * pow2 b.
Proof. apply Qpower_plus. discriminate. Qed.

Lemma pow2_le (a b : Z) : (a <= b)%Z -> pow2 a <= pow2 b.
Proof. intros H. apply Qpower_le_compat_l; [exact H|discriminate]. Qed.

Lemma pow2_lt_inv (a b : Z) : pow2 a < pow2 b -> (a < b)%Z.
Proof. intros H. apply (Qpower_lt_compat_l_inv 2); [exact H|reflexivity]. Qed.

Lemma pow2_Z (n : Z) : (0 <= n)%Z -> inject_Z (2 ^ n) == pow2 n.
Proof. intros H. now apply Zpower_Qpower. Qed.

Lemma pow2_succ (a : Z) : pow2 (a + 1) == 2 * pow2 a.
Proof. rewrite pow2_add. change (pow2 1) with 2. ring. Qed.

Lemma pow2_pred (a : Z) : pow2 a == 2 * pow2 (a - 1).
Proof. rewrite <- pow2_succ. now replace (a - 1 + 1)%Z with a by lia. Qed.

(** [|q| = a / d] *)
Lemma Qabs_ratio (q : Q) :
  Qabs q * inject_Z (Zpos (Qden q)) == inject_Z (Z.abs (Qnum q)).
Proof.
  destruct q as [n d]. unfold Qabs, Qeq, Qmult, inject_Z. cbn. lia.
Qed.

Lemma log2_bounds (a : Z) :
  (0 < a)%Z ->
  pow2 (Z.log2 a) <= inject_Z a /\ inject_Z a < pow2 (Z.log2 a + 1).
Proof.
  intros Ha. destruct (Z.log2_spec a Ha) as [Hlo Hhi].
  pose proof (Z.log2_nonneg a) as Hn.
  rewrite <- !pow2_Z by lia. rewrite <- Zle_Qle, <- Zlt_Qlt.
  replace (Z.log2 a + 1)%Z with (Z.succ (Z.log2 a)) by lia. now split.
Qed.

Lemma binade_spec (q : Q) :
  ~ q == 0 -> pow2 (binade q) <= Qabs q /\ Qabs q < pow2 (binade q + 1).
Proof.
  intros Hq. unfold binade.
  set (a := Z.abs (Qnum q)). set (d := Zpos (Qden q)).
  assert (Ha : (0 < a)%Z).
  { unfold a. destruct q as [n dd]. unfold Qeq in Hq. cbn in *. lia. }
  assert (Hd : (0 < d)%Z) by reflexivity.
  destruct (log2_bounds a Ha) as [Hal Hah].
  destruct (log2_bounds d Hd) as [Hdl Hdh].
  pose proof (Qabs_ratio q) as Hr. fold a d in Hr.
  pose proof (Qabs_nonneg q) as Hx.
  set (x := Qabs q) in *. set (la := Z.log2 a) in *. set (ld := Z.log2 d) in *.
  assert (HdQ : 0 < inject_Z d) by (change 0 with (inject_Z 0); now rewrite <- Zlt_Qlt).
  pose proof (pow2_pos (la - ld)) as Hp0.
  pose proof (pow2_pos ld) as Hp1.
  assert (E1 : pow2 (la - ld) * pow2 ld == pow2 la).
  { rewrite <- pow2_add. now replace (la - ld + ld)%Z with la by lia. }
  destruct (Qle_bool (pow2 (la - ld)) x) eqn:Ht.
  - apply Qle_bool_iff in Ht. split; [exact Ht|].
    rewrite pow2_succ. rewrite pow2_succ in Hah.
    (* x*d = a < 2*2^la = 2 * P * 2^ld <= 2*P*d *)
    set (P := pow2 (la - ld)) in *. set (D := pow2 ld) in *. set (A := pow2 la) in *.
    set (dq := inject_Z d) in *. set (aq := inject_Z a) in *.
    apply Qnot_le_lt. intros Hc. 
    assert (2 * P * dq <= x * dq) by nra.
    assert (2 * P * D <= 2 * P * dq) by nra.
    lra.
  - assert (Hlt : x < pow2 (la - ld)).
    { apply Qnot_le_lt. intros Hc. apply Qle_bool_iff in Hc. congruence. }
    replace (la - ld - 1 + 1)%Z with (la - ld)%Z by lia. split; [|exact Hlt].
    rewrite pow2_succ in Hdh.
    assert (E2 : 2 * pow2 (la - ld - 1) == pow2 (la - ld)) by (symmetry; apply pow2_pred).
    pose proof (pow2_pos (la - ld - 1)) as Hp2.
    set (P := pow2 (la - ld)) in *. set (P' := pow2 (la - ld - 1)) in *.
    set (D := pow2 ld) in *. set (A := pow2 la) in *.
    set (dq := inject_Z d) in *. set (aq := inject_Z a) in *.
    (* P' * dq < P' * 2 D = P * D = A <= aq = x dq *)
    apply Qnot_lt_le. intros Hc.
    assert (x * dq < P' * dq) by nra.
    assert (P' * dq < P' * (2 * D)) by nra.
    nra.
Qed.

Lemma binade_unique (q : Q) (e : Z) :
  pow2 e <= Qabs q -> Qabs q < pow2 (e + 1) -> binade q = e.
Proof.
  intros Hlo Hhi.
  assert (Hq : ~ q == 0).
  { intros E. rewrite E in Hlo. pose proof (pow2_pos e). cbn in Hlo. lra. }
  destruct (binade_spec q Hq) as [Hlo' Hhi'].
  assert (binade q < e + 1)%Z by (apply pow2_lt_inv; lra).
  assert (e < binade q + 1)%Z by (apply pow2_lt_inv; lra).
  lia.
Qed.

Lemma binade_le (x y : Q) :
  ~ x == 0 -> Qabs x <= Qabs y -> (binade x <= binade y)%Z.
Proof.
  intros Hx Hxy.
  assert (Hy : ~ y == 0).
  { intros E. assert (E' : Qabs y == 0) by (rewrite E; reflexivity).
    apply Hx. assert (H0 : Qabs x <= 0) by lra.
    apply Qabs_Qle_condition in H0. lra. }
  destruct (binade_spec x Hx) as [Hlo _].
  destruct (binade_spec y Hy) as [_ Hhi].
  assert (binade x < binade y + 1)%Z by (apply pow2_lt_inv; lra).
  lia.
Qed.

(** *** Rounding to an integer *)

Lemma round_half_even_cases (x : Q) :
  (round_half_even x = Qfloor x /\ x - inject_Z (Qfloor x) <= 1 # 2)
  \/ (round_half_even x = (Qfloor x + 1)%Z /\ 1 # 2 <= x - inject_Z (Qfloor x)).
Proof.
  unfold round_half_even.
  destruct (x - inject_Z (Qfloor x) ?= 1 # 2)%Q eqn:Hc.
  - apply Qeq_alt in Hc. destruct (Z.even (Qfloor x)); [left|right]; split; auto; lra.
  - apply Qlt_alt in Hc. left. split; auto; lra.
  - apply Qgt_alt in Hc. right. split; auto; lra.
Qed.

Lemma round_half_even_le (x : Q) (n : Z) :
  x <= inject_Z n -> (round_half_even x <= n)%Z.
Proof.
  intros H. pose proof (Qfloor_resp_le _ _ H) as Hf. rewrite Qfloor_Z in Hf.
  destruct (round_half_even_cases x) as [[-> _]|[-> Hr]]; [exact Hf|].
  destruct (Z.eq_dec (Qfloor x) n) as [E|E]; [|lia].
  exfalso. rewrite E in Hr. lra.
Qed.

Lemma round_half_even_ge (x : Q) (n : Z) :
  inject_Z n <= x -> (n <= round_half_even x)%Z.
Proof.
  intros H. pose proof (Qfloor_resp_le _ _ H) as Hf. rewrite Qfloor_Z in Hf.
  destruct (round_half_even_cases x) as [[-> _]|[-> _]]; lia.
Qed.

(** A number less than half above an integer rounds to that integer. *)
Lemma round_half_even_near (x : Q) (n : Z) :
  inject_Z n <= x -> x < inject_Z n + (1 # 2) -> round_half_even x = n.
Proof.
  intros Hlo Hhi.
  assert (Hf : Qfloor x = n).
  { apply Z.le_antisymm.
    - assert (Qfloor x < n + 1)%Z; [|lia].
      rewrite Zlt_Qlt, inject_Z_plus. change (inject_Z 1) with 1.
      pose proof (Qfloor_le x). lra.
    - rewrite <- (Qfloor_Z n). now apply Qfloor_resp_le. }
  destruct (round_half_even_cases x) as [[-> _]|[_ Hr]]; [exact Hf|].
  rewrite Hf in Hr. lra.
Qed.

(** *** The nearest binary64 number *)

Lemma fl_value (q : Q) :
  ~ q == 0 ->
  fl q = inject_Z (round_half_even (q / pow2 (last_place q))) * pow2 (last_place q).
Proof.
  intros H. unfold fl. destruct (Qeq_bool q 0) eqn:E; [|reflexivity].
  apply Qeq_bool_iff in E. contradiction.
Qed.

Lemma fl_zero (q : Q) : q == 0 -> fl q = 0.
Proof. intros E. unfold fl. apply Qeq_bool_iff in E. now rewrite E. Qed.

Lemma round_half_even_eq (x y : Q) :
  x == y -> round_half_even x = round_half_even y.
Proof.
  intros E. unfold round_half_even. cbv zeta.
  rewrite (Qfloor_comp _ _ E).
  assert (Hc : (x - inject_Z (Qfloor y) ?= 1 # 2) = (y - inject_Z (Qfloor y) ?= 1 # 2)).
  { apply Qcompare_comp; [|reflexivity]. now rewrite E. }
  now rewrite Hc.
Qed.

(** [fl] does not depend on how its argument is written. *)
Lemma fl_eq (x y : Q) : x == y -> fl x == fl y.
Proof.
  intros E. destruct (Qeq_dec x 0) as [Hx|Hx].
  - rewrite (fl_zero x Hx), (fl_zero y); [reflexivity|]. now rewrite <- E.
  - assert (Hy : ~ y == 0) by now rewrite <- E.
    assert (Hb : binade y = binade x).
    { apply binade_unique; rewrite <- E; now apply binade_spec. }
    rewrite (fl_value x Hx), (fl_value y Hy). unfold last_place. rewrite Hb.
    rewrite (round_half_even_eq (y / pow2 (Z.max (binade x - 52) (-1074)))
               (x / pow2 (Z.max (binade x - 52) (-1074)))); [reflexivity|].
    apply Qdiv_comp; [now symmetry|reflexivity].
Qed.

Lemma fl_error (q : Q) :
  ~ q == 0 -> Qabs (fl q - q) <= pow2 (last_place q - 1).
Proof.
  intros H. rewrite (fl_value q H).
  set (k := last_place q). pose proof (pow2_pos (k - 1)) as Hk.
  pose proof (round_half_even_error (q / pow2 k)) as He.
  set (z := inject_Z (round_half_even (q / pow2 k))) in *.
  assert (Hq : q == (q / pow2 k) * pow2 k) by (field; pose proof (pow2_pos k); lra).
  set (y := q / pow2 k) in *.
  rewrite (pow2_pred k). rewrite (pow2_pred k) in Hq.
  set (h := pow2 (k - 1)) in *.
  apply Qabs_Qle_condition in He. apply Qabs_Qle_condition.
  setoid_replace (z * (2 * h) - q) with ((z - y) * (2 * h))
    by (rewrite Hq at 1; ring).
  split; nra.
Qed.

Lemma pow2_lt_succ (m : Z) : pow2 m < pow2 (m + 1).
Proof. rewrite pow2_succ. pose proof (pow2_pos m). lra. Qed.

Lemma fl_error_below (q : Q) (m : Z) :
  Qabs q <= pow2 m -> (-1022 <= m)%Z -> Qabs (fl q - q) <= pow2 (m - 53).
Proof.
  intros Hm Hrange. destruct (Qeq_dec q 0) as [E|E].
  - rewrite (fl_zero q E), E. pose proof (pow2_pos (m - 53)). cbn. lra.
  - eapply Qle_trans; [apply (fl_error q E)|]. apply pow2_le.
    destruct (binade_spec q E) as [Hlo _].
    assert (binade q < m + 1)%Z.
    { apply pow2_lt_inv. pose proof (pow2_lt_succ m). lra. }
    unfold last_place. lia.
Qed.

Lemma fl_nonneg (q : Q) : 0 <= q -> 0 <= fl q.
Proof.
  intros H. unfold fl. destruct (Qeq_bool q 0); [lra|].
  pose proof (pow2_pos (last_place q)) as Hk.
  assert (Hz : (0 <= round_half_even (q / pow2 (last_place q)))%Z).
  { apply round_half_even_ge. change (inject_Z 0) with 0.
    apply Qle_shift_div_l; lra. }
  rewrite Zle_Qle in Hz. change (inject_Z 0) with 0 in Hz. nra.
Qed.

(** Rounding does not pass a binary64 number. *)
Lemma fl_le_bound (x y : Q) :
  0 <= x -> x <= y -> fl y == y -> fl x <= y.
Proof.
  intros Hx Hxy Hy. destruct (Qeq_dec x 0) as [E|E].
  - rewrite (fl_zero x E). lra.
  - assert (Ey : ~ y == 0) by lra.
    rewrite (fl_value x E). rewrite (fl_value y Ey) in Hy.
    assert (Hb : (binade x <= binade y)%Z).
    { apply binade_le; [exact E|]. rewrite !Qabs_pos by lra. exact Hxy. }
    set (kx := last_place x) in *. set (ky := last_place y) in *.
    assert (Hk : (kx <= ky)%Z) by (unfold kx, ky, last_place; lia).
    set (M := round_half_even (y / pow2 ky)) in *.
    pose proof (pow2_pos kx) as Hpx. pose proof (pow2_pos ky) as Hpy.
    assert (Hsplit : pow2 ky == inject_Z (2 ^ (ky - kx)) * pow2 kx).
    { rewrite pow2_Z by lia. rewrite <- pow2_add.
      now replace (ky - kx + kx)%Z with ky by lia. }
    assert (Hyq : y / pow2 kx == inject_Z (M * 2 ^ (ky - kx))).
    { rewrite inject_Z_mult. rewrite <- Hy at 1. rewrite Hsplit. field. lra. }
    assert (Hle : (round_half_even (x / pow2 kx) <= M * 2 ^ (ky - kx))%Z).
    { apply round_half_even_le. rewrite <- Hyq.
      apply Qle_shift_div_l; [lra|].
      setoid_replace (x / pow2 kx * pow2 kx) with x by (field; lra). exact Hxy. }
    rewrite Zle_Qle in Hle. rewrite <- Hyq in Hle.
    assert (Hy' : y == y / pow2 kx * pow2 kx) by (field; lra).
    rewrite Hy'. set (u := y / pow2 kx) in *.
    set (v := inject_Z (round_half_even (x / pow2 kx))) in *. nra.
Qed.

Lemma fl_sum_cap : fl sum_cap == sum_cap.
Proof. vm_compute. reflexivity. Qed.

(** Past [2^61] an addend of at most 100 is absorbed. *)
Lemma fl_cap (z : Q) : 0 <= z -> z <= sum_cap + 100 -> fl z <= sum_cap.
Proof.
  intros H0 Hz. destruct (Qlt_le_dec sum_cap z) as [Hbig|Hsmall].
  - assert (Hcap : sum_cap == 2305843009213693952) by (vm_compute; reflexivity).
    assert (Hb : binade z = 61%Z).
    { apply binade_unique; rewrite Qabs_pos by lra.
      - change (pow2 61) with sum_cap. lra.
      - assert (E : pow2 (61 + 1) == 4611686018427387904) by (vm_compute; reflexivity).
        rewrite E. lra. }
    assert (Hz0 : ~ z == 0) by lra.
    rewrite (fl_value z Hz0). unfold last_place. rewrite Hb.
    change (Z.max (61 - 52) (-1074)) with 9%Z.
    assert (E9 : pow2 9 == 512) by (vm_compute; reflexivity).
    assert (Hr : round_half_even (z / pow2 9) = 4503599627370496%Z).
    { apply round_half_even_near.
      - apply Qle_shift_div_l; [rewrite E9; lra|]. rewrite E9.
        change (inject_Z 4503599627370496 * 512) with (2305843009213693952 * 1). lra.
      - apply Qlt_shift_div_r; [rewrite E9; lra|]. rewrite E9.
        assert ((inject_Z 4503599627370496 + (1 # 2)) * 512 == 2305843009213693952 + 256)
          by (vm_compute; reflexivity).
        lra. }
    rewrite Hr, E9, Hcap. vm_compute. discriminate.
  - apply fl_le_bound; [exact H0|exact Hsmall|apply fl_sum_cap].
Qed.

End NumFacts.

(* ------------------------------------------------------------------ *)
(** ** Data_Aggregator.py: summary statistics *)

Module SummaryFacts.
Import Py Aggregator Props PyFacts NumFacts.

Local Open Scope Q_scope.

Lemma sum_from_numbers (l : list pyval) (qs : list Q) (acc : Q) :
  map as_number l = map Some qs ->
  sum_from acc l = Ok (float_sum_from acc qs).
Proof.
  revert qs acc. induction l as [|v t IH]; intros [|q qs] acc H;
    cbn [map sum_from float_sum_from fold_left] in *; try discriminate; auto.
  injection H as Hv Ht. rewrite Hv. now apply IH.
Qed.

(** The sum of floats between 0 and 100 stays between 0 and [2^61],
    however many they are. *)
Lemma float_sum_bounded (qs : list Q) (acc : Q) :
  Forall (fun q => 0 <= q /\ q <= 100) qs ->
  0 <= acc -> acc <= sum_cap ->
  0 <= float_sum_from acc qs /\ float_sum_from acc qs <= sum_cap.
Proof.
  intros H. revert acc. induction H as [|q t [Hq0 Hq1] _ IH]; intros acc H0 H1;
    cbn [float_sum_from fold_left].
  - now split.
  - apply IH.
    + apply fl_nonneg. lra.
    + apply fl_cap; lra.
Qed.

Lemma sum_cap_in_range : sum_cap <= max_float.
Proof. vm_compute. discriminate. Qed.

Lemma to_float_bounded (q : Q) :
  0 <= q -> q <= sum_cap -> to_float q = Ok (fl q).
Proof.
  intros H0 H1. unfold to_float.
  pose proof (fl_nonneg q H0) as Hlo.
  pose proof (fl_le_bound q sum_cap H0 H1 fl_sum_cap) as Hhi.
  pose proof sum_cap_in_range as Hmax.
  assert (Hle : Qle_bool (Qabs (fl q)) max_float = true).
  { apply Qle_bool_iff. rewrite Qabs_pos by exact Hlo. lra. }
  now rewrite Hle.
Qed.

Lemma mean_or_zero_numbers (l : list pyval) (qs : list Q) :
  map as_number l = map Some qs ->
  Forall (fun q => 0 <= q /\ q <= 100) qs ->
  mean_or_zero l = Ok (float_mean qs).
Proof.
  intros H Hrange. assert (Hlen : List.length l = List.length qs).
  { rewrite <- (length_map as_number l), H. apply length_map. }
  destruct l as [|v t], qs as [|q qs]; try discriminate; auto.
  unfold mean_or_zero, sum, float_mean, float_sum.
  rewrite Hlen, (sum_from_numbers _ _ _ H). cbn [bind].
  set (n := inject_Z (Z.of_nat (List.length (q :: qs)))).
  assert (Hn : 1 <= n).
  { unfold n. change 1 with (inject_Z 1). rewrite <- Zle_Qle.
    cbn [List.length]. lia. }
  assert (Hcap : 0 <= sum_cap) by (vm_compute; discriminate).
  destruct (float_sum_bounded (q :: qs) 0 Hrange) as [Hs0 Hs1]; [lra|exact Hcap|].
  set (s := float_sum_from 0 (q :: qs)) in *.
  apply to_float_bounded.
  - apply Qle_shift_div_l; lra.
  - apply Qle_shift_div_r; [lra|]. nra.
Qed.

(** *** Rates *)

Lemma fl_1 : fl 1 == 1.
Proof. vm_compute. reflexivity. Qed.

Lemma fl_100 : fl 100 == 100.
Proof. vm_compute. reflexivity. Qed.

Lemma share_bounds (c n : Z) :
  (0 <= c <= n)%Z -> (0 < n)%Z ->
  0 <= inject_Z c / inject_Z n /\ inject_Z c / inject_Z n <= 1.
Proof.
  intros Hc Hn.
  assert (Hn' : 0 < inject_Z n) by (change 0 with (inject_Z 0); now rewrite <- Zlt_Qlt).
  assert (Hc0 : 0 <= inject_Z c) by (change 0 with (inject_Z 0); rewrite <- Zle_Qle; lia).
  assert (Hcn : inject_Z c <= inject_Z n) by (rewrite <- Zle_Qle; lia).
  split.
  - apply Qle_shift_div_l; lra.
  - apply Qle_shift_div_r; lra.
Qed.

(** A rate is a percentage, within [2^-45] of the exact quotient. *)
Lemma percent_of_bounds (c n : Z) :
  (0 <= c <= n)%Z -> (0 < n)%Z ->
  0 <= percent_of c n /\ percent_of c n <= 100
  /\ Qabs (percent_of c n - inject_Z c / inject_Z n * 100) <= rate_slack.
Proof.
  intros Hc Hn. destruct (share_bounds c n Hc Hn) as [Hs0 Hs1].
  unfold percent_of. set (s := inject_Z c / inject_Z n) in *.
  pose proof (fl_nonneg s Hs0) as Ha0.
  pose proof (fl_le_bound s 1 Hs0 Hs1 fl_1) as Ha1.
  assert (He1 : Qabs (fl s - s) <= pow2 (0 - 53)).
  { apply fl_error_below; [|lia]. rewrite Qabs_pos by exact Hs0. exact Hs1. }
  set (a := fl s) in *.
  assert (Ht0 : 0 <= a * 100) by lra.
  assert (Ht1 : a * 100 <= 100) by lra.
  pose proof (fl_nonneg _ Ht0) as Hb0.
  pose proof (fl_le_bound _ 100 Ht0 Ht1 fl_100) as Hb1.
  assert (He2 : Qabs (fl (a * 100) - a * 100) <= pow2 (7 - 53)).
  { apply fl_error_below; [|lia]. rewrite Qabs_pos by exact Ht0.
    assert (E : pow2 7 == 128) by (vm_compute; reflexivity). rewrite E. lra. }
  split; [exact Hb0|]. split; [exact Hb1|].
  assert (E1 : pow2 (0 - 53) == 1 # 9007199254740992) by (vm_compute; reflexivity).
  assert (E2 : pow2 (7 - 53) == 1 # 70368744177664) by (vm_compute; reflexivity).
  assert (E3 : rate_slack == 1 # 35184372088832) by (vm_compute; reflexivity).
  rewrite E1 in He1. rewrite E2 in He2. rewrite E3.
  apply Qabs_Qle_condition in He1. apply Qabs_Qle_condition in He2.
  apply Qabs_Qle_condition. set (b := fl (a * 100)) in *. split; lra.
Qed.






Lemma filter_split_length {A : Type} (f : A -> bool) (l : list A) :
  (List.length (filter f l) + List.length (filter (fun x => negb (f x)) l)
   = List.length l)%nat.
Proof.
  induction l as [|x t IH]; simpl; auto.
  destruct (f x); simpl; lia.
Qed.

(** A record passes exactly when its [quality_status] is the string
    ["PASS"]; a missing key, [null] and any other value do not. *)
Lemma is_pass_exactly (r : dict) :
  is_pass r = true <-> dict_get "quality_status" r = Some (PStr "PASS").
Proof.
  unfold is_pass, dict_get_or, eq_str.
  destruct (dict_get "quality_status" r) as [[| | |s| |]|]; split;
    try discriminate; intros H.
  - apply String.eqb_eq in H. now subst.
  - injection H as ->. reflexivity.
Qed.

Lemma count_pass_bounds (l : list dict) :
  (0 <= count_pass l <= Z.of_nat (List.length l))%Z.
Proof. unfold count_pass. pose proof (filter_length_le is_pass l). lia. Qed.







(** On three records with the percentages 0.01, 0.02 and none, one of
    them a pass, Python's floats give the mean 0.015 (just below it) and
    the average 0.01, and the rates 33.33333333333333 and
    66.66666666666666, whose sum is not 100. *)
Example summary_statistics_in_floats :
  exists st : statistics,
    get_summary_statistics Fixtures.loaded_floats = Ok (Statistics st)
    /\ average_defect_percentage st = fl (1 # 100)
    /\ Qred (pass_rate st) = 2345624805922133 # 70368744177664
    /\ Qred (fail_rate st) = 2345624805922133 # 35184372088832
    /\ Qred (100 - (pass_rate st + fail_rate st)) = 1 # 70368744177664.
Proof. eexists. split; [vm_compute; reflexivity|]. repeat split; vm_compute; reflexivity. Qed.

(** A JSON integer too large for a float makes the mean raise. *)
Example summary_statistics_overflow :
  get_summary_statistics
    {| data := [ [ ("defect_percentage", PNum (inject_Z (10 ^ 400))) ];
                 [ ("defect_percentage", PNum 1) ] ];
       df := None |}
  = Raise OverflowError.
Proof. vm_compute. reflexivity. Qed.

End SummaryFacts.

(* ------------------------------------------------------------------ *)
(** ** Data_Aggregator.py: anomalies *)

Module AnomalyFacts.
Import Py Aggregator Props PyFacts.

Section StableSort.
Context {A : Type} (key : A -> Q).

Lemma insert_desc_perm (x : A) (l : list A) :
  Permutation (insert_desc key x l) (x :: l).
Proof.
  induction l as [|y t IH]; simpl; auto.
  destruct (Qle_bool (key y) (key x)); auto.
  rewrite IH. apply perm_swap.
Qed.

Lemma sort_desc_perm (l : list A) : Permutation (sort_desc key l) l.
Proof.
  induction l as [|x t IH]; simpl; auto.
  rewrite insert_desc_perm. now constructor.
Qed.

Lemma insert_desc_hd (x y : A) (l : list A) :
  before key y x -> HdRel (before key) y l -> HdRel (before key) y (insert_desc key x l).
Proof.
  intros Hyx Hl. destruct l as [|z t]; simpl.
  - now constructor.
  - destruct (Qle_bool (key z) (key x)); constructor; auto.
    now inversion Hl.
Qed.

Lemma insert_desc_sorted (x : A) (l : list A) :
  Sorted (before key) l -> Sorted (before key) (insert_desc key x l).
Proof.
  induction 1 as [|y t Ht IH Hhd]; simpl.
  - repeat constructor.
  - destruct (Qle_bool (key y) (key x)) eqn:E.
    + apply Qle_bool_iff in E. repeat constructor; auto.
    + constructor; auto. apply insert_desc_hd; auto.
      unfold before.
      assert (~ (key y <= key x)%Q) by (rewrite <- Qle_bool_iff; congruence).
      apply Qlt_le_weak. now apply Qnot_le_lt.
Qed.

Lemma sort_desc_sorted (l : list A) : Sorted (before key) (sort_desc key l).
Proof.
  induction l as [|x t IH]; simpl.
  - constructor.
  - now apply insert_desc_sorted.
Qed.

(** Inserting [x] moves it only past records with a strictly larger
    key, so the records that share a key keep their order. *)
Lemma insert_desc_stable (q : Q) (x : A) (l : list A) :
  filter (fun y => Qeq_bool (key y) q) (insert_desc key x l)
  = filter (fun y => Qeq_bool (key y) q) (x :: l).
Proof.
  induction l as [|y t IH]; simpl; auto.
  destruct (Qle_bool (key y) (key x)) eqn:E; simpl; auto.
  simpl in IH. rewrite IH.
  destruct (Qeq_bool (key x) q) eqn:Ex; auto.
  destruct (Qeq_bool (key y) q) eqn:Ey; auto.
  exfalso. apply Qeq_bool_iff in Ex, Ey.
  assert (Hle : (key y <= key x)%Q) by (rewrite Ex, Ey; apply Qle_refl).
  apply Qle_bool_iff in Hle. congruence.
Qed.

Lemma sort_desc_stable (q : Q) (l : list A) :
  filter (fun y => Qeq_bool (key y) q) (sort_desc key l)
  = filter (fun y => Qeq_bool (key y) q) l.
Proof.
  induction l as [|x t IH]; simpl; auto.
  rewrite insert_desc_stable. simpl. now rewrite IH.
Qed.
End StableSort.

Lemma exceeding_filter (t : Q) (l : list dict) :
  Forall (fun r => percentage_readable r = true) l ->
  exceeding t l = Ok (filter (exceeds t) l).
Proof.
  induction 1 as [|r rest Hr _ IH]; simpl; auto.
  unfold percentage_readable in Hr. unfold gt_float, exceeds, percentage_key.
  destruct (as_number (dict_get_or "defect_percentage" (PNum 0) r)) as [q|];
    [|discriminate].
  cbn [bind]. rewrite IH. reflexivity.
Qed.

Lemma exceeds_iff (t : Q) (r : dict) :
  exceeds t r = true <-> (t < percentage_key r)%Q.
Proof.
  unfold exceeds. rewrite negb_true_iff. split.
  - intros H. apply Qnot_le_lt. rewrite <- Qle_bool_iff. congruence.
  - intros H. destruct (Qle_bool (percentage_key r) t) eqn:E; auto.
    apply Qle_bool_iff in E. exfalso. eapply Qlt_not_le; eauto.
Qed.

Lemma filter_none {A : Type} (f : A -> bool) (l : list A) :
  (forall x, In x l -> f x = false) -> filter f l = [].
Proof.
  induction l as [|x t IH]; simpl; intros H; auto.
  rewrite (H x (or_introl eq_refl)). apply IH. intros y Hy. apply H. now right.
Qed.

(** C5.  On a data set whose records have a numeric [defect_percentage]
    (a record without the key reads as 0), [get_anomalies t] returns the
    records whose percentage is strictly greater than [t], each as often as
    it is loaded, largest percentage first, records of equal percentage in
    the order they were loaded.  When no percentage exceeds [t] (for
    instance [t = 100] on data whose largest percentage is 95) the result
    is the empty list. *)
Theorem anomalies_sorted_stable (a : DataAggregator) (t : Q) :
  Forall (fun r => percentage_readable r = true) (data a) ->
  exists l : list dict,
    get_anomalies a t = Ok l
    /\ Permutation l (filter (exceeds t) (data a))
    /\ (forall r, In r l <-> In r (data a) /\ (t < percentage_key r)%Q)
    /\ descending l
    /\ (forall q, filter (same_percentage q) l
                  = filter (same_percentage q) (filter (exceeds t) (data a)))
    /\ ((forall r, In r (data a) -> (percentage_key r <= t)%Q) -> l = []).
Proof.
  intros Hok. unfold get_anomalies.
  assert (Hdata : match data a with
                  | [] => Ok []
                  | _ :: _ => anomalies <- exceeding t (data a) ;;
                              Ok (sort_desc percentage_key anomalies)
                  end = Ok (sort_desc percentage_key (filter (exceeds t) (data a)))).
  { destruct (data a) as [|r0 rest] eqn:E; [reflexivity|].
    now rewrite (exceeding_filter t _ Hok). }
  rewrite Hdata. eexists. split; [reflexivity|].
  pose proof (sort_desc_perm percentage_key (filter (exceeds t) (data a))) as Hperm.
  split; [exact Hperm|]. split; [|split; [|split]].
  - intros r. rewrite <- exceeds_iff, <- filter_In. split; intros H.
    + eapply Permutation_in; eauto.
    + eapply Permutation_in; [apply Permutation_sym|]; eauto.
  - apply sort_desc_sorted.
  - intros q. apply sort_desc_stable.
  - intros Hle. rewrite filter_none; [reflexivity|].
    intros r Hr. destruct (exceeds t r) eqn:E; auto.
    apply exceeds_iff in E. exfalso. eapply Qlt_not_le; eauto.
Qed.

Lemma anomalies_sorted_stable_witness :
  exists l : list dict,
    get_anomalies Fixtures.loaded_batch 40 = Ok l
    /\ Permutation l (filter (exceeds 40) Fixtures.batch)
    /\ descending l
    /\ filter (same_percentage 55) l
       = filter (same_percentage 55) (filter (exceeds 40) Fixtures.batch).
Proof.
  assert (Hok : Forall (fun r => percentage_readable r = true)
                  (data Fixtures.loaded_batch)) by (repeat constructor).
  destruct (anomalies_sorted_stable Fixtures.loaded_batch 40 Hok)
    as (l & Hl & Hperm & _ & Hdesc & Hstable & _).
  exists l. repeat split; try assumption. apply Hstable.
Defined.

(** The batch: the anomalies above 40 are the four records at 55 %, in
    the order they were loaded; above 100 there is none. *)
Example anomalies_of_batch :
  option_map (map (dict_get "wafer_id"))
    (match get_anomalies Fixtures.loaded_batch 40 with
     | Ok l => Some l
     | Raise _ => None
     end)
  = Some [ Some (PStr "W0007"); Some (PStr "W0008"); Some (PStr "W0009");
           Some (PStr "W0010") ]
  /\ get_anomalies Fixtures.loaded_batch 100 = Ok [].
Proof. split; vm_compute; reflexivity. Qed.

End AnomalyFacts.

(* ------------------------------------------------------------------ *)
(** ** Data_Aggregator.py: defect class distribution *)

Module DistributionFacts.
Import Py Aggregator Props PyFacts NumFacts.

Lemma fold_add_shift (l : list Z) (acc : Z) :
  fold_left Z.add l acc = (acc + fold_left Z.add l 0)%Z.
Proof.
  revert acc. induction l as [|x t IH]; intros acc; simpl; [lia|].
  rewrite (IH (acc + x)%Z), (IH x). lia.
Qed.

Lemma sum_values_cons (k : pyval) (v : Z) (m : list (pyval * Z)) :
  sum_values ((k, v) :: m) = (v + sum_values m)%Z.
Proof. unfold sum_values. simpl. now rewrite fold_add_shift. Qed.

Lemma count_key_sum (k : pyval) (m : list (pyval * Z)) :
  sum_values (update key_eqb k 0%Z Z.succ m) = (sum_values m + 1)%Z.
Proof.
  induction m as [|[k' v] t IH]; simpl.
  - reflexivity.
  - destruct (key_eqb k' k); rewrite !sum_values_cons; [|rewrite IH]; lia.
Qed.

Lemma class_ok_hashable (r : dict) :
  class_ok r = true ->
  exists c, defect_class_of r = Ok c /\ hashable c = true.
Proof.
  unfold class_ok, prediction_ok, defect_class_of, prediction_of. intros H.
  destruct (dict_get "prediction" r) as [v|].
  - destruct v as [| | | | |p]; try discriminate. cbn [bind]. eauto.
  - cbn [bind]. eauto.
Qed.

Lemma count_classes_total (l : list dict) (m : list (pyval * Z)) :
  Forall (fun r => class_ok r = true) l ->
  exists m', count_classes m l = Ok m'
             /\ sum_values m' = (sum_values m + Z.of_nat (List.length l))%Z.
Proof.
  intros H. revert m. induction H as [|r t Hr _ IH]; intros m.
  - exists m. split; [reflexivity|]. simpl. lia.
  - cbn [count_classes]. destruct (class_ok_hashable r Hr) as (c & -> & Hc).
    cbn [bind]. unfold count_key. rewrite Hc. cbn [bind].
    destruct (IH (update key_eqb c 0%Z Z.succ m)) as (m' & -> & Hsum).
    exists m'. split; [reflexivity|].
    rewrite Hsum, count_key_sum. cbn [List.length]. lia.
Qed.

Lemma Qsum_shift (l : list Q) (acc : Q) :
  (fold_left Qplus l acc == acc + fold_left Qplus l 0)%Q.
Proof.
  revert acc. induction l as [|x t IH]; intros acc; simpl; [ring|].
  rewrite (IH (acc + x)%Q), (IH (0 + x)%Q). ring.
Qed.

Lemma Qsum_cons (x : Q) (l : list Q) : (Qsum (x :: l) == x + Qsum l)%Q.
Proof. unfold Qsum. simpl. rewrite Qsum_shift. ring. Qed.

(** Two lists of numbers that are close term by term have close sums. *)
Lemma close_sums {A : Type} (f g : A -> Q) (eps : Q) (l : list A) :
  (forall x, In x l -> Qabs (f x - g x) <= eps)%Q ->
  (Qabs (Qsum (map f l) - Qsum (map g l))
   <= inject_Z (Z.of_nat (List.length l)) * eps)%Q.
Proof.
  intros H. apply Qabs_Qle_condition.
  induction l as [|x t IH]; cbn [map List.length].
  - unfold Qsum. simpl. split; vm_compute; discriminate.
  - rewrite !Qsum_cons, Nat2Z.inj_succ. unfold Z.succ.
    rewrite inject_Z_plus. change (inject_Z 1) with 1%Q.
    pose proof (H x (or_introl eq_refl)) as Hx. apply Qabs_Qle_condition in Hx.
    destruct IH as [IH1 IH2]; [intros y Hy; apply H; now right|].
    split; lra.
Qed.

Lemma shares_sum (total : Q) (m : list (pyval * Z)) :
  (Qsum (map (fun kv => inject_Z (snd kv) / total * 100) m)
   == inject_Z (sum_values m) / total * 100)%Q.
Proof.
  induction m as [|[k v] t IH]; cbn [map].
  - unfold Qsum, sum_values, Qdiv. simpl. ring.
  - rewrite Qsum_cons, IH, sum_values_cons, inject_Z_plus. cbn [snd].
    unfold Qdiv. ring.
Qed.

(** A count is at most the sum of the counts, when none is negative. *)
Lemma count_le_sum (m : list (pyval * Z)) (k : pyval) (v : Z) :
  Forall (fun n => (1 <= n)%Z) (map snd m) -> In (k, v) m ->
  (v <= sum_values m)%Z /\ (0 <= sum_values m)%Z.
Proof.
  induction m as [|[k' v'] t IH]; intros Hpos Hin; [destruct Hin|].
  cbn [map snd] in Hpos. inversion Hpos as [|? ? Hv Ht]; subst.
  rewrite sum_values_cons.
  assert (Hsum : (0 <= sum_values t)%Z).
  { clear -Ht. induction t as [|[k0 v0] t IH]; [unfold sum_values; simpl; lia|].
    cbn [map snd] in Ht. inversion Ht; subst. rewrite sum_values_cons.
    specialize (IH H2). lia. }
  destruct Hin as [E|Hin].
  - injection E as -> ->. lia.
  - destruct (IH Ht Hin). lia.
Qed.

(** A share of the total, rounded to 2 decimals, is the float of a number
    of 2 decimals between 0 and 100, within half a hundredth (and what
    three rounded operations add) of the exact share. *)
Lemma rounded_percent (c n : Z) :
  (0 <= c <= n)%Z -> (0 < n)%Z ->
  (exists d : Z, round (percent_of c n) 2 = fl (inject_Z d / inject_Z 100)
                 /\ (0 <= d <= 10000)%Z)
  /\ (Qabs (round (percent_of c n) 2 - inject_Z c / inject_Z n * 100)
      <= percentage_slack)%Q.
Proof.
  intros Hc Hn. destruct (SummaryFacts.percent_of_bounds c n Hc Hn) as (Hb0 & Hb1 & Hbe).
  set (b := percent_of c n) in *. split.
  - exists (round_half_even (b * inject_Z (pow10 2))). split; [reflexivity|].
    change (inject_Z (pow10 2)) with 100%Q. split.
    + apply round_half_even_ge. change (inject_Z 0) with 0%Q. lra.
    + apply round_half_even_le. change (inject_Z 10000) with 10000%Q. lra.
  - unfold round. pose proof (round_decimal_error_2 b) as Hr.
    set (r := round_decimal b 2) in *.
    apply Qabs_Qle_condition in Hr.
    assert (He : (Qabs (fl r - r) <= pow2 (7 - 53))%Q).
    { apply fl_error_below; [|lia].
      assert (E : (pow2 7 == 128)%Q) by (vm_compute; reflexivity). rewrite E.
      apply Qabs_Qle_condition. split; lra. }
    assert (E2 : (pow2 (7 - 53) == 1 # 70368744177664)%Q) by (vm_compute; reflexivity).
    assert (E3 : (rate_slack == 1 # 35184372088832)%Q) by (vm_compute; reflexivity).
    assert (E4 : (percentage_slack == (1 # 200) + (1 # 17592186044416))%Q)
      by (vm_compute; reflexivity).
    rewrite E2 in He. rewrite E3 in Hbe. rewrite E4.
    apply Qabs_Qle_condition in He. apply Qabs_Qle_condition in Hbe.
    apply Qabs_Qle_condition. set (p := fl r) in *. split; lra.
Qed.

End DistributionFacts.

(* ------------------------------------------------------------------ *)
(** ** Data_Aggregator.py: pass and fail counts *)

Module CountFacts.
Import Py Aggregator Props PyFacts SummaryFacts.

Lemma get_acc_cons (k k' : string) (v : machine_acc)
    (t : list (string * machine_acc)) :
  get_acc k ((k', v) :: t) = if String.eqb k' k then v else get_acc k t.
Proof. unfold get_acc. simpl. destruct (String.eqb k' k); reflexivity. Qed.

Lemma get_acc_update (k key : string) (f : machine_acc -> machine_acc)
    (m : list (string * machine_acc)) :
  get_acc k (update String.eqb key machine_acc_default f m)
  = if String.eqb key k then f (get_acc key m) else get_acc k m.
Proof.
  induction m as [|[k' v] t IH]; cbn [update].
  - rewrite get_acc_cons. reflexivity.
  - destruct (String.eqb k' key) eqn:E1; rewrite !get_acc_cons.
    + rewrite E1. apply String.eqb_eq in E1. subst k'.
      destruct (String.eqb key k); reflexivity.
    + rewrite IH, E1.
      destruct (String.eqb k' k) eqn:E2, (String.eqb key k) eqn:E3;
        try reflexivity.
      apply String.eqb_eq in E2, E3. subst. now rewrite String.eqb_refl in E1.
Qed.

Lemma update_keys {V : Type} (key : string) (d : V) (f : V -> V)
    (m : list (string * V)) (x : string) :
  In x (map fst (update String.eqb key d f m)) -> x = key \/ In x (map fst m).
Proof.
  induction m as [|[k' v] t IH]; simpl.
  - intros [H|[]]; auto.
  - destruct (String.eqb k' key); simpl; intros [H|H]; auto.
    destruct (IH H); auto.
Qed.

Lemma update_NoDup {V : Type} (key : string) (d : V) (f : V -> V)
    (m : list (string * V)) :
  NoDup (map fst m) -> NoDup (map fst (update String.eqb key d f m)).
Proof.
  induction m as [|[k' v] t IH]; simpl; intros H.
  - repeat constructor. intros [].
  - inversion H as [|? ? Hnotin Ht]; subst.
    destruct (String.eqb k' key) eqn:E; simpl.
    + now constructor.
    + constructor; auto. intros Hin. apply update_keys in Hin as [->|Hin]; auto.
      now rewrite String.eqb_refl in E.
Qed.

Lemma get_acc_In (k : string) (acc : machine_acc) (m : list (string * machine_acc)) :
  NoDup (map fst m) -> In (k, acc) m -> get_acc k m = acc.
Proof.
  induction m as [|[k' v] t IH]; intros Hnd Hin; [destruct Hin|].
  rewrite get_acc_cons. cbn [map fst] in Hnd.
  inversion Hnd as [|? ? Hnotin Ht]; subst. destruct Hin as [H|H].
  - injection H as -> ->. now rewrite String.eqb_refl.
  - destruct (String.eqb k' k) eqn:E; auto.
    apply String.eqb_eq in E. subst k'. exfalso. apply Hnotin.
    now apply (in_map fst) in H.
Qed.

Lemma get_acc_found (k : string) (m : list (string * machine_acc)) :
  get_acc k m <> machine_acc_default -> In (k, get_acc k m) m.
Proof.
  induction m as [|[k' v] t IH]; intros H.
  - now contradiction H.
  - rewrite get_acc_cons in *. destruct (String.eqb k' k) eqn:E.
    + apply String.eqb_eq in E. subst. now left.
    + right. auto.
Qed.

(** What one record adds to the accumulators. *)
Lemma machine_step_tally (h : host) (m m' : list (string * machine_acc)) (r : dict) :
  machine_step h m r = Ok m' ->
  NoDup (map fst m) ->
  NoDup (map fst m')
  /\ forall k,
       let mine := String.eqb (machine_key h r) k in
       acc_total (get_acc k m') = (acc_total (get_acc k m) + bump mine)%Z
       /\ acc_pass (get_acc k m') = (acc_pass (get_acc k m) + bump (mine && is_pass r))%Z
       /\ acc_fail (get_acc k m') = (acc_fail (get_acc k m) + bump (mine && is_fail r))%Z.
Proof.
  unfold machine_step. intros H Hnd.
  destruct (defect_class_of r) as [c|e]; cbn [bind] in H; [|discriminate].
  destruct (count_key c _) as [classes|e]; cbn [bind] in H; [|discriminate].
  injection H as <-. split; [now apply update_NoDup|].
  intros k. rewrite get_acc_update. unfold is_fail.
  destruct (String.eqb (machine_key h r) k) eqn:E; cbn [andb bump].
  - apply String.eqb_eq in E. subst k. cbn [acc_total acc_pass acc_fail].
    destruct (is_pass r); cbn [negb bump]; repeat split; lia.
  - repeat split; lia.
Qed.

Lemma machine_loop_tally (h : host) (l : list dict)
    (m m' : list (string * machine_acc)) :
  machine_loop h m l = Ok m' ->
  NoDup (map fst m) ->
  NoDup (map fst m')
  /\ forall k,
       acc_total (get_acc k m')
       = (acc_total (get_acc k m) + how_many (fun _ => true) (machine_group h k l))%Z
       /\ acc_pass (get_acc k m')
          = (acc_pass (get_acc k m) + how_many is_pass (machine_group h k l))%Z
       /\ acc_fail (get_acc k m')
          = (acc_fail (get_acc k m) + how_many is_fail (machine_group h k l))%Z.
Proof.
  revert m. induction l as [|r t IH]; intros m H Hnd; cbn [machine_loop] in H.
  - injection H as <-. split; auto. intros k. unfold how_many. simpl.
    repeat split; lia.
  - destruct (machine_step h m r) as [m1|e] eqn:Hstep; cbn [bind] in H; [|discriminate].
    destruct (machine_step_tally _ _ _ _ Hstep Hnd) as [Hnd1 Hone].
    destruct (IH _ H Hnd1) as [Hnd' Hrest]. split; auto.
    intros k. destruct (Hone k) as (T1 & P1 & F1), (Hrest k) as (T2 & P2 & F2).
    rewrite T2, P2, F2, T1, P1, F1. unfold how_many, machine_group, is_fail.
    cbn [filter]. destruct (String.eqb (machine_key h r) k); cbn [andb bump filter].
    + destruct (is_pass r); cbn [negb bump filter List.length];
        repeat split; lia.
    + repeat split; lia.
Qed.

Lemma format_machine_fields (l : list (string * machine_acc))
    (out : list (string * machine_statistics)) :
  map_result format_machine l = Ok out ->
  (forall key st, In (key, st) out ->
     exists acc, In (key, acc) l
                 /\ ms_total_wafers st = acc_total acc
                 /\ ms_pass_count st = acc_pass acc
                 /\ ms_fail_count st = acc_fail acc)
  /\ map fst out = map fst l.
Proof.
  revert out. induction l as [|[k acc] t IH]; intros out H; cbn [map_result] in H.
  - injection H as <-. split; [intros ? ? []|reflexivity].
  - unfold format_machine at 1 in H.
    destruct (mean_or_zero _) as [avg|e]; cbn [bind] in H; [|discriminate].
    destruct (map_result format_machine t) as [ys|e]; cbn [bind] in H; [|discriminate].
    injection H as <-. destruct (IH ys eq_refl) as [Hin Hkeys]. split.
    + intros key st [Heq|Hrest].
      * injection Heq as <- <-. exists acc. simpl. auto.
      * destruct (Hin _ _ Hrest) as (acc' & ? & ?). exists acc'. simpl. auto.
    + simpl. now rewrite Hkeys.
Qed.

(** C10.  In the summary every record is counted once, as a pass when
    its [quality_status] is exactly ["PASS"] and as a fail otherwise
    (missing, [null] or any other value), so the two counts add up to the
    number of records.  The same holds inside every machine group of
    [get_machine_statistics], and every record is in a group. *)
Theorem not_pass_is_fail (h : host) (a : DataAggregator) (st : statistics)
    (ms : list (string * machine_statistics)) :
  get_summary_statistics a = Ok (Statistics st) ->
  get_machine_statistics h a = Ok ms ->
  (forall r, is_fail r = true <-> dict_get "quality_status" r <> Some (PStr "PASS"))
  /\ pass_count st = how_many is_pass (data a)
  /\ fail_count st = how_many is_fail (data a)
  /\ (pass_count st + fail_count st = total_wafers st)%Z
  /\ total_wafers st = Z.of_nat (List.length (data a))
  /\ (forall key mst, In (key, mst) ms ->
        ms_total_wafers mst = Z.of_nat (List.length (machine_group h key (data a)))
        /\ ms_pass_count mst = how_many is_pass (machine_group h key (data a))
        /\ ms_fail_count mst = how_many is_fail (machine_group h key (data a))
        /\ (ms_pass_count mst + ms_fail_count mst = ms_total_wafers mst)%Z)
  /\ (forall r, In r (data a) -> exists mst, In (machine_key h r, mst) ms).
Proof.
  intros Hsum Hms. split.
  { intros r. unfold is_fail. rewrite negb_true_iff, <- is_pass_exactly.
    destruct (is_pass r); split; congruence. }
  assert (Hsplit : forall l, (how_many is_pass l + how_many is_fail l
                              = Z.of_nat (List.length l))%Z).
  { intros l. unfold how_many, is_fail. rewrite <- (filter_split_length is_pass l).
    lia. }
  unfold get_summary_statistics in Hsum. unfold get_machine_statistics in Hms.
  destruct (data a) as [|r0 t]; [discriminate|].
  remember (r0 :: t) as l eqn:Hl.
  destruct (mean_or_zero _) as [x|e]; cbn [bind] in Hsum; [|discriminate].
  destruct (known_confidences l) as [cs|e]; cbn [bind] in Hsum; [|discriminate].
  destruct (mean_or_zero cs) as [y|e]; cbn [bind] in Hsum; [|discriminate].
  injection Hsum as <-. cbn [pass_count fail_count total_wafers].
  fold (how_many is_pass l). pose proof (Hsplit l) as Hl'.
  unfold count_pass. fold (how_many is_pass l).
  split; [reflexivity|]. split; [lia|]. split; [lia|]. split; [reflexivity|].
  destruct (machine_loop h [] l) as [m|e] eqn:Hloop; cbn [bind] in Hms; [|discriminate].
  destruct (machine_loop_tally _ _ _ _ Hloop (NoDup_nil _)) as [Hnd Htally].
  destruct (format_machine_fields _ _ Hms) as [Hfields Hkeys].
  assert (Hall : forall k, how_many (fun _ => true) (machine_group h k l)
                           = Z.of_nat (List.length (machine_group h k l))).
  { intros k. unfold how_many. f_equal. f_equal.
    induction (machine_group h k l) as [|g gs IHg]; simpl; congruence. }
  split.
  - intros key mst Hin. destruct (Hfields _ _ Hin) as (acc & Hacc & -> & -> & ->).
    rewrite <- (get_acc_In _ _ _ Hnd Hacc).
    destruct (Htally key) as (T & P & F). rewrite T, P, F, Hall.
    pose proof (Hsplit (machine_group h key l)).
    change (get_acc key []) with machine_acc_default.
    cbn [acc_total acc_pass acc_fail machine_acc_default].
    repeat split; lia.
  - intros r Hr. set (k := machine_key h r).
    assert (Hne : get_acc k m <> machine_acc_default).
    { intros Heq. destruct (Htally k) as (T & _). rewrite Heq, Hall in T.
      change (get_acc k []) with machine_acc_default in T.
      cbn [acc_total machine_acc_default] in T.
      assert (In r (machine_group h k l)).
      { unfold machine_group. apply filter_In. split; auto.
        apply String.eqb_refl. }
      destruct (machine_group h k l); [contradiction|]. simpl in T. lia. }
    apply get_acc_found in Hne. apply (in_map fst) in Hne.
    rewrite <- Hkeys in Hne. apply in_map_iff in Hne as ([k' mst] & Hk & Hin).
    simpl in Hk. subst k'. eauto.
Qed.

Lemma not_pass_is_fail_witness :
  pass_count partial_summary = how_many is_pass Fixtures.partial_records
  /\ fail_count partial_summary = how_many is_fail Fixtures.partial_records
  /\ (pass_count partial_summary + fail_count partial_summary
      = total_wafers partial_summary)%Z
  /\ (forall key mst, In (key, mst) partial_machines ->
        (ms_pass_count mst + ms_fail_count mst = ms_total_wafers mst)%Z).
Proof.
  assert (Hs : get_summary_statistics Fixtures.loaded_partial
               = Ok (Statistics partial_summary)) by (vm_compute; reflexivity).
  assert (Hm : get_machine_statistics Fixtures.host_ok Fixtures.loaded_partial
               = Ok partial_machines) by (vm_compute; reflexivity).
  destruct (not_pass_is_fail Fixtures.host_ok Fixtures.loaded_partial
              partial_summary partial_machines Hs Hm)
    as (_ & Hp & Hf & Hsum & _ & Hgroups & _).
  repeat split; try assumption.
  intros key mst Hin. now destruct (Hgroups key mst Hin) as (_ & _ & _ & H).
Defined.

(** The partial records: one pass and three fails; two fails on the
    mechanical machine, one pass and one fail on the electrical one. *)
Example partial_records_counts :
  (pass_count partial_summary, fail_count partial_summary) = (1%Z, 3%Z)
  /\ map (fun kv => (fst kv, ms_total_wafers (snd kv), ms_pass_count (snd kv),
                     ms_fail_count (snd kv))) partial_machines
     = [ ("Mechanical_MECH_01", 2%Z, 0%Z, 2%Z);
         ("Electrical_ELEC_01", 2%Z, 1%Z, 1%Z) ].
Proof. split; reflexivity. Qed.

End CountFacts.

(* ------------------------------------------------------------------ *)
(** ** Data_Aggregator.py: partial records, dates and reloading *)

Module AggregatorFacts.
Import Py Aggregator Props PyFacts.

(** C2, on the code.  A record whose [defect_percentage] is [null] makes
    [get_anomalies] and [get_date_statistics] raise [TypeError] (they
    compare it with the threshold), while [get_summary_statistics] and
    [get_machine_statistics] return on the same data.  And a record with
    no [defect_percentage] enters the mean of [get_date_statistics] as a
    0 (10 and nothing average to 5), while the summary leaves it out
    (the mean is 10) and still counts it in [total_wafers]. *)
Theorem null_percentage_raises :
  get_anomalies Fixtures.loaded_null 50 = Raise TypeError
  /\ get_date_statistics Fixtures.loaded_null = Raise TypeError
  /\ (exists st, get_summary_statistics Fixtures.loaded_null = Ok (Statistics st)
                 /\ total_wafers st = 1%Z)
  /\ (exists ms, get_machine_statistics Fixtures.host_ok Fixtures.loaded_null = Ok ms)
  /\ (exists st, get_date_statistics Fixtures.loaded_missing
                 = Ok [ (PStr "2025-01-01", st) ]
                 /\ ds_total_wafers st = 2%Z
                 /\ (ds_avg_defect_percentage st == 5)%Q)
  /\ (exists st, get_summary_statistics Fixtures.loaded_missing = Ok (Statistics st)
                 /\ total_wafers st = 2%Z
                 /\ (average_defect_percentage st == 10)%Q).
Proof.
  split; [reflexivity|]. split; [reflexivity|].
  split; [eexists; split; [vm_compute; reflexivity|reflexivity]|].
  split; [eexists; vm_compute; reflexivity|].
  split; eexists; (split; [vm_compute; reflexivity|split; reflexivity]).
Qed.

Lemma simulation_date_is_exactly (d : string) (r : dict) :
  simulation_date_is d r = true <-> dict_get "simulation_date" r = Some (PStr d).
Proof.
  unfold simulation_date_is, dict_get_or, eq_str.
  destruct (dict_get "simulation_date" r) as [[| | |s| |]|]; split;
    try discriminate; intros H.
  - apply String.eqb_eq in H. now subst.
  - injection H as ->. apply String.eqb_refl.
Qed.

Lemma filter_by_simulation_date_filter (a : DataAggregator) (d : string) :
  filter_by_simulation_date a d = filter (simulation_date_is d) (data a).
Proof. unfold filter_by_simulation_date. now destruct (data a). Qed.

(** C4, as the code has it.  [filter_by_simulation_date] is total and
    keeps, in order, exactly the records whose [simulation_date] is the
    string [d], hence [[]] when nothing is loaded or nothing matches.  When
    at least one record matches (and pandas accepts the timestamps of the
    matching records), [get_daily_statistics d] is
    [get_summary_statistics] computed over them.  When none matches, it is
    the marker ["No data found for date d"]. *)
Theorem daily_statistics_of_filter (h : host) (a : DataAggregator) (d : string) :
  filter_by_simulation_date a d = filter (simulation_date_is d) (data a)
  /\ (forall r, In r (filter_by_simulation_date a d)
                <-> In r (data a) /\ dict_get "simulation_date" r = Some (PStr d))
  /\ (data a = [] -> filter_by_simulation_date a d = [])
  /\ match filter_by_simulation_date a d with
     | [] => get_daily_statistics h a d
             = Ok (ErrorMarker ("No data found for date " ++ d))
     | _ :: _ =>
         snd (build_frame h (filter_by_simulation_date a d)) = Ok tt ->
         forall frame,
           get_daily_statistics h a d
           = get_summary_statistics
               {| data := filter_by_simulation_date a d; df := frame |}
     end.
Proof.
  split; [apply filter_by_simulation_date_filter|]. split; [|split].
  - intros r. rewrite filter_by_simulation_date_filter, filter_In.
    now rewrite simulation_date_is_exactly.
  - intros E. rewrite filter_by_simulation_date_filter, E. reflexivity.
  - unfold get_daily_statistics.
    destruct (filter_by_simulation_date a d) as [|r0 t]; [reflexivity|].
    destruct (build_frame h (r0 :: t)) as [fr res]. cbn [snd].
    intros -> frame. reflexivity.
Qed.

Lemma daily_statistics_of_filter_witness :
  get_daily_statistics Fixtures.host_ok Fixtures.loaded_batch "2025-01-01"
  = get_summary_statistics
      {| data := filter_by_simulation_date Fixtures.loaded_batch "2025-01-01";
         df := None |}.
Proof.
  apply (proj2 (proj2 (proj2
           (daily_statistics_of_filter Fixtures.host_ok Fixtures.loaded_batch
              "2025-01-01")))).
  reflexivity.
Defined.

(** C4 as stated fails when the date matches no record: the daily
    statistics are the marker ["No data found for date ..."], the summary
    over the (empty) filtered records is the marker ["No data loaded"]. *)
Lemma daily_statistics_no_match :
  filter_by_simulation_date Fixtures.loaded_batch "2025-01-02" = []
  /\ get_daily_statistics Fixtures.host_ok Fixtures.loaded_batch "2025-01-02"
     = Ok (ErrorMarker "No data found for date 2025-01-02")
  /\ get_summary_statistics
       {| data := filter_by_simulation_date Fixtures.loaded_batch "2025-01-02";
          df := None |}
     = Ok (ErrorMarker "No data loaded")
  /\ get_daily_statistics Fixtures.host_ok Fixtures.loaded_batch "2025-01-02"
     <> get_summary_statistics
          {| data := filter_by_simulation_date Fixtures.loaded_batch "2025-01-02";
             df := None |}.
Proof. repeat split; try reflexivity. vm_compute. discriminate. Qed.

(** C6.  [load_results] is idempotent: a second call over the same
    files leaves the aggregator as the first call left it and returns the
    same value, so every query answers the same afterwards.  The data
    after a call come from the files alone, whatever was in memory
    before. *)
Theorem load_results_idempotent (h : host) (fs : filesystem)
    (file_path : option string) (a : DataAggregator) :
  let a1 := fst (load_results h fs file_path a) in
  let a2 := fst (load_results h fs file_path a1) in
  a2 = a1
  /\ snd (load_results h fs file_path a1) = snd (load_results h fs file_path a)
  /\ (forall b, data (fst (load_results h fs file_path b)) = data a1)
  /\ get_summary_statistics a2 = get_summary_statistics a1
  /\ get_machine_statistics h a2 = get_machine_statistics h a1
  /\ get_defect_distribution a2 = get_defect_distribution a1
  /\ get_date_statistics a2 = get_date_statistics a1
  /\ (forall t, get_anomalies a2 t = get_anomalies a1 t)
  /\ (forall d, get_daily_statistics h a2 d = get_daily_statistics h a1 d).
Proof.
  cbv zeta.
  assert (Hsame : fst (load_results h fs file_path (fst (load_results h fs file_path a)))
                  = fst (load_results h fs file_path a)).
  { unfold load_results. destruct (read_all fs _) as [|r0 t]; [reflexivity|].
    destruct (build_frame h (r0 :: t)). reflexivity. }
  rewrite Hsame. repeat split.
  - unfold load_results. destruct (read_all fs _) as [|r0 t]; [reflexivity|].
    destruct (build_frame h (r0 :: t)). reflexivity.
  - intros b. unfold load_results. destruct (read_all fs _) as [|r0 t]; [reflexivity|].
    destruct (build_frame h (r0 :: t)). reflexivity.
Qed.

End AggregatorFacts.

(* ------------------------------------------------------------------ *)
(** ** Manufacturing_Simulation.py: the wafer cap of a run *)

Module RunFacts.
Import Py Simulation Props.

Lemma firstn_app_exact {A : Type} (l1 l2 : list A) :
  firstn (List.length l1) (l1 ++ l2) = l1.
Proof. induction l1; simpl; congruence. Qed.

Lemma skipn_app_exact {A : Type} (l1 l2 : list A) :
  skipn (List.length l1) (l1 ++ l2) = l2.
Proof. induction l1; simpl; congruence. Qed.

Lemma set_nth_split {A : Type} (l1 l2 : list A) (old new : A) :
  set_nth (List.length l1) new (l1 ++ old :: l2) = (l1 ++ new :: l2)%list.
Proof.
  unfold set_nth. rewrite firstn_app_exact.
  change (S (List.length l1)) with (1 + List.length l1)%nat.
  now rewrite <- skipn_skipn, skipn_app_exact.
Qed.

Lemma in_flight_app (l1 l2 : list pc) :
  in_flight (l1 ++ l2) = (in_flight l1 + in_flight l2)%nat.
Proof. unfold in_flight. now rewrite filter_app, length_app. Qed.

Lemma in_flight_cons (p : pc) (l : list pc) :
  in_flight (p :: l) = (checked p + in_flight l)%nat.
Proof. unfold in_flight, checked. simpl. now destruct (flying p). Qed.

Lemma in_flight_le (l : list pc) : (in_flight l <= List.length l)%nat.
Proof. unfold in_flight. apply filter_length_le. Qed.

(** Moving thread [i] keeps the number of threads and changes the number
    of wafers in flight by the difference of the two positions. *)
Lemma set_nth_counts (i : nat) (old new : pc) (l : list pc) :
  nth_error l i = Some old ->
  List.length (set_nth i new l) = List.length l
  /\ (in_flight (set_nth i new l) + checked old = in_flight l + checked new)%nat.
Proof.
  intros H. apply nth_error_split in H as (l1 & l2 & -> & <-).
  rewrite set_nth_split, !length_app, !in_flight_app, !in_flight_cons.
  cbn [List.length]. lia.
Qed.

Lemma set_nth_same {A : Type} (i : nat) (old new : A) (l : list A) :
  nth_error l i = Some old -> nth_error (set_nth i new l) i = Some new.
Proof.
  intros H. apply nth_error_split in H as (l1 & l2 & -> & <-).
  rewrite set_nth_split, nth_error_app2, Nat.sub_diag by lia. reflexivity.
Qed.

Lemma save_result_length (c : Controller) (ok : write_outcome) (r : dict) :
  List.length (results (save_result c ok r)) = S (List.length (results c)).
Proof. unfold save_result. cbn [results]. rewrite length_app. simpl. lia. Qed.

Lemma cap_not_reached (cap : nat) (c : Controller) :
  (1 <= cap)%nat -> cap_reached (Some cap) c = false ->
  (List.length (results c) <= cap - 1)%nat.
Proof.
  unfold cap_reached. intros Hcap H.
  destruct (Nat.eqb_spec cap 0); [lia|]. cbn [negb andb] in H.
  apply Nat.leb_gt in H. lia.
Qed.

Lemma worker_step_within_cap (s : scorers) (cap n i : nat) (w : world)
    (ok : write_outcome) (cf cf' : config) :
  (1 <= cap)%nat ->
  worker_step s (Some cap) i w ok cf = Some cf' ->
  within_cap cap n cf -> within_cap cap n cf'.
Proof.
  intros Hcap Hstep [Hlen Hinv]. unfold worker_step in Hstep.
  destruct (nth_error (threads cf) i) as [p|] eqn:Hnth; [|discriminate].
  destruct (nth_error (machines (ctl cf)) i) as [m|]; [|destruct p; discriminate].
  pose proof (in_flight_le (threads cf)) as Hfl.
  assert (Hset : forall new c,
            (List.length (results c) + checked new
             <= List.length (results (ctl cf)) + checked p)%nat ->
            within_cap cap n (goto cf c i new)).
  { intros new c Hc. destruct (set_nth_counts i p new _ Hnth) as [L F].
    unfold within_cap, goto. cbn [threads ctl]. split; lia. }
  destruct p as [| | | |wafer_info|].
  - (* the loop condition *)
    destruct (negb (ctl_is_running (ctl cf)) || time_up cf);
      injection Hstep as <-; apply Hset; cbn; lia.
  - (* the check of the cap *)
    destruct (cap_reached (Some cap) (ctl cf)) eqn:Hreach; injection Hstep as <-.
    + apply Hset. cbn. lia.
    + destruct (set_nth_counts i Entered Checked _ Hnth) as [L F].
      pose proof (in_flight_le (set_nth i Checked (threads cf))) as Hfl'.
      pose proof (cap_not_reached _ _ Hcap Hreach).
      unfold within_cap, goto. cbn [threads ctl]. split; lia.
  - (* the test of process_wafer *)
    destruct (negb (is_running m)); injection Hstep as <-; apply Hset; cbn; lia.
  - (* the rest of process_wafer *)
    destruct (process_wafer_running m w) as [m' [wafer_info|]];
      injection Hstep as <-; apply Hset; cbn; lia.
  - (* analysis and save_result *)
    destruct (process_wafer_with_analysis s w wafer_info) as [r|e];
      injection Hstep as <-; apply Hset.
    + rewrite save_result_length. destruct (log_line_ok r); cbn; lia.
    + cbn. lia.
  - discriminate.
Qed.

Lemma do_action_within_cap (s : scorers) (cap n : nat) (a : action) (cf cf' : config) :
  (1 <= cap)%nat ->
  do_action s (Some cap) a cf = Some cf' ->
  within_cap cap n cf -> within_cap cap n cf'.
Proof.
  intros Hcap Hdo Hinv. destruct a as [|j| |i w ok]; cbn [do_action] in Hdo.
  - injection Hdo as <-. exact Hinv.
  - injection Hdo as <-. unfold within_cap, stop_machine in *. cbn [threads ctl].
    destruct (nth_error (machines (ctl cf)) j); exact Hinv.
  - injection Hdo as <-. exact Hinv.
  - eapply worker_step_within_cap; eauto.
Qed.

Lemma run_within_cap (s : scorers) (cap n : nat) (acts : list action) (cf cf' : config) :
  (1 <= cap)%nat ->
  run s (Some cap) acts cf = Some cf' ->
  within_cap cap n cf -> within_cap cap n cf'.
Proof.
  intros Hcap. revert cf. induction acts as [|a rest IH]; intros cf Hrun Hinv;
    cbn [run] in Hrun.
  - now injection Hrun as <-.
  - destruct (do_action s (Some cap) a cf) as [cf1|] eqn:Hdo; [|discriminate].
    eapply IH; eauto. eapply do_action_within_cap; eauto.
Qed.

Lemma start_within_cap (cap : nat) (ms : list ManufacturingMachine) (date : string) :
  within_cap cap (List.length ms) (run_simulation_start (new_controller ms) date).
Proof.
  unfold within_cap, run_simulation_start, new_controller, start_all_machines.
  cbn [threads ctl results machines].
  rewrite length_map. split; [reflexivity|].
  assert (H : in_flight (map (fun _ : ManufacturingMachine => AtLoop) ms) = 0%nat).
  { induction ms as [|m t IH]; [reflexivity|].
    cbn [map]. now rewrite in_flight_cons, IH. }
  rewrite H. simpl. lia.
Qed.

Lemma all_exited_in_flight (cf : config) :
  all_exited cf = true -> in_flight (threads cf) = 0%nat.
Proof.
  unfold all_exited. induction (threads cf) as [|p t IH]; [reflexivity|].
  cbn [forallb]. intros H. apply andb_true_iff in H as [Hp Ht].
  rewrite in_flight_cons, (IH Ht). now destruct p.
Qed.

(** How far a run can pass [max_wafers].  In a run of [n] machines with
    [max_wafers = cap >= 1], the records stored plus the wafers in flight
    never exceed [cap - 1 + n]; so the store ends with at most
    [cap + n - 1] records (7 for 3 machines and a cap of 5), each machine
    adding at most one record after the cap is reached.  A thread that
    finds the cap reached at its check leaves its loop without touching
    the store, and a thread that has left never steps again. *)
Theorem cap_allows_one_in_flight_per_machine
    (s : scorers) (cap : nat) (ms : list ManufacturingMachine) (date : string)
    (acts : list action) (cf : config) :
  (1 <= cap)%nat ->
  run s (Some cap) acts (run_simulation_start (new_controller ms) date) = Some cf ->
  (List.length (results (ctl cf)) + in_flight (threads cf)
   <= cap - 1 + List.length ms)%nat
  /\ (all_exited cf = true ->
      (List.length (results (ctl cf)) <= cap + List.length ms - 1)%nat)
  /\ (forall i w ok cf',
        nth_error (threads cf) i = Some Entered ->
        cap_reached (Some cap) (ctl cf) = true ->
        worker_step s (Some cap) i w ok cf = Some cf' ->
        results (ctl cf') = results (ctl cf)
        /\ nth_error (threads cf') i = Some Exited)
  /\ (forall i w ok,
        nth_error (threads cf) i = Some Exited ->
        worker_step s (Some cap) i w ok cf = None).
Proof.
  intros Hcap Hrun.
  destruct (run_within_cap _ _ _ _ _ _ Hcap Hrun (start_within_cap cap ms date))
    as [Hlen Hinv].
  split; [exact Hinv|]. split; [|split].
  - intros Hall. rewrite (all_exited_in_flight _ Hall) in Hinv. lia.
  - intros i w ok cf' Hnth Hreach Hstep. unfold worker_step in Hstep.
    rewrite Hnth, Hreach in Hstep.
    destruct (nth_error (machines (ctl cf)) i); [|discriminate].
    injection Hstep as <-. cbn [goto ctl threads]. split; [reflexivity|].
    eapply set_nth_same; eauto.
  - intros i w ok Hnth. unfold worker_step. rewrite Hnth.
    now destruct (nth_error (machines (ctl cf)) i).
Qed.

Lemma cap_allows_one_in_flight_per_machine_witness :
  (List.length (results (ctl racing_end)) <= 5 + 3 - 1)%nat.
Proof.
  refine (proj1 (proj2 (cap_allows_one_in_flight_per_machine Fixtures.scorers_55 5
                          three_machines "2025-01-01" racing_schedule racing_end
                          _ _)) _).
  - vm_compute. lia.
  - vm_compute. reflexivity.
  - vm_compute. reflexivity.
Defined.

(** C8.  The code does not keep the cap.  A run of the 3 machines the
    constructor builds, with [max_wafers = 5], can complete (every thread
    gone) with 7 records in the store and in the results file: the check
    of the cap and the append are two critical sections, and the three
    threads pass the check while four records are stored. *)
Theorem seven_records_with_cap_five :
  exists cf : config,
    run Fixtures.scorers_55 (Some 5%nat) racing_schedule
      (run_simulation_start
         (new_controller (init_machines Fixtures.generator 1 1 1)) "2025-01-01")
    = Some cf
    /\ all_exited cf = true
    /\ List.length (results (ctl cf)) = 7%nat
    /\ cap_reached (Some 5%nat) (ctl cf) = true
    /\ results_file (ctl cf) = Whole (results (ctl cf)).
Proof. exists racing_end. repeat split; vm_compute; reflexivity. Qed.

(** The same run can also complete with a single record, when the clock
    passes the end time first. *)
Example one_record_when_time_is_up :
  option_map (fun cf => (List.length (results (ctl cf)), all_exited cf)) short_run
  = Some (1%nat, true).
Proof. vm_compute. reflexivity. Qed.

End RunFacts.

(* ------------------------------------------------------------------ *)
(** ** Data_Aggregator.py: rates, machine groups and their ranking *)

Module GroupFacts.
Import Py Aggregator Props PyFacts NumFacts SummaryFacts AnomalyFacts CountFacts.

(** The pass rate and the fail rate of a summary are percentages,
    between 0 and 100 each.  Computed in floats they add up to 100 up to
    the rounding of the operations, within [2^-44]; when every record
    passes they are 100 and 0. *)
Theorem summary_rates_add_up (a : DataAggregator) (st : statistics) :
  get_summary_statistics a = Ok (Statistics st) ->
  (Qabs (pass_rate st + fail_rate st - 100) <= pow2 (-44))%Q
  /\ (0 <= pass_rate st <= 100)%Q
  /\ (0 <= fail_rate st <= 100)%Q
  /\ (pass_count st = total_wafers st ->
      (pass_rate st == 100)%Q /\ (fail_rate st == 0)%Q).
Proof.
  unfold get_summary_statistics. intros H.
  destruct (data a) as [|r0 t]; [discriminate|].
  remember (r0 :: t) as l eqn:Hl.
  destruct (mean_or_zero _) as [x|e]; cbn [bind] in H; [|discriminate].
  destruct (known_confidences l) as [cs|e]; cbn [bind] in H; [|discriminate].
  destruct (mean_or_zero cs) as [y|e]; cbn [bind] in H; [|discriminate].
  injection H as <-. cbn [pass_rate fail_rate pass_count total_wafers].
  assert (HN : (0 < Z.of_nat (List.length l))%Z) by (subst l; simpl; lia).
  pose proof (count_pass_bounds l) as Hp.
  unfold rate. destruct (Z.ltb_spec 0 (Z.of_nat (List.length l))); [|lia].
  set (N := Z.of_nat (List.length l)) in *. set (p := count_pass l) in *.
  destruct (percent_of_bounds p N) as (P0 & P1 & Pe); [lia|lia|].
  destruct (percent_of_bounds (N - p) N) as (F0 & F1 & Fe); [lia|lia|].
  assert (HNq : (0 < inject_Z N)%Q)
    by (change 0%Q with (inject_Z 0); now rewrite <- Zlt_Qlt).
  split; [|split; [now split|split; [now split|]]].
  - assert (Hf : (inject_Z (N - p) == inject_Z N - inject_Z p)%Q).
    { unfold Z.sub. rewrite inject_Z_plus, inject_Z_opp. ring. }
    assert (Hone : (inject_Z p / inject_Z N * 100
                    + inject_Z (N - p) / inject_Z N * 100 == 100)%Q).
    { rewrite Hf. field. lra. }
    assert (E1 : (rate_slack == 1 # 35184372088832)%Q) by (vm_compute; reflexivity).
    assert (E2 : (pow2 (-44) == 1 # 17592186044416)%Q) by (vm_compute; reflexivity).
    rewrite E1 in Pe, Fe. rewrite E2.
    apply Qabs_Qle_condition in Pe. apply Qabs_Qle_condition in Fe.
    apply Qabs_Qle_condition.
    set (u := (inject_Z p / inject_Z N * 100)%Q) in *.
    set (v := (inject_Z (N - p) / inject_Z N * 100)%Q) in *.
    set (pr := percent_of p N) in *. set (fr := percent_of (N - p) N) in *.
    split; lra.
  - intros E. rewrite E, Z.sub_diag. unfold percent_of. split.
    + assert (H1 : (inject_Z N / inject_Z N == 1)%Q) by (field; lra).
      rewrite (fl_eq _ _ (Qmult_comp _ _ (Qeq_trans _ _ _ (fl_eq _ _ H1) fl_1)
                            100 100 (Qeq_refl 100))).
      apply fl_100.
    + assert (H0 : (inject_Z 0 / inject_Z N == 0)%Q) by (field; lra).
      rewrite (fl_zero _ H0).
      rewrite (fl_zero (0 * 100)%Q); reflexivity.
Qed.

Lemma summary_rates_add_up_witness :
  (Qabs (pass_rate partial_summary + fail_rate partial_summary - 100)
   <= pow2 (-44))%Q.
Proof.
  apply (summary_rates_add_up Fixtures.loaded_partial partial_summary).
  vm_compute. reflexivity.
Defined.

Lemma update_keys_eq {V : Type} (key : string) (d : V) (f : V -> V)
    (m : list (string * V)) :
  map fst (update String.eqb key d f m) = add_key key (map fst m).
Proof.
  unfold add_key. induction m as [|[k' v] t IH]; [reflexivity|].
  cbn [update map fst existsb]. rewrite (String.eqb_sym key k').
  destruct (String.eqb k' key); [reflexivity|].
  cbn [orb map fst]. rewrite IH.
  destruct (existsb (String.eqb key) (map fst t)); reflexivity.
Qed.

Lemma machine_step_keys (h : host) (m m' : list (string * machine_acc)) (r : dict) :
  machine_step h m r = Ok m' ->
  map fst m' = add_key (machine_key h r) (map fst m).
Proof.
  unfold machine_step. intros H.
  destruct (defect_class_of r) as [c|e]; cbn [bind] in H; [|discriminate].
  destruct (count_key c _) as [classes|e]; cbn [bind] in H; [|discriminate].
  injection H as <-. apply update_keys_eq.
Qed.

Lemma machine_loop_keys (h : host) (l : list dict) (m m' : list (string * machine_acc)) :
  machine_loop h m l = Ok m' ->
  map fst m' = fold_left (fun acc k => add_key k acc) (map (machine_key h) l) (map fst m).
Proof.
  revert m. induction l as [|r t IH]; intros m H; cbn [machine_loop] in H.
  - now injection H as <-.
  - destruct (machine_step h m r) as [m1|e] eqn:Hstep; cbn [bind] in H; [|discriminate].
    cbn [map fold_left]. rewrite <- (machine_step_keys _ _ _ _ Hstep). now apply IH.
Qed.

Lemma update_acc_sum (key : string) (f : machine_acc -> machine_acc)
    (m : list (string * machine_acc)) :
  (forall s, acc_total (f s) = acc_total s + 1)%Z ->
  acc_sum (update String.eqb key machine_acc_default f m) = (acc_sum m + 1)%Z.
Proof.
  intros Hf. unfold acc_sum. induction m as [|[k' v] t IH]; cbn [update].
  - cbn. rewrite Hf. reflexivity.
  - destruct (String.eqb k' key); cbn [map fold_right snd] in *.
    + rewrite Hf. lia.
    + rewrite IH. lia.
Qed.

Lemma machine_loop_sum (h : host) (l : list dict) (m m' : list (string * machine_acc)) :
  machine_loop h m l = Ok m' ->
  acc_sum m' = (acc_sum m + Z.of_nat (List.length l))%Z.
Proof.
  revert m. induction l as [|r t IH]; intros m H; cbn [machine_loop] in H.
  - injection H as <-. simpl. lia.
  - destruct (machine_step h m r) as [m1|e] eqn:Hstep; cbn [bind] in H; [|discriminate].
    rewrite (IH _ H). unfold machine_step in Hstep.
    destruct (defect_class_of r) as [c|e]; cbn [bind] in Hstep; [|discriminate].
    destruct (count_key c _) as [classes|e]; cbn [bind] in Hstep; [|discriminate].
    injection Hstep as <-. rewrite update_acc_sum by reflexivity.
    cbn [List.length]. lia.
Qed.

Lemma format_machine_sum (l : list (string * machine_acc))
    (out : list (string * machine_statistics)) :
  map_result format_machine l = Ok out ->
  total_of out = acc_sum l
  /\ Forall (fun kv => ms_machine_id (snd kv) = fst kv) out.
Proof.
  revert out. induction l as [|[k acc] t IH]; intros out H; cbn [map_result] in H.
  - injection H as <-. split; [reflexivity|constructor].
  - unfold format_machine at 1 in H.
    destruct (mean_or_zero _) as [avg|e]; cbn [bind] in H; [|discriminate].
    destruct (map_result format_machine t) as [ys|e]; cbn [bind] in H; [|discriminate].
    injection H as <-. destruct (IH ys eq_refl) as [Hs Hid]. split.
    + unfold total_of, acc_sum in *. cbn. now rewrite Hs.
    + constructor; auto.
Qed.

Lemma add_key_NoDup (k : string) (ks : list string) :
  NoDup ks -> NoDup (add_key k ks).
Proof.
  unfold add_key. intros H. destruct (existsb (String.eqb k) ks) eqn:E; auto.
  apply NoDup_app; auto.
  - repeat constructor. intros [].
  - intros x Hx [Heq|[]]. subst x.
    assert (existsb (String.eqb k) ks = true)
      by (apply existsb_exists; exists k; split; auto; apply String.eqb_refl).
    congruence.
Qed.

Lemma add_key_In (k x : string) (ks : list string) :
  In x (add_key k ks) <-> x = k \/ In x ks.
Proof.
  unfold add_key. destruct (existsb (String.eqb k) ks) eqn:E.
  - apply existsb_exists in E as (y & Hy & Heq). apply String.eqb_eq in Heq. subst y.
    split; [now right|]. intros [->|H]; auto.
  - rewrite in_app_iff. simpl. intuition.
Qed.

Lemma first_seen_from (l acc : list string) :
  NoDup acc ->
  NoDup (fold_left (fun acc k => add_key k acc) l acc)
  /\ forall x, In x (fold_left (fun acc k => add_key k acc) l acc)
               <-> In x acc \/ In x l.
Proof.
  revert acc. induction l as [|k t IH]; intros acc Hnd; cbn [fold_left].
  - split; auto. intros x. simpl. tauto.
  - destruct (IH (add_key k acc) (add_key_NoDup k acc Hnd)) as [H1 H2].
    split; auto. intros x. rewrite H2, add_key_In. simpl. split; intros H; intuition.
Qed.

Lemma machine_statistics_loop (h : host) (a : DataAggregator)
    (ms : list (string * machine_statistics)) :
  get_machine_statistics h a = Ok ms ->
  exists m, machine_loop h [] (data a) = Ok m
            /\ map_result format_machine m = Ok ms.
Proof.
  unfold get_machine_statistics. intros H. destruct (data a) as [|r0 t].
  - injection H as <-. exists []. split; reflexivity.
  - destruct (machine_loop h [] (r0 :: t)) as [m|e]; cbn [bind] in H;
      [|discriminate]. eauto.
Qed.

Lemma machine_statistics_keys (h : host) (a : DataAggregator)
    (ms : list (string * machine_statistics)) :
  get_machine_statistics h a = Ok ms ->
  map fst ms = first_seen (map (machine_key h) (data a))
  /\ NoDup (map fst ms).
Proof.
  intros H. destruct (machine_statistics_loop _ _ _ H) as (m & Hloop & Hfmt).
  destruct (format_machine_fields _ _ Hfmt) as [_ Hkeys].
  pose proof (machine_loop_keys _ _ _ _ Hloop) as Hk. cbn [map] in Hk.
  fold (first_seen (map (machine_key h) (data a))) in Hk.
  destruct (first_seen_from (map (machine_key h) (data a)) [] (NoDup_nil _))
    as [Hnd _].
  fold (first_seen (map (machine_key h) (data a))) in Hnd.
  rewrite Hkeys, Hk. now split.
Qed.

(** The groups of [get_machine_statistics] come in the order in which
    their machines first appear in the data, one group per machine key,
    each carrying its own key, and their totals add up to the number of
    records. *)
Theorem machine_groups_cover_data (h : host) (a : DataAggregator)
    (ms : list (string * machine_statistics)) :
  get_machine_statistics h a = Ok ms ->
  map fst ms = first_seen (map (machine_key h) (data a))
  /\ NoDup (map fst ms)
  /\ (forall key, In key (map fst ms)
                  <-> exists r, In r (data a) /\ machine_key h r = key)
  /\ Forall (fun kv => ms_machine_id (snd kv) = fst kv) ms
  /\ total_of ms = Z.of_nat (List.length (data a)).
Proof.
  intros H. destruct (machine_statistics_keys _ _ _ H) as [Hk Hnd].
  destruct (machine_statistics_loop _ _ _ H) as (m & Hloop & Hfmt).
  destruct (format_machine_sum _ _ Hfmt) as [Hsum Hid].
  destruct (first_seen_from (map (machine_key h) (data a)) [] (NoDup_nil _))
    as [_ Hin].
  fold (first_seen (map (machine_key h) (data a))) in Hin.
  repeat split; auto.
  - rewrite Hk. intros Hx. apply Hin in Hx as [[]|Hx].
    apply in_map_iff in Hx as (r & Hr & Hrin). eauto.
  - rewrite Hk. intros (r & Hr & <-). apply Hin. right. now apply in_map.
  - rewrite Hsum, (machine_loop_sum _ _ _ _ Hloop). reflexivity.
Qed.

Lemma machine_groups_cover_data_witness :
  map fst partial_machines
  = first_seen (map (machine_key Fixtures.host_ok) Fixtures.partial_records)
  /\ total_of partial_machines = 4%Z.
Proof.
  destruct (machine_groups_cover_data Fixtures.host_ok Fixtures.loaded_partial
              partial_machines) as (H1 & _ & _ & _ & H2).
  - vm_compute. reflexivity.
  - split; [exact H1|exact H2].
Defined.

(** [get_machine_performance_ranking] lists every machine group once,
    with the figures of its statistics, highest pass rate first, groups
    with the same pass rate in the order of the statistics; it raises
    exactly when the statistics do. *)
Theorem ranking_sorts_machine_statistics (h : host) (a : DataAggregator) :
  match get_machine_statistics h a with
  | Ok ms =>
      exists rk : list ranking_entry,
        get_machine_performance_ranking h a = Ok rk
        /\ Permutation rk (map ranking_of ms)
        /\ Sorted (before rk_pass_rate) rk
        /\ (forall q, filter (same_pass_rate q) rk
                      = filter (same_pass_rate q) (map ranking_of ms))
        /\ NoDup (map rk_machine rk)
        /\ (data a = [] -> rk = [])
  | Raise e => get_machine_performance_ranking h a = Raise e
  end.
Proof.
  unfold get_machine_performance_ranking.
  destruct (get_machine_statistics h a) as [ms|e] eqn:Hms; [|reflexivity].
  cbn [bind]. eexists. split; [reflexivity|].
  pose proof (sort_desc_perm rk_pass_rate (map ranking_of ms)) as Hperm.
  split; [exact Hperm|]. split; [apply sort_desc_sorted|].
  split; [intros q; apply sort_desc_stable|]. split.
  - destruct (machine_statistics_keys _ _ _ Hms) as [_ Hnd].
    eapply Permutation_NoDup.
    + apply Permutation_sym, Permutation_map, Hperm.
    + now rewrite map_map.
  - intros E. unfold get_machine_statistics in Hms. rewrite E in Hms.
    injection Hms as <-. reflexivity.
Qed.

End GroupFacts.

(* ------------------------------------------------------------------ *)
(** ** Data_Aggregator.py: thresholds and loading *)

Module LoadFacts.
Import Py Aggregator Props PyFacts AnomalyFacts.

Lemma before_trans {A : Type} (key : A -> Q) (x y z : A) :
  before key x y -> before key y z -> before key x z.
Proof. unfold before. intros. eapply Qle_trans; eauto. Qed.

Lemma sorted_all_before {A : Type} (key : A -> Q) (y : A) (t : list A) :
  Sorted (before key) (y :: t) -> Forall (before key y) t.
Proof.
  intros H. apply Sorted_StronglySorted in H.
  - now inversion H.
  - intros a b c. apply before_trans.
Qed.

Lemma insert_desc_front {A : Type} (key : A -> Q) (x : A) (l : list A) :
  Forall (before key x) l -> insert_desc key x l = x :: l.
Proof.
  intros H. destruct l as [|z t]; [reflexivity|]. cbn [insert_desc].
  inversion H as [|? ? Hz _]; subst. unfold before in Hz.
  apply Qle_bool_iff in Hz. now rewrite Hz.
Qed.

(** Filtering commutes with the stable sort. *)
Lemma insert_desc_filter {A : Type} (key : A -> Q) (p : A -> bool) (x : A)
    (l : list A) :
  Sorted (before key) l ->
  filter p (insert_desc key x l)
  = if p x then insert_desc key x (filter p l) else filter p l.
Proof.
  induction l as [|y t IH]; intros Hs.
  - cbn. destruct (p x); reflexivity.
  - cbn [insert_desc]. destruct (Qle_bool (key y) (key x)) eqn:E.
    + change (filter p (x :: y :: t))
        with (if p x then x :: filter p (y :: t) else filter p (y :: t)).
      destruct (p x); [|reflexivity].
      rewrite insert_desc_front; [reflexivity|].
      apply Qle_bool_iff in E.
      assert (Hall : Forall (before key x) (y :: t)).
      { constructor; [exact E|].
        eapply Forall_impl; [|apply (sorted_all_before _ _ _ Hs)].
        intros z Hz. unfold before in *. eapply Qle_trans; eauto. }
      apply Forall_forall. intros z Hz. apply filter_In in Hz as [Hz _].
      revert z Hz. now apply Forall_forall.
    + cbn [filter]. inversion Hs as [|? ? Ht _]; subst. rewrite (IH Ht).
      destruct (p y), (p x); cbn [insert_desc]; rewrite ?E; reflexivity.
Qed.

Lemma sort_desc_filter {A : Type} (key : A -> Q) (p : A -> bool) (l : list A) :
  filter p (sort_desc key l) = sort_desc key (filter p l).
Proof.
  induction l as [|x t IH]; [reflexivity|].
  cbn [sort_desc fold_right filter].
  rewrite insert_desc_filter by apply sort_desc_sorted.
  fold (sort_desc key t). rewrite IH. destruct (p x); reflexivity.
Qed.

Lemma filter_filter_implied {A : Type} (p q : A -> bool) (l : list A) :
  (forall x, p x = true -> q x = true) ->
  filter p (filter q l) = filter p l.
Proof.
  intros H. induction l as [|x t IH]; [reflexivity|]. cbn [filter].
  destruct (q x) eqn:Eq; cbn [filter]; rewrite IH; [reflexivity|].
  destruct (p x) eqn:Ep; [|reflexivity]. apply H in Ep. congruence.
Qed.

(** Raising the threshold only removes anomalies: the anomalies above
    [t2] are those among the anomalies above a lower [t1] that exceed
    [t2], in the same order. *)
Theorem anomalies_of_higher_threshold (a : DataAggregator) (t1 t2 : Q) :
  Forall (fun r => percentage_readable r = true) (data a) ->
  (t1 <= t2)%Q ->
  exists l1 l2 : list dict,
    get_anomalies a t1 = Ok l1
    /\ get_anomalies a t2 = Ok l2
    /\ l2 = filter (exceeds t2) l1
    /\ (List.length l2 <= List.length l1)%nat.
Proof.
  intros Hok Hle.
  assert (Hget : forall t, get_anomalies a t
                           = Ok (sort_desc percentage_key (filter (exceeds t) (data a)))).
  { intros t. unfold get_anomalies. destruct (data a) as [|r0 rest] eqn:E;
      [reflexivity|]. now rewrite (exceeding_filter t _ Hok). }
  do 2 eexists. split; [apply Hget|]. split; [apply Hget|].
  assert (Heq : sort_desc percentage_key (filter (exceeds t2) (data a))
                = filter (exceeds t2)
                    (sort_desc percentage_key (filter (exceeds t1) (data a)))).
  { rewrite sort_desc_filter, filter_filter_implied; [reflexivity|].
    intros r Hr. apply exceeds_iff in Hr. apply exceeds_iff.
    eapply Qle_lt_trans; eauto. }
  split; [exact Heq|]. rewrite Heq. apply filter_length_le.
Qed.

Lemma anomalies_of_higher_threshold_witness :
  exists l1 l2 : list dict,
    get_anomalies Fixtures.loaded_batch 5 = Ok l1
    /\ get_anomalies Fixtures.loaded_batch 40 = Ok l2
    /\ l2 = filter (exceeds 40) l1
    /\ (List.length l2 <= List.length l1)%nat.
Proof.
  apply (anomalies_of_higher_threshold Fixtures.loaded_batch 5 40).
  - repeat constructor.
  - vm_compute. discriminate.
Defined.

Lemma read_all_flat_map (fs : filesystem) (files : list string) :
  read_all fs files = flat_map (records_of fs) files.
Proof.
  induction files as [|f rest IH]; [reflexivity|].
  cbn [read_all flat_map]. unfold records_of at 1.
  destruct (read_json fs f) as [[l|d]|]; now rewrite IH.
Qed.

(** [load_results] replaces the data by the records of the files it
    loads, in the order of the files; the files hold records (JSON
    objects), as [save_result] writes them: a file that holds a list
    contributes the records of the list, a file that holds a single
    record contributes that record, and a file that cannot be opened or
    parsed contributes nothing.  Without a path the files are those of
    the directory, most recently modified first.  The new data are in
    place also when the call raises (pandas rejecting the timestamps),
    and the call returns them otherwise.  The data frame is rebuilt from
    the new data, except that an empty load leaves the previous frame. *)
Theorem load_results_replaces_data (h : host) (fs : filesystem)
    (file_path : option string) (a : DataAggregator) :
  let a' := fst (load_results h fs file_path a) in
  let files := match file_path with
               | Some f => [f]
               | None => map path (sort_desc st_mtime (glob_results fs))
               end in
  data a' = flat_map (records_of fs) files
  /\ (forall f, records_of fs f
                = match read_json fs f with
                  | Some (ParsedList l) => l
                  | Some (ParsedOne d) => [d]
                  | None => []
                  end)
  /\ (forall r, In r (data a')
                <-> exists f, In f files /\ In r (records_of fs f))
  /\ (file_path = None ->
      Permutation files (map path (glob_results fs))
      /\ Sorted (before st_mtime) (sort_desc st_mtime (glob_results fs)))
  /\ (snd (load_results h fs file_path a) = Ok (data a')
      \/ ((exists e, snd (load_results h fs file_path a) = Raise e)
          /\ data a' <> []
          /\ to_datetime_ok h (timestamp_column (data a')) = false))
  /\ match data a' with
     | [] => df a' = df a
     | _ :: _ => option_map rows (df a') = Some (data a')
     end.
Proof.
  cbv zeta. unfold load_results.
  set (files := match file_path with
                | Some f => [f]
                | None => map path (sort_desc st_mtime (glob_results fs))
                end).
  rewrite read_all_flat_map.
  assert (Hdata : data (fst match flat_map (records_of fs) files with
                            | [] => ({| data := flat_map (records_of fs) files;
                                        df := df a |},
                                     Ok (flat_map (records_of fs) files))
                            | _ :: _ =>
                                let (frame, r) :=
                                  build_frame h (flat_map (records_of fs) files) in
                                ({| data := flat_map (records_of fs) files;
                                    df := Some frame |},
                                 _ <- r ;; Ok (flat_map (records_of fs) files))
                            end) = flat_map (records_of fs) files).
  { destruct (flat_map (records_of fs) files); [reflexivity|].
    now destruct (build_frame h _). }
  rewrite Hdata. split; [reflexivity|]. split; [reflexivity|].
  split; [|split; [|split]].
  - intros r. rewrite in_flat_map. reflexivity.
  - intros ->. subst files. split.
    + apply Permutation_map, sort_desc_perm.
    + apply sort_desc_sorted.
  - destruct (flat_map (records_of fs) files) as [|r0 t] eqn:E; [now left|].
    unfold build_frame.
    destruct (existsb (dict_has "timestamp") (r0 :: t)); [|now left].
    destruct (to_datetime_ok h (timestamp_column (r0 :: t))) eqn:Hts; [now left|].
    right. split; [now exists ValueError|]. split; [discriminate|reflexivity].
  - destruct (flat_map (records_of fs) files) as [|r0 t] eqn:E; [reflexivity|].
    unfold build_frame.
    destruct (existsb (dict_has "timestamp") (r0 :: t)); [|reflexivity].
    destruct (to_datetime_ok h (timestamp_column (r0 :: t))); reflexivity.
Qed.

End LoadFacts.

(* ------------------------------------------------------------------ *)
(** ** Manufacturing_Simulation.py: identifiers of machines and wafers *)

Module IdentFacts.
Import Py Simulation Props.

Lemma append_assoc (a b c : string) : (a ++ b) ++ c = a ++ (b ++ c).
Proof. induction a as [|x a IH]; simpl; congruence. Qed.

Lemma append_nil_r (a : string) : a ++ "" = a.
Proof. induction a as [|x a IH]; simpl; congruence. Qed.

Lemma append_inj_l (a b c : string) : a ++ b = a ++ c -> b = c.
Proof. induction a as [|x a IH]; simpl; intros H; auto. injection H. auto. Qed.

Lemma read_nat_from_stop (acc : nat) (rest : string) :
  starts_with_digit rest = false -> read_nat_from acc rest = (acc, rest).
Proof. destruct rest as [|c t]; simpl; [reflexivity|]. now intros ->. Qed.

Lemma read_uint (d : Decimal.uint) (acc : nat) (rest : string) :
  starts_with_digit rest = false ->
  read_nat_from acc (NilEmpty.string_of_uint d ++ rest)
  = (Nat.of_uint_acc d acc, rest).
Proof.
  intros Hrest. revert acc.
  induction d as [|d IH|d IH|d IH|d IH|d IH|d IH|d IH|d IH|d IH|d IH];
    intros acc;
    [ now apply read_nat_from_stop | .. ];
    cbn [NilEmpty.string_of_uint append read_nat_from Nat.of_uint_acc];
    change (is_digit _) with true; cbn iota; rewrite IH; do 2 f_equal;
    rewrite Nat.tail_mul_spec; cbn [nat_of_ascii]; vm_compute Nat.sub; lia.
Qed.

Lemma read_zeros (k : nat) (s : string) :
  read_nat_from 0 (zeros k ++ s) = read_nat_from 0 s.
Proof. induction k as [|k IH]; [reflexivity|]. exact IH. Qed.

(** Reading a zero-padded number back gives the number. *)
Lemma read_padded (w n : nat) (rest : string) :
  starts_with_digit rest = false ->
  read_nat ((zeros (w - String.length (str_nat n)) ++ str_nat n) ++ rest)
  = (n, rest).
Proof.
  intros Hrest. unfold read_nat, str_nat.
  rewrite append_assoc, read_zeros, (read_uint _ _ _ Hrest).
  f_equal. apply DecimalNat.Unsigned.of_to.
Qed.

Lemma read_format_04d (n : nat) (rest : string) :
  starts_with_digit rest = false -> read_nat (format_04d n ++ rest) = (n, rest).
Proof. apply read_padded. Qed.

Lemma read_format_02d (n : nat) (rest : string) :
  starts_with_digit rest = false -> read_nat (format_02d n ++ rest) = (n, rest).
Proof. apply read_padded. Qed.

Lemma zeros_length (k : nat) : String.length (zeros k) = k.
Proof. induction k; simpl; congruence. Qed.

Lemma length_append (a b : string) :
  String.length (a ++ b) = (String.length a + String.length b)%nat.
Proof. induction a as [|x a IH]; simpl; congruence. Qed.

(** The sequence number of a wafer identifier has at least four digits
    and reads back as the counter, so a machine never gives one identifier
    to two counters. *)
Theorem wafer_number_round_trip (m : ManufacturingMachine) (k k' : nat) :
  read_nat (format_04d k) = (k, "")
  /\ (4 <= String.length (format_04d k))%nat
  /\ make_wafer_id m
     = machine_type m ++ "_" ++ machine_id m ++ "_W" ++ format_04d (wafer_counter m)
  /\ (wafer_id_of (identity m) k = wafer_id_of (identity m) k' -> k = k').
Proof.
  assert (Hread : forall n, read_nat (format_04d n) = (n, "")).
  { intros n. rewrite <- (append_nil_r (format_04d n)).
    now apply read_format_04d. }
  split; [apply Hread|]. split; [|split; [reflexivity|]].
  - unfold format_04d. rewrite length_append, zeros_length. lia.
  - unfold wafer_id_of. intros H.
    apply append_inj_l in H. apply (append_inj_l "_") in H.
    apply append_inj_l in H. apply (append_inj_l "_W") in H.
    apply (f_equal read_nat) in H. rewrite !Hread in H. congruence.
Qed.

Lemma wafer_number_round_trip_witness : 7%nat = 7%nat.
Proof.
  apply (proj2 (proj2 (proj2 (wafer_number_round_trip Fixtures.mech_01 7 7)))).
  reflexivity.
Defined.

Lemma format_04d_inj (k k' : nat) : format_04d k = format_04d k' -> k = k'.
Proof.
  intros H. apply (f_equal (fun x => read_nat (x ++ ""))) in H.
  rewrite !read_format_04d in H by reflexivity. congruence.
Qed.

(** The identities [__init__] gives to its machines. *)
Lemma init_machines_identities (g : WaferImageGenerator) (a b c : nat) :
  map identity (init_machines g a b c)
  = (map (fun i => kind_identity Mech (i + 1)) (seq 0 a)
     ++ map (fun i => kind_identity Elec (i + 1)) (seq 0 b)
     ++ map (fun i => kind_identity Therm (i + 1)) (seq 0 c))%list.
Proof.
  unfold init_machines. rewrite !map_app, !map_map. reflexivity.
Qed.

Lemma kind_identity_separate (kd kd' : kind) (n n' k k' : nat) :
  wafer_id_of (kind_identity kd n) k = wafer_id_of (kind_identity kd' n') k' ->
  kd = kd' /\ n = n' /\ k = k'.
Proof.
  unfold wafer_id_of.
  destruct kd, kd'; cbn [kind_identity fst snd append]; intros H;
    try discriminate H;
    repeat (injection H as H);
    apply (f_equal read_nat) in H;
    rewrite !read_format_02d in H by reflexivity;
    injection H as Hn Hk; apply format_04d_inj in Hk; auto.
Qed.

Lemma init_identity_kind (g : WaferImageGenerator) (a b c : nat) (p : string * string) :
  In p (map identity (init_machines g a b c)) ->
  exists kd n, p = kind_identity kd n.
Proof.
  rewrite init_machines_identities, !in_app_iff, !in_map_iff.
  intros [(i & <- & _)|[(i & <- & _)|(i & <- & _)]].
  - now exists Mech, (i + 1)%nat.
  - now exists Elec, (i + 1)%nat.
  - now exists Therm, (i + 1)%nat.
Qed.

Lemma kind_identity_inj (kd kd' : kind) (n n' : nat) :
  kind_identity kd n = kind_identity kd' n' -> kd = kd' /\ n = n'.
Proof.
  intros H. apply (f_equal (fun p => wafer_id_of p 0)) in H.
  apply kind_identity_separate in H. tauto.
Qed.

Lemma init_identities_NoDup (g : WaferImageGenerator) (a b c : nat) :
  NoDup (map identity (init_machines g a b c)).
Proof.
  rewrite init_machines_identities.
  assert (Hk : forall kd n, NoDup (map (fun i => kind_identity kd (i + 1)) (seq 0 n))).
  { intros kd n. apply Finite.Injective_map_NoDup; [|apply seq_NoDup].
    intros i j H. apply kind_identity_inj in H. lia. }
  assert (Hdis : forall kd kd' n n' x, kd <> kd' ->
            In x (map (fun i => kind_identity kd (i + 1)) (seq 0 n)) ->
            ~ In x (map (fun i => kind_identity kd' (i + 1)) (seq 0 n'))).
  { intros kd kd' n n' x Hne H1 H2.
    apply in_map_iff in H1 as (i & <- & _). apply in_map_iff in H2 as (j & H2 & _).
    apply kind_identity_inj in H2. apply Hne. symmetry. tauto. }
  apply NoDup_app; [apply Hk| |].
  - apply NoDup_app; [apply Hk|apply Hk|].
    intros x. apply Hdis. discriminate.
  - intros x Hx Hin. apply in_app_iff in Hin as [Hin|Hin];
      revert Hin; eapply Hdis; eauto; discriminate.
Qed.

Lemma init_identities_separate (g : WaferImageGenerator) (a b c : nat) :
  separate (map identity (init_machines g a b c)).
Proof.
  intros i j p q ki kj Hi Hj H.
  destruct (init_identity_kind g a b c p (nth_error_In _ _ Hi)) as (kd & n & ->).
  destruct (init_identity_kind g a b c q (nth_error_In _ _ Hj)) as (kd' & n' & ->).
  apply kind_identity_separate in H as (-> & -> & ->). split; [|reflexivity].
  pose proof (init_identities_NoDup g a b c) as Hnd.
  rewrite NoDup_nth_error in Hnd. apply Hnd; [|congruence].
  apply nth_error_Some. congruence.
Qed.

(** The controller names its machines so that no two of them can give
    the same wafer identifier: it creates one machine per requested unit,
    all stopped and with their counters at zero, and a wafer identifier
    determines the machine and the sequence number it came from. *)
Theorem init_machines_separate (g : WaferImageGenerator) (a b c : nat) :
  List.length (init_machines g a b c) = (a + b + c)%nat
  /\ Forall (fun m => is_running m = false /\ wafer_counter m = 0%nat
                      /\ processed_wafers m = 0%nat) (init_machines g a b c)
  /\ NoDup (map identity (init_machines g a b c))
  /\ separate (map identity (init_machines g a b c)).
Proof.
  split; [|split; [|split]].
  - unfold init_machines. rewrite !length_app, !length_map, !length_seq. lia.
  - unfold init_machines. rewrite !Forall_app. repeat split;
      apply Forall_forall; intros m Hm; apply in_map_iff in Hm as (i & <- & _);
      repeat split.
  - apply init_identities_NoDup.
  - apply init_identities_separate.
Qed.


End IdentFacts.

(* ------------------------------------------------------------------ *)
(** ** Manufacturing_Simulation.py: what a run keeps *)

Module RunInvariants.
Import Py Simulation Props PyFacts RunFacts IdentFacts.

Lemma set_nth_other {A : Type} (i j : nat) (old new : A) (l : list A) :
  nth_error l i = Some old -> j <> i ->
  nth_error (set_nth i new l) j = nth_error l j.
Proof.
  intros H Hne. apply nth_error_split in H as (l1 & l2 & -> & <-).
  rewrite set_nth_split.
  destruct (Nat.lt_ge_cases j (List.length l1)).
  - now rewrite !nth_error_app1 by lia.
  - rewrite !nth_error_app2 by lia.
    destruct (j - List.length l1)%nat as [|k] eqn:E; [lia|]. reflexivity.
Qed.

Lemma set_nth_map {A B : Type} (f : A -> B) (i : nat) (old new : A) (l : list A) :
  nth_error l i = Some old -> f new = f old ->
  map f (set_nth i new l) = map f l.
Proof.
  intros H Hf. apply nth_error_split in H as (l1 & l2 & -> & <-).
  rewrite set_nth_split, !map_app. cbn [map]. now rewrite Hf.
Qed.

Lemma set_nth_infos (i : nat) (old new : pc) (l : list pc) :
  nth_error l i = Some old ->
  Permutation (infos_of old ++ produced_infos (set_nth i new l))
              (infos_of new ++ produced_infos l).
Proof.
  intros H. apply nth_error_split in H as (l1 & l2 & -> & <-).
  rewrite set_nth_split. unfold produced_infos. rewrite !flat_map_app.
  cbn [flat_map].
  rewrite !(Permutation_app_comm (flat_map infos_of l1)), <- !app_assoc, !app_assoc.
  apply Permutation_app_tail.
  rewrite <- !app_assoc, (Permutation_app_comm (infos_of old)), <- !app_assoc.
  apply Permutation_app_head. apply Permutation_app_comm.
Qed.

(** What [process_wafer] does to the identity and the counter. *)
Lemma process_wafer_identity (m : ManufacturingMachine) (w : world) :
  identity (fst (process_wafer m w)) = identity m
  /\ (wafer_counter m <= wafer_counter (fst (process_wafer m w)))%nat
  /\ is_running (fst (process_wafer m w)) = is_running m
  /\ forall info, snd (process_wafer m w) = Some info ->
       wafer_counter (fst (process_wafer m w)) = S (wafer_counter m)
       /\ dict_get "wafer_id" info
          = Some (PStr (wafer_id_of (identity m) (S (wafer_counter m)))).
Proof.
  unfold process_wafer. destruct (is_running m) eqn:Hrun; cbn [negb].
  - destruct (generate_image _ _ _ _ _); cbn [fst snd];
      (split; [reflexivity|]); (split; [simpl; lia|]);
      (split; [simpl; now rewrite Hrun|]); intros info H; [|discriminate].
    injection H as <-. split; reflexivity.
  - cbn [fst snd]. split; [reflexivity|]. split; [lia|]. split; [now rewrite Hrun|].
    intros info H. discriminate.
Qed.

(** [process_wafer] is its test followed by the rest. *)
Lemma process_wafer_split (m : ManufacturingMachine) (w : world) :
  process_wafer m w
  = if negb (is_running m) then (m, None) else process_wafer_running m w.
Proof. reflexivity. Qed.

Lemma process_wafer_running_identity (m : ManufacturingMachine) (w : world) :
  identity (fst (process_wafer_running m w)) = identity m
  /\ (wafer_counter m <= wafer_counter (fst (process_wafer_running m w)))%nat
  /\ is_running (fst (process_wafer_running m w)) = is_running m
  /\ forall info, snd (process_wafer_running m w) = Some info ->
       wafer_counter (fst (process_wafer_running m w)) = S (wafer_counter m)
       /\ dict_get "wafer_id" info
          = Some (PStr (wafer_id_of (identity m) (S (wafer_counter m)))).
Proof.
  unfold process_wafer_running.
  destruct (generate_image _ _ _ _ _); cbn [fst snd];
    (split; [reflexivity|]); (split; [simpl; lia|]);
    (split; [reflexivity|]); intros info H; [|discriminate].
  injection H as <-. split; reflexivity.
Qed.

(** The analysis and the storing keep the wafer identifier. *)
Lemma analysis_keeps_wafer_id (s : scorers) (w : world) (info r : dict) :
  process_wafer_with_analysis s w info = Ok r ->
  dict_get "wafer_id" r = dict_get "wafer_id" info.
Proof.
  unfold process_wafer_with_analysis.
  destruct (if truthy _ then _ else _) as [found|e]; cbn [bind]; [|discriminate].
  destruct found; cbn [negb].
  - destruct (le_float _ _) as [b|e]; cbn [bind]; [|discriminate].
    destruct (gt_float _ _) as [b'|e]; cbn [bind]; [|discriminate].
    destruct (format_confidence _ _) as [c|e]; cbn [bind]; [|discriminate].
    intros H. injection H as <-.
    now rewrite !(dict_get_set_other "wafer_id") by reflexivity.
  - intros H. injection H as <-.
    now rewrite (dict_get_set_other "wafer_id") by reflexivity.
Qed.

Lemma save_result_appends (c : Controller) (ok : write_outcome) (r : dict) :
  exists r',
    results (save_result c ok r) = (results c ++ [r'])%list
    /\ (forall k, String.eqb k "simulation_date" = false ->
                  dict_get k r' = dict_get k r)
    /\ (forall d, simulation_date c = Some d -> d <> "" ->
                  dict_get "simulation_date" r' = Some (PStr d))
    /\ machines (save_result c ok r) = machines c
    /\ simulation_date (save_result c ok r) = simulation_date c
    /\ ctl_is_running (save_result c ok r) = ctl_is_running c
    /\ results_file (save_result c ok r)
       = match ok with
         | Written => Whole (results c ++ [r'])%list
         | NotOpened => results_file c
         | CutShort => Broken
         end.
Proof.
  unfold save_result. cbn [results machines simulation_date ctl_is_running results_file].
  eexists. split; [reflexivity|]. repeat split.
  - intros k Hk. destruct (simulation_date c) as [d|]; [|reflexivity].
    destruct (String.eqb d ""); cbn [negb]; [reflexivity|].
    now apply dict_get_set_other.
  - intros d -> Hd. apply String.eqb_neq in Hd. rewrite Hd. cbn [negb].
    apply dict_get_set_same.
Qed.

Lemma issued_weaken (ms ms' : list ManufacturingMachine) (x : option pyval) :
  (forall i m, nth_error ms i = Some m ->
     exists m', nth_error ms' i = Some m' /\ identity m' = identity m
                /\ (wafer_counter m <= wafer_counter m')%nat) ->
  issued ms x -> issued ms' x.
Proof.
  intros H (i & m & k & Hi & Hk & ->). destruct (H i m Hi) as (m' & Hi' & Hid & Hc).
  exists i, m', k. rewrite Hid. repeat split; auto. lia.
Qed.

Lemma set_nth_grows (i : nat) (m0 m1 : ManufacturingMachine)
    (ms : list ManufacturingMachine) :
  nth_error ms i = Some m0 -> identity m1 = identity m0 ->
  (wafer_counter m0 <= wafer_counter m1)%nat ->
  forall j m, nth_error ms j = Some m ->
    exists m', nth_error (set_nth i m1 ms) j = Some m' /\ identity m' = identity m
               /\ (wafer_counter m <= wafer_counter m')%nat.
Proof.
  intros Hi Hid Hc j m Hj. destruct (Nat.eq_dec j i) as [->|Hne].
  - rewrite (set_nth_same i m0 m1 ms Hi). exists m1.
    assert (m = m0) by congruence. subst. auto.
  - rewrite (set_nth_other i j m0 m1 ms Hi Hne). exists m. auto.
Qed.

Lemma stop_keeps (ms : list ManufacturingMachine) :
  forall j m, nth_error ms j = Some m ->
    exists m', nth_error (map stop ms) j = Some m' /\ identity m' = identity m
               /\ (wafer_counter m <= wafer_counter m')%nat.
Proof.
  intros j m Hj. exists (stop m). rewrite nth_error_map, Hj. auto.
Qed.

Lemma worker_step_unique (s : scorers) (mw : option nat) (i : nat) (w : world)
    (ok : write_outcome) (ids : list (string * string)) (cf cf' : config) :
  separate ids ->
  worker_step s mw i w ok cf = Some cf' ->
  unique_ids ids cf -> unique_ids ids cf'.
Proof.
  intros Hsep Hstep (Hids & Hnd & Hiss). unfold worker_step in Hstep.
  destruct (nth_error (threads cf) i) as [p|] eqn:Hp; [|discriminate].
  destruct (nth_error (machines (ctl cf)) i) as [m|] eqn:Hm;
    [|destruct p; discriminate].
  assert (Hquiet : forall new, infos_of p = [] -> infos_of new = [] ->
            unique_ids ids (goto cf (ctl cf) i new)).
  { intros new Hold Hnew. pose proof (set_nth_infos i p new _ Hp) as Hperm.
    rewrite Hold, Hnew in Hperm. cbn [app] in Hperm.
    unfold unique_ids, known_ids, goto. cbn [ctl threads].
    split; [exact Hids|]. split.
    - eapply Permutation_NoDup; [|exact Hnd]. unfold known_ids.
      apply Permutation_map, Permutation_app_head, Permutation_sym, Hperm.
    - eapply Permutation_Forall; [|exact Hiss]. unfold known_ids.
      apply Permutation_map, Permutation_app_head, Permutation_sym, Hperm. }
  destruct p as [| | | |wafer_info|].
  - destruct (negb _ || _); injection Hstep as <-; now apply Hquiet.
  - destruct (cap_reached _ _); injection Hstep as <-; now apply Hquiet.
  - destruct (negb (is_running m)); injection Hstep as <-; now apply Hquiet.
  - (* the rest of process_wafer *)
    destruct (process_wafer_running_identity m w) as (Hid & Hcnt & _ & Hinfo).
    destruct (process_wafer_running m w) as [m' [info|]]; cbn [fst snd] in *;
      injection Hstep as <-.
    + destruct (Hinfo info eq_refl) as [Hc Hwid].
      pose proof (set_nth_infos i Started (Produced info) _ Hp) as Hperm.
      cbn [infos_of app] in Hperm.
      assert (Hgrow := set_nth_grows i m m' _ Hm Hid Hcnt).
      assert (Hknown : Permutation
                (map (dict_get "wafer_id")
                   (results (ctl cf)
                    ++ produced_infos (set_nth i (Produced info) (threads cf))))
                (dict_get "wafer_id" info :: known_ids cf)).
      { unfold known_ids. rewrite <- map_cons. apply Permutation_map.
        rewrite Hperm. apply Permutation_sym, Permutation_middle. }
      unfold unique_ids, known_ids, goto, with_machine.
      cbn [ctl threads machines results].
      split; [now rewrite (set_nth_map identity i m m' _ Hm Hid)|]. split.
      * eapply Permutation_NoDup; [apply Permutation_sym, Hknown|].
        constructor; [|exact Hnd]. intros Hin.
        rewrite Forall_forall in Hiss. destruct (Hiss _ Hin) as (j & mj & k & Hj & Hk & Hx).
        rewrite Hwid in Hx. injection Hx as Hx.
        assert (Hi' : nth_error ids i = Some (identity m))
          by (rewrite <- Hids, nth_error_map, Hm; reflexivity).
        assert (Hj' : nth_error ids j = Some (identity mj))
          by (rewrite <- Hids, nth_error_map, Hj; reflexivity).
        destruct (Hsep _ _ _ _ _ _ Hi' Hj' Hx) as [Hij Hk'].
        subst j. assert (mj = m) by congruence. subst mj. lia.
      * eapply Permutation_Forall; [apply Permutation_sym, Hknown|].
        constructor.
        -- exists i, m', (wafer_counter m'). rewrite Hid, Hc.
           repeat split; auto.
           apply (set_nth_same i m m' _ Hm).
        -- eapply Forall_impl; [|exact Hiss]. intros x. now apply issued_weaken.
    + assert (Hgrow := set_nth_grows i m m' _ Hm Hid Hcnt).
      pose proof (set_nth_infos i Started AtLoop _ Hp) as Hperm.
      cbn [infos_of app] in Hperm.
      unfold unique_ids, known_ids, goto, with_machine.
      cbn [ctl threads machines results].
      split; [now rewrite (set_nth_map identity i m m' _ Hm Hid)|]. split.
      * eapply Permutation_NoDup; [|exact Hnd]. unfold known_ids.
        apply Permutation_map, Permutation_app_head, Permutation_sym, Hperm.
      * eapply Permutation_Forall.
        -- unfold known_ids.
           apply Permutation_map, Permutation_app_head, Permutation_sym, Hperm.
        -- eapply Forall_impl; [|exact Hiss]. intros x. now apply issued_weaken.
  - (* analysis and save_result *)
    assert (Hold : forall new, infos_of new = [] ->
              Permutation (known_ids cf)
                (dict_get "wafer_id" wafer_info
                 :: map (dict_get "wafer_id")
                      (results (ctl cf) ++ produced_infos (set_nth i new (threads cf))))).
    { intros new Hnew. pose proof (set_nth_infos i (Produced wafer_info) new _ Hp) as Hperm.
      rewrite Hnew in Hperm. cbn [infos_of app] in Hperm.
      unfold known_ids. rewrite <- map_cons. apply Permutation_map.
      rewrite <- Hperm. apply Permutation_sym, Permutation_middle. }
    destruct (process_wafer_with_analysis s w wafer_info) as [r|e] eqn:Hpwa;
      injection Hstep as <-.
    + destruct (save_result_appends (ctl cf) ok r)
        as (r' & Hres & Hkeep & _ & Hms & _).
      set (new := if log_line_ok r then AtLoop else Exited).
      assert (Hnew : infos_of new = []) by (unfold new; now destruct (log_line_ok r)).
      assert (Hknown : Permutation (known_ids cf)
                (map (dict_get "wafer_id")
                   (results (save_result (ctl cf) ok r)
                    ++ produced_infos (set_nth i new (threads cf))))).
      { rewrite (Hold new Hnew), Hres, <- app_assoc, !map_app. cbn [map app].
        rewrite (Hkeep "wafer_id" eq_refl), (analysis_keeps_wafer_id _ _ _ _ Hpwa).
        apply Permutation_middle. }
      unfold unique_ids, known_ids, goto. cbn [ctl threads]. rewrite Hms.
      split; [exact Hids|]. split.
      * eapply Permutation_NoDup; [exact Hknown|exact Hnd].
      * eapply Permutation_Forall; [exact Hknown|exact Hiss].
    + pose proof (Hold Exited eq_refl) as Hknown.
      unfold unique_ids, known_ids, goto. cbn [ctl threads].
      split; [exact Hids|]. split.
      * apply (Permutation_NoDup Hknown) in Hnd. now inversion Hnd.
      * apply (Permutation_Forall Hknown) in Hiss. now inversion Hiss.
  - discriminate.
Qed.

Lemma run_unique (s : scorers) (mw : option nat) (ids : list (string * string))
    (acts : list action) (cf cf' : config) :
  separate ids ->
  run s mw acts cf = Some cf' ->
  unique_ids ids cf -> unique_ids ids cf'.
Proof.
  intros Hsep. revert cf. induction acts as [|a rest IH]; intros cf Hrun Hinv;
    cbn [run] in Hrun.
  - now injection Hrun as <-.
  - destruct (do_action s mw a cf) as [cf1|] eqn:Hdo; [|discriminate].
    apply (IH _ Hrun). destruct a as [|j| |i w ok]; cbn [do_action] in Hdo.
    + injection Hdo as <-. exact Hinv.
    + injection Hdo as <-. unfold stop_machine.
      destruct (nth_error (machines (ctl cf)) j) as [m|] eqn:Hm; [|exact Hinv].
      destruct Hinv as (Hids & Hnd & Hiss).
      unfold unique_ids, known_ids, with_machine. cbn [ctl threads machines results].
      split; [|split; [exact Hnd|]].
      * now rewrite (set_nth_map identity j m (stop m) _ Hm eq_refl).
      * eapply Forall_impl; [|exact Hiss]. intros x.
        apply issued_weaken, (set_nth_grows j m (stop m) _ Hm eq_refl).
        cbn. lia.
    + injection Hdo as <-. exact Hinv.
    + eapply worker_step_unique; eauto.
Qed.

(** Within one run no wafer identifier is given twice: whatever the
    interleaving, the records stored and the raw records still held by the
    threads have pairwise different [wafer_id]s, each the identifier a
    machine gave to a wafer it has counted; this holds for any machines no
    two of which can give the same identifier, in particular those the
    controller creates. *)
Theorem wafer_ids_unique_in_a_run (s : scorers) (mw : option nat)
    (ms : list ManufacturingMachine) (date : string) (acts : list action)
    (cf : config) :
  separate (map identity ms) ->
  run s mw acts (run_simulation_start (new_controller ms) date) = Some cf ->
  NoDup (map (dict_get "wafer_id") (results (ctl cf)))
  /\ NoDup (known_ids cf)
  /\ Forall (issued (machines (ctl cf))) (known_ids cf)
  /\ map identity (machines (ctl cf)) = map identity ms.
Proof.
  intros Hsep Hrun.
  assert (Hstart : unique_ids (map identity ms)
                     (run_simulation_start (new_controller ms) date)).
  { unfold unique_ids, known_ids, run_simulation_start, new_controller,
      start_all_machines. cbn [ctl threads machines results].
    assert (Hnone : produced_infos (map (fun _ : ManufacturingMachine => AtLoop) ms) = []).
    { clear. induction ms as [|m t IH]; [reflexivity|]. exact IH. }
    rewrite Hnone. cbn [app map]. split; [|split; constructor].
    rewrite map_map. reflexivity. }
  destruct (run_unique _ _ _ _ _ _ Hsep Hrun Hstart) as (Hids & Hnd & Hiss).
  repeat split; auto.
  unfold known_ids in Hnd. rewrite map_app in Hnd.
  now apply NoDup_app_remove_r in Hnd.
Qed.

Lemma wafer_ids_unique_in_a_run_witness :
  NoDup (map (dict_get "wafer_id") (results (ctl racing_end))).
Proof.
  refine (proj1 (wafer_ids_unique_in_a_run Fixtures.scorers_55 (Some 5%nat)
                   three_machines "2025-01-01" racing_schedule racing_end _ _)).
  - change (map identity three_machines)
      with (map identity (init_machines Fixtures.generator 1 1 1)).
    apply init_identities_separate.
  - vm_compute. reflexivity.
Defined.

(** *** The store only grows *)

Lemma do_action_appends (s : scorers) (mw : option nat) (a : action) (d : string)
    (cf cf' : config) :
  do_action s mw a cf = Some cf' ->
  simulation_date (ctl cf) = Some d -> d <> "" -> file_behind (ctl cf) ->
  simulation_date (ctl cf') = Some d
  /\ file_behind (ctl cf')
  /\ exists added, results (ctl cf') = (results (ctl cf) ++ added)%list
                   /\ Forall (stamped d) added.
Proof.
  intros Hdo Hd Hne Hfile.
  assert (Hsame : forall c ws t,
            results c = results (ctl cf) -> results_file c = results_file (ctl cf) ->
            simulation_date c = simulation_date (ctl cf) ->
            simulation_date (ctl {| ctl := c; threads := ws; time_up := t |}) = Some d
            /\ file_behind (ctl {| ctl := c; threads := ws; time_up := t |})
            /\ exists added,
                 results (ctl {| ctl := c; threads := ws; time_up := t |})
                 = (results (ctl cf) ++ added)%list /\ Forall (stamped d) added).
  { intros c ws t Hr Hf Hs. cbn [ctl]. split; [congruence|]. split.
    - unfold file_behind. rewrite Hr, Hf. exact Hfile.
    - exists []. rewrite app_nil_r. split; [exact Hr|constructor]. }
  destruct a as [|j| |i w ok]; cbn [do_action] in Hdo.
  - injection Hdo as <-. now apply Hsame.
  - injection Hdo as <-. unfold stop_machine.
    destruct (nth_error (machines (ctl cf)) j); now apply Hsame.
  - injection Hdo as <-. now apply Hsame.
  - unfold worker_step in Hdo.
    destruct (nth_error (threads cf) i) as [p|]; [|discriminate].
    destruct (nth_error (machines (ctl cf)) i) as [m|]; [|destruct p; discriminate].
    destruct p as [| | | |wafer_info|].
    + destruct (negb _ || _); injection Hdo as <-; now apply Hsame.
    + destruct (cap_reached _ _); injection Hdo as <-; now apply Hsame.
    + destruct (negb (is_running m)); injection Hdo as <-; now apply Hsame.
    + destruct (process_wafer_running m w) as [m' [info|]]; injection Hdo as <-;
        now apply Hsame.
    + destruct (process_wafer_with_analysis s w wafer_info) as [r|e];
        injection Hdo as <-; [|now apply Hsame].
      destruct (save_result_appends (ctl cf) ok r)
        as (r' & Hres & _ & Hdate & _ & Hsd & _ & Hfile').
      unfold goto. cbn [ctl]. split; [congruence|]. split.
      * unfold file_behind in *. rewrite Hfile', Hres. destruct ok.
        -- exists []. now rewrite app_nil_r.
        -- destruct (results_file (ctl cf)) as [|l|]; [exact I| |exact I].
           destruct Hfile as [rest Hrest]. exists (rest ++ [r'])%list.
           now rewrite app_assoc, <- Hrest.
        -- exact I.
      * exists [r']. split; [exact Hres|]. constructor; [|constructor].
        now apply Hdate.
    + discriminate.
Qed.

(** What a step leaves in the results file when it stores a record. *)
Lemma worker_step_file (s : scorers) (mw : option nat) (i : nat) (w : world)
    (written : write_outcome) (cf cf' : config) :
  worker_step s mw i w written cf = Some cf' ->
  results (ctl cf') <> results (ctl cf) ->
  results_file (ctl cf')
  = match written with
    | Written => Whole (results (ctl cf'))
    | NotOpened => results_file (ctl cf)
    | CutShort => Broken
    end.
Proof.
  unfold worker_step. intros Hstep Hnew.
  destruct (nth_error (threads cf) i) as [p|]; [|discriminate].
  destruct (nth_error (machines (ctl cf)) i) as [m|]; [|destruct p; discriminate].
  destruct p as [| | | |wafer_info|].
  - destruct (negb _ || _); injection Hstep as <-; now contradiction Hnew.
  - destruct (cap_reached _ _); injection Hstep as <-; now contradiction Hnew.
  - destruct (negb (is_running m)); injection Hstep as <-; now contradiction Hnew.
  - destruct (process_wafer_running m w) as [m' [info|]]; injection Hstep as <-;
      now contradiction Hnew.
  - destruct (process_wafer_with_analysis s w wafer_info) as [r|e];
      injection Hstep as <-; [|now contradiction Hnew].
    destruct (save_result_appends (ctl cf) written r)
      as (r' & Hres & _ & _ & _ & _ & _ & Hfile').
    unfold goto. cbn [ctl]. rewrite Hfile', Hres. reflexivity.
  - discriminate.
Qed.

Lemma run_appends (s : scorers) (mw : option nat) (acts : list action) (d : string)
    (cf cf' : config) :
  run s mw acts cf = Some cf' ->
  simulation_date (ctl cf) = Some d -> d <> "" -> file_behind (ctl cf) ->
  simulation_date (ctl cf') = Some d
  /\ file_behind (ctl cf')
  /\ exists added, results (ctl cf') = (results (ctl cf) ++ added)%list
                   /\ Forall (stamped d) added.
Proof.
  revert cf. induction acts as [|a rest IH]; intros cf Hrun Hd Hne Hfile;
    cbn [run] in Hrun.
  - injection Hrun as <-. repeat split; auto. exists [].
    rewrite app_nil_r. split; [reflexivity|constructor].
  - destruct (do_action s mw a cf) as [cf1|] eqn:Hdo; [|discriminate].
    destruct (do_action_appends _ _ _ _ _ _ Hdo Hd Hne Hfile)
      as (Hd1 & Hf1 & added1 & Hr1 & Hs1).
    destruct (IH _ Hrun Hd1 Hne Hf1) as (Hd' & Hf' & added & Hr & Hs).
    repeat split; auto. exists (added1 ++ added)%list.
    rewrite Hr, Hr1, app_assoc. split; [reflexivity|]. now apply Forall_app.
Qed.

(** The result store of a run is append-only and dated: every record
    stored carries the date of the run, and whatever the run does next
    only adds records after those already stored.  The results file,
    whenever it holds a JSON list, holds a prefix of the list in memory;
    a step that stores a record leaves in the file the whole new list
    when the rewrite succeeds, the old content when the file could not be
    opened, and a broken text when the rewrite fails after the file was
    truncated. *)
Theorem store_is_append_only (s : scorers) (mw : option nat)
    (ms : list ManufacturingMachine) (date : string) (acts more : list action)
    (cf cf' : config) :
  date <> "" ->
  run s mw acts (run_simulation_start (new_controller ms) date) = Some cf ->
  run s mw more cf = Some cf' ->
  Forall (stamped date) (results (ctl cf))
  /\ file_behind (ctl cf)
  /\ (exists added, results (ctl cf') = (results (ctl cf) ++ added)%list
                    /\ Forall (stamped date) added)
  /\ (forall i w written cf1,
        worker_step s mw i w written cf = Some cf1 ->
        results (ctl cf1) <> results (ctl cf) ->
        results_file (ctl cf1)
        = match written with
          | Written => Whole (results (ctl cf1))
          | NotOpened => results_file (ctl cf)
          | CutShort => Broken
          end).
Proof.
  intros Hne Hrun Hmore.
  assert (Hstart : file_behind (ctl (run_simulation_start (new_controller ms) date)))
    by exact I.
  destruct (run_appends _ _ _ date _ _ Hrun eq_refl Hne Hstart)
    as (Hd & Hf & added & Hr & Hs).
  cbn in Hr. split; [now rewrite Hr|]. split; [exact Hf|]. split.
  - destruct (run_appends _ _ _ date _ _ Hmore Hd Hne Hf)
      as (_ & _ & added' & Hr' & Hs').
    exists added'. now split.
  - intros i w written cf1. apply worker_step_file.
Qed.

Lemma store_is_append_only_witness :
  Forall (stamped "2025-01-01") (results (ctl racing_end))
  /\ file_behind (ctl racing_end).
Proof.
  refine ((fun H => conj (proj1 H) (proj1 (proj2 H)))
            (store_is_append_only Fixtures.scorers_55 (Some 5%nat) three_machines
               "2025-01-01" racing_schedule [] racing_end racing_end _ _ _)).
  - discriminate.
  - vm_compute. reflexivity.
  - reflexivity.
Defined.

(** *** Stopping *)

Lemma stop_fixed (m : ManufacturingMachine) : is_running m = false -> stop m = m.
Proof. destruct m. cbn. now intros ->. Qed.

Lemma map_stop_fixed (ms : list ManufacturingMachine) :
  Forall (fun m => is_running m = false) ms -> map stop ms = ms.
Proof.
  induction 1 as [|m t Hm _ IH]; [reflexivity|].
  cbn [map]. now rewrite IH, stop_fixed.
Qed.

Lemma set_nth_fixed {A : Type} (i : nat) (x : A) (l : list A) :
  nth_error l i = Some x -> set_nth i x l = l.
Proof.
  intros H. apply nth_error_split in H as (l1 & l2 & -> & <-).
  apply set_nth_split.
Qed.

Lemma pending_set_nth (i : nat) (old new : pc) (l : list pc) :
  nth_error l i = Some old ->
  (pending (set_nth i new l) + List.length (infos_of old)
   = pending l + List.length (infos_of new))%nat.
Proof.
  intros H. pose proof (Permutation_length (set_nth_infos i old new l H)) as Hlen.
  rewrite !length_app in Hlen. unfold pending. lia.
Qed.

Lemma set_nth_Forall {A : Type} (P : A -> Prop) (i : nat) (x : A) (l : list A) :
  Forall P l -> P x -> Forall P (set_nth i x l).
Proof.
  intros Hl Hx. unfold set_nth. apply Forall_app. split.
  - rewrite <- (firstn_skipn i l) in Hl. now apply Forall_app in Hl.
  - constructor; [exact Hx|].
    rewrite <- (firstn_skipn (S i) l) in Hl. now apply Forall_app in Hl.
Qed.

Lemma set_nth_lookup {A : Type} (i j : nat) (old new : A) (l : list A) :
  nth_error l i = Some old ->
  nth_error (set_nth i new l) j = if Nat.eqb j i then Some new else nth_error l j.
Proof.
  intros H. destruct (Nat.eqb_spec j i) as [->|Hne].
  - now apply (set_nth_same i old).
  - now apply (set_nth_other i j old).
Qed.

Lemma started_set_nth (i : nat) (old new : pc) (l : list pc) :
  nth_error l i = Some old ->
  (started (set_nth i new l) + begun old = started l + begun new)%nat.
Proof.
  intros H. apply nth_error_split in H as (l1 & l2 & -> & <-).
  rewrite set_nth_split. unfold started. rewrite !map_app, !list_sum_app.
  cbn [map]. unfold list_sum. cbn [fold_right]. lia.
Qed.

(** The flags are only ever cleared during a run: a machine that runs
    after an action ran before it, and the action was not its stop. *)
Lemma do_action_flags (s : scorers) (mw : option nat) (a : action)
    (cf cf' : config) :
  do_action s mw a cf = Some cf' ->
  (forall i m', nth_error (machines (ctl cf')) i = Some m' ->
     exists m, nth_error (machines (ctl cf)) i = Some m
               /\ (is_running m' = false
                   \/ (is_running m' = is_running m /\ a <> StopMachine i)))
  /\ (ctl_is_running (ctl cf') = false
      \/ (ctl_is_running (ctl cf') = ctl_is_running (ctl cf) /\ a <> StopController)).
Proof.
  intros Hdo.
  assert (Hsame : forall c ws t (b : action),
            machines c = machines (ctl cf) ->
            (forall i, b <> StopMachine i) ->
            forall i m',
              nth_error (machines (ctl {| ctl := c; threads := ws; time_up := t |})) i
              = Some m' ->
              exists m, nth_error (machines (ctl cf)) i = Some m
                        /\ (is_running m' = false
                            \/ (is_running m' = is_running m /\ b <> StopMachine i))).
  { intros c ws t b Hm Hb i m' Hi. cbn [ctl] in Hi. rewrite Hm in Hi.
    exists m'. split; [exact Hi|]. right. split; [reflexivity|apply Hb]. }
  assert (Hat : forall k mk mk' c ws t (b : action),
            nth_error (machines (ctl cf)) k = Some mk ->
            machines c = set_nth k mk' (machines (ctl cf)) ->
            is_running mk' = false \/ (is_running mk' = is_running mk
                                        /\ forall i, b <> StopMachine i) ->
            (forall i, i <> k -> b <> StopMachine i) ->
            forall i m',
              nth_error (machines (ctl {| ctl := c; threads := ws; time_up := t |})) i
              = Some m' ->
              exists m, nth_error (machines (ctl cf)) i = Some m
                        /\ (is_running m' = false
                            \/ (is_running m' = is_running m /\ b <> StopMachine i))).
  { intros k mk mk' c ws t b Hk Hm Hflag Hb i m' Hi. cbn [ctl] in Hi.
    rewrite Hm, (set_nth_lookup k i mk mk' _ Hk) in Hi.
    destruct (Nat.eqb_spec i k) as [->|Hne].
    - injection Hi as <-. exists mk. split; [exact Hk|].
      destruct Hflag as [H|[H Hb']]; [now left|]. right. split; [exact H|apply Hb'].
    - exists m'. split; [exact Hi|]. right. split; [reflexivity|now apply Hb]. }
  destruct a as [|j| |i w ok]; cbn [do_action] in Hdo.
  - injection Hdo as <-. split.
    + apply Hsame; [reflexivity|discriminate].
    + right. split; [reflexivity|discriminate].
  - injection Hdo as <-. unfold stop_machine. split.
    + destruct (nth_error (machines (ctl cf)) j) as [mj|] eqn:Hj.
      * apply (Hat j mj (stop mj)); [exact Hj|reflexivity|now left|].
        intros i Hi E. injection E as E. congruence.
      * intros i m' Hi. cbn [ctl] in Hi. exists m'. split; [exact Hi|].
        right. split; [reflexivity|]. intros E. injection E as E. congruence.
    + right. split; [|discriminate].
      destruct (nth_error (machines (ctl cf)) j); reflexivity.
  - injection Hdo as <-. split.
    + apply Hsame; [reflexivity|discriminate].
    + now left.
  - unfold worker_step in Hdo.
    destruct (nth_error (threads cf) i) as [p|] eqn:Hp; [|discriminate].
    destruct (nth_error (machines (ctl cf)) i) as [m|] eqn:Hm;
      [|destruct p; discriminate].
    assert (Hstep : forall b : nat, Step i w ok <> StopMachine b) by discriminate.
    destruct p as [| | | |wafer_info|].
    + destruct (negb _ || _); injection Hdo as <-;
        (split; [apply Hsame; [reflexivity|exact Hstep]
                |right; split; [reflexivity|discriminate]]).
    + destruct (cap_reached _ _); injection Hdo as <-;
        (split; [apply Hsame; [reflexivity|exact Hstep]
                |right; split; [reflexivity|discriminate]]).
    + destruct (negb (is_running m)); injection Hdo as <-;
        (split; [apply Hsame; [reflexivity|exact Hstep]
                |right; split; [reflexivity|discriminate]]).
    + destruct (process_wafer_running_identity m w) as (_ & _ & Hflag & _).
      destruct (process_wafer_running m w) as [m' [info|]]; cbn [fst] in Hflag;
        injection Hdo as <-;
        (split; [apply (Hat i m m'); [exact Hm|reflexivity|right; now split|]
                |right; split; [reflexivity|discriminate]]);
        intros b _; apply Hstep.
    + destruct (process_wafer_with_analysis s w wafer_info) as [r|e];
        injection Hdo as <-.
      * destruct (save_result_appends (ctl cf) ok r)
          as (r' & _ & _ & _ & Hmach & _ & Hrun & _).
        split; [apply Hsame; [exact Hmach|exact Hstep]|].
        right. split; [exact Hrun|discriminate].
      * split; [apply Hsame; [reflexivity|exact Hstep]|].
        right. split; [reflexivity|discriminate].
    + discriminate.
Qed.

Lemma run_flags (s : scorers) (mw : option nat) (acts : list action)
    (cf cf' : config) :
  run s mw acts cf = Some cf' ->
  (forall i m', nth_error (machines (ctl cf')) i = Some m' ->
     exists m, nth_error (machines (ctl cf)) i = Some m
               /\ (is_running m' = false
                   \/ (is_running m' = is_running m /\ ~ In (StopMachine i) acts)))
  /\ (ctl_is_running (ctl cf') = false
      \/ (ctl_is_running (ctl cf') = ctl_is_running (ctl cf)
          /\ ~ In StopController acts)).
Proof.
  revert cf. induction acts as [|a rest IH]; intros cf Hrun; cbn [run] in Hrun.
  - injection Hrun as <-. split.
    + intros i m' Hi. exists m'. split; [exact Hi|]. right. split; [reflexivity|].
      intros [].
    + right. split; [reflexivity|]. intros [].
  - destruct (do_action s mw a cf) as [cf1|] eqn:Hdo; [|discriminate].
    destruct (IH _ Hrun) as [Hms Hctl].
    destruct (do_action_flags _ _ _ _ _ Hdo) as [Hms1 Hctl1]. split.
    + intros i m' Hi. destruct (Hms i m' Hi) as (m1 & Hi1 & H1).
      destruct (Hms1 i m1 Hi1) as (m & Hi0 & H0). exists m. split; [exact Hi0|].
      destruct H1 as [H1|[H1 Hn1]]; [now left|].
      destruct H0 as [H0|[H0 Hn0]]; [left; congruence|].
      right. split; [congruence|]. intros [E|E]; [now apply Hn0|now apply Hn1].
    + destruct Hctl as [H1|[H1 Hn1]]; [now left|].
      destruct Hctl1 as [H0|[H0 Hn0]]; [left; congruence|].
      right. split; [congruence|]. intros [E|E]; [now apply Hn0|now apply Hn1].
Qed.

Lemma run_app (s : scorers) (mw : option nat) (a b : list action) (cf : config) :
  run s mw (a ++ b) cf
  = match run s mw a cf with
    | Some cf1 => run s mw b cf1
    | None => None
    end.
Proof.
  revert cf. induction a as [|x a IH]; intros cf; [reflexivity|].
  cbn [app run]. destruct (do_action s mw x cf); [apply IH|reflexivity].
Qed.

(** The machines one after the other: those before the [k]th are
    stopped already. *)
Lemma stop_machines_in_turn (s : scorers) (mw : option nat)
    (l2 l1 : list ManufacturingMachine) (c : Controller) (ws : list pc) (t : bool) :
  machines c = (l1 ++ l2)%list ->
  exists c',
    run s mw (map StopMachine (seq (List.length l1) (List.length l2)))
      {| ctl := c; threads := ws; time_up := t |}
    = Some {| ctl := c'; threads := ws; time_up := t |}
    /\ machines c' = (l1 ++ map stop l2)%list
    /\ results c' = results c
    /\ results_file c' = results_file c
    /\ ctl_is_running c' = ctl_is_running c
    /\ simulation_date c' = simulation_date c.
Proof.
  revert l1 c. induction l2 as [|m l2 IH]; intros l1 c Hm.
  - exists c. cbn [List.length seq map run]. rewrite Hm, app_nil_r.
    repeat split.
  - cbn [List.length seq map run do_action ctl threads time_up].
    assert (Hk : nth_error (machines c) (List.length l1) = Some m).
    { rewrite Hm, nth_error_app2, Nat.sub_diag by lia. reflexivity. }
    unfold stop_machine. rewrite Hk.
    destruct (IH (l1 ++ [stop m])%list (with_machine c (List.length l1) (stop m)))
      as (c' & Hrun & Hms & Hr & Hf & Hc & Hd).
    { unfold with_machine. cbn [machines]. rewrite Hm, RunFacts.set_nth_split.
      now rewrite <- app_assoc. }
    rewrite length_app in Hrun. cbn [List.length] in Hrun.
    rewrite Nat.add_1_r in Hrun.
    exists c'. split; [exact Hrun|]. rewrite Hms, <- app_assoc.
    repeat split; assumption.
Qed.

(** A call of [stop_all_machines] that nothing interrupts is the
    schedule [stopping]. *)
Lemma stopping_is_stop_all_machines (s : scorers) (mw : option nat) (cf : config) :
  run s mw (stopping (List.length (machines (ctl cf)))) cf
  = Some {| ctl := stop_all_machines (ctl cf); threads := threads cf;
            time_up := time_up cf |}.
Proof.
  destruct cf as [c ws t]. cbn [ctl threads time_up]. unfold stopping.
  rewrite run_app.
  destruct (stop_machines_in_turn s mw (machines c) [] c ws t eq_refl)
    as (c' & Hrun & Hms & Hr & Hf & Hc & Hd).
  cbn [List.length app] in Hrun, Hms. rewrite Hrun.
  cbn [run do_action ctl threads time_up]. unfold stop_controller, stop_all_machines.
  now rewrite Hms, Hr, Hf, Hd.
Qed.

Lemma finishes_begun_refl (cf : config) : finishes_begun cf cf.
Proof. intros i m p Hm Hp. exists m, p. repeat split; auto. Qed.

Lemma finishes_begun_trans (cf cf1 cf2 : config) :
  finishes_begun cf cf1 -> finishes_begun cf1 cf2 -> finishes_begun cf cf2.
Proof.
  intros H1 H2 i m p Hm Hp.
  destruct (H1 i m p Hm Hp) as (m1 & p1 & Hm1 & Hp1 & Hc1 & Hle1 & Hpr1).
  destruct (H2 i m1 p1 Hm1 Hp1) as (m2 & p2 & Hm2 & Hp2 & Hc2 & Hle2 & Hpr2).
  exists m2, p2. repeat split; auto; lia.
Qed.

(** A step of thread [k] that takes its machine from [mk] to [mk'] and
    itself from [pk] to [pk']. *)
Lemma finishes_begun_at (cf cf' : config) (k : nat)
    (mk mk' : ManufacturingMachine) (pk pk' : pc) :
  nth_error (machines (ctl cf)) k = Some mk ->
  nth_error (threads cf) k = Some pk ->
  machines (ctl cf') = set_nth k mk' (machines (ctl cf)) ->
  threads cf' = set_nth k pk' (threads cf) ->
  (wafer_counter mk' + begun pk' = wafer_counter mk + begun pk)%nat ->
  (processed_wafers mk <= processed_wafers mk')%nat ->
  (processed_wafers mk' + begun pk' <= processed_wafers mk + begun pk)%nat ->
  finishes_begun cf cf'.
Proof.
  intros Hm Hp Hms Hts Hc Hle Hpr i m p Hi Hpi.
  rewrite Hms, Hts, (set_nth_lookup k i mk mk' _ Hm), (set_nth_lookup k i pk pk' _ Hp).
  destruct (Nat.eqb_spec i k) as [->|Hne].
  - assert (m = mk) by congruence. assert (p = pk) by congruence. subst.
    exists mk', pk'. repeat split; auto.
  - exists m, p. repeat split; auto.
Qed.

Lemma do_action_stopped (s : scorers) (mw : option nat) (a : action)
    (cf cf' : config) :
  do_action s mw a cf = Some cf' ->
  stopped (ctl cf) ->
  stopped (ctl cf')
  /\ finishes_begun cf cf'
  /\ (List.length (results (ctl cf')) + pending (threads cf') + started (threads cf')
      <= List.length (results (ctl cf)) + pending (threads cf)
         + started (threads cf))%nat.
Proof.
  intros Hdo [Hctl Hms].
  destruct a as [|j| |i w ok]; cbn [do_action] in Hdo.
  - injection Hdo as <-. cbn [ctl threads]. split; [now split|].
    split; [|lia]. intros i m p Hm Hp. exists m, p. repeat split; auto.
  - injection Hdo as <-. unfold stop_machine.
    destruct (nth_error (machines (ctl cf)) j) as [mj|] eqn:Hj.
    + cbn [ctl threads with_machine results machines]. split; [|split; [|lia]].
      * split; [exact Hctl|]. cbn [machines]. now apply set_nth_Forall.
      * intros i m p Hm Hp. unfold with_machine. cbn [ctl threads machines].
        rewrite (set_nth_lookup j i mj (stop mj) _ Hj).
        destruct (Nat.eqb_spec i j) as [->|Hne].
        -- assert (m = mj) by congruence. subst. exists (stop mj), p.
           repeat split; auto.
        -- exists m, p. repeat split; auto.
    + cbn [ctl threads]. split; [now split|]. split; [|lia].
      intros i m p Hm Hp. exists m, p. repeat split; auto.
  - injection Hdo as <-. cbn [ctl threads stop_controller results machines].
    split; [now split|]. split; [|lia].
    intros i m p Hm Hp. exists m, p. repeat split; auto.
  - unfold worker_step in Hdo.
    destruct (nth_error (threads cf) i) as [p|] eqn:Hp; [|discriminate].
    destruct (nth_error (machines (ctl cf)) i) as [m|] eqn:Hm;
      [|destruct p; discriminate].
    assert (Hoff : is_running m = false).
    { rewrite Forall_forall in Hms. apply Hms. eapply nth_error_In; eauto. }
    assert (Hquiet : forall new,
              (List.length (infos_of new) <= List.length (infos_of p))%nat ->
              begun new = begun p ->
              stopped (ctl (goto cf (ctl cf) i new))
              /\ finishes_begun cf (goto cf (ctl cf) i new)
              /\ (List.length (results (ctl (goto cf (ctl cf) i new)))
                  + pending (threads (goto cf (ctl cf) i new))
                  + started (threads (goto cf (ctl cf) i new))
                  <= List.length (results (ctl cf)) + pending (threads cf)
                     + started (threads cf))%nat).
    { intros new Hle Hb. pose proof (pending_set_nth i p new _ Hp).
      pose proof (started_set_nth i p new _ Hp).
      unfold goto. cbn [ctl threads]. split; [now split|]. split; [|lia].
      apply (finishes_begun_at _ _ i m m p new Hm Hp); cbn [ctl threads]; try lia.
      - symmetry. now apply set_nth_fixed.
      - reflexivity. }
    destruct p as [| | | |wafer_info|].
    + destruct (negb _ || _); injection Hdo as <-; apply Hquiet; cbn; lia.
    + destruct (cap_reached _ _); injection Hdo as <-; apply Hquiet; cbn; lia.
    + rewrite Hoff in Hdo. cbn [negb] in Hdo. injection Hdo as <-.
      apply Hquiet; cbn; lia.
    + destruct (process_wafer_running_identity m w) as (_ & _ & Hflag & _).
      pose proof (pending_set_nth i Started) as Hpend.
      pose proof (started_set_nth i Started) as Hstart.
      assert (Hcount : wafer_counter (fst (process_wafer_running m w))
                       = S (wafer_counter m)
                       /\ (processed_wafers m
                           <= processed_wafers (fst (process_wafer_running m w))
                           <= S (processed_wafers m))%nat).
      { unfold process_wafer_running. destruct (generate_image _ _ _ _ _);
          cbn [fst incr_processed_wafers incr_wafer_counter wafer_counter
               processed_wafers]; lia. }
      destruct (process_wafer_running m w) as [m' [info|]]; cbn [fst] in *;
        injection Hdo as <-; unfold goto, with_machine;
        cbn [ctl threads machines results ctl_is_running].
      * specialize (Hpend (Produced info) _ Hp). specialize (Hstart (Produced info) _ Hp).
        cbn [infos_of begun List.length] in Hpend, Hstart.
        split; [|split; [|lia]].
        -- split; [exact Hctl|]. cbn [machines]. apply set_nth_Forall; [exact Hms|].
           congruence.
        -- apply (finishes_begun_at _ _ i m m' Started (Produced info) Hm Hp);
             cbn [ctl threads machines begun]; try reflexivity; lia.
      * specialize (Hpend AtLoop _ Hp). specialize (Hstart AtLoop _ Hp).
        cbn [infos_of begun List.length] in Hpend, Hstart.
        split; [|split; [|lia]].
        -- split; [exact Hctl|]. cbn [machines]. apply set_nth_Forall; [exact Hms|].
           congruence.
        -- apply (finishes_begun_at _ _ i m m' Started AtLoop Hm Hp);
             cbn [ctl threads machines begun]; try reflexivity; lia.
    + pose proof (pending_set_nth i (Produced wafer_info)) as Hpend.
      pose proof (started_set_nth i (Produced wafer_info)) as Hstart.
      destruct (process_wafer_with_analysis s w wafer_info) as [r|e];
        injection Hdo as <-.
      * destruct (save_result_appends (ctl cf) ok r)
          as (r' & Hres & _ & _ & Hmach & _ & Hrun & _).
        set (new := if log_line_ok r then AtLoop else Exited).
        assert (Hnew : infos_of new = [] /\ begun new = 0%nat)
          by (unfold new; destruct (log_line_ok r); split; reflexivity).
        destruct Hnew as [Hinfo Hb].
        specialize (Hpend new _ Hp). specialize (Hstart new _ Hp).
        rewrite Hinfo, Hb in *. cbn [infos_of begun List.length] in Hpend, Hstart.
        unfold goto, stopped. cbn [ctl threads]. rewrite Hmach, Hrun, Hres, length_app.
        cbn [List.length]. split; [now split|]. split; [|lia].
        apply (finishes_begun_at _ _ i m m (Produced wafer_info) new Hm Hp);
          cbn [ctl threads begun]; try lia.
        -- rewrite Hmach. symmetry. now apply set_nth_fixed.
        -- reflexivity.
      * apply Hquiet; cbn; lia.
    + discriminate.
Qed.

Lemma run_stopped (s : scorers) (mw : option nat) (acts : list action)
    (cf cf' : config) :
  run s mw acts cf = Some cf' ->
  stopped (ctl cf) ->
  stopped (ctl cf')
  /\ finishes_begun cf cf'
  /\ (List.length (results (ctl cf')) + pending (threads cf') + started (threads cf')
      <= List.length (results (ctl cf)) + pending (threads cf)
         + started (threads cf))%nat.
Proof.
  revert cf. induction acts as [|a rest IH]; intros cf Hrun Hst; cbn [run] in Hrun.
  - injection Hrun as <-. split; [exact Hst|]. split; [apply finishes_begun_refl|lia].
  - destruct (do_action s mw a cf) as [cf1|] eqn:Hdo; [|discriminate].
    destruct (do_action_stopped _ _ _ _ _ Hdo Hst) as (Hst1 & Hf1 & Hl1).
    destruct (IH _ Hrun Hst1) as (Hst' & Hf' & Hl').
    split; [exact Hst'|]. split; [|lia].
    now apply (finishes_begun_trans cf cf1 cf').
Qed.

(** Once [stop_all_machines] has stopped every machine and cleared the
    controller's flag, whatever the threads did meanwhile, every machine
    and the controller are stopped and stay so.  From then on a machine
    numbers and processes no wafer, except the one its thread had begun:
    a thread that was inside [process_wafer], past the test of
    [is_running], when its machine was stopped still numbers that wafer
    and may store its record.  The records stored, the records held and
    the wafers begun never grow in total. *)
Theorem stop_all_machines_halts_production (s : scorers) (mw : option nat)
    (during after : list action) (cf cf1 cf2 : config) :
  run s mw during cf = Some cf1 ->
  (forall i, (i < List.length (machines (ctl cf)))%nat -> In (StopMachine i) during) ->
  In StopController during ->
  run s mw after cf1 = Some cf2 ->
  stopped (ctl cf1)
  /\ stopped (ctl cf2)
  /\ finishes_begun cf1 cf2
  /\ (List.length (results (ctl cf2)) + pending (threads cf2) + started (threads cf2)
      <= List.length (results (ctl cf1)) + pending (threads cf1)
         + started (threads cf1))%nat.
Proof.
  intros Hduring Hall Hflag Hafter.
  assert (Hst : stopped (ctl cf1)).
  { destruct (run_flags _ _ _ _ _ Hduring) as [Hms Hctl]. split.
    - destruct Hctl as [H|[_ H]]; [exact H|contradiction].
    - apply Forall_forall. intros m1 Hin. apply In_nth_error in Hin as [i Hi].
      destruct (Hms i m1 Hi) as (m & Hm & [H|[_ H]]); [exact H|].
      exfalso. apply H, Hall. apply nth_error_Some. congruence. }
  split; [exact Hst|]. now apply (run_stopped s mw after).
Qed.

End RunInvariants.

(* ------------------------------------------------------------------ *)
(** ** The records the controller builds, as the readers see them *)

Module RecordFacts.
Import Py Simulation Aggregator Report Props PyFacts RunFacts RunInvariants.

Lemma stop_all_machines_halts_production_witness :
  stopped (ctl stopped_machines)
  /\ stopped (ctl halted)
  /\ finishes_begun stopped_machines halted.
Proof.
  refine ((fun H => conj (proj1 H) (conj (proj1 (proj2 H)) (proj1 (proj2 (proj2 H)))))
            (stop_all_machines_halts_production Fixtures.scorers_55 (Some 5%nat)
               (stopping 3) halting_schedule producing stopped_machines halted
               _ _ _ _)).
  - vm_compute. reflexivity.
  - intros i Hi. change (List.length (machines (ctl producing))) with 3%nat in Hi.
    unfold stopping. apply in_or_app. left. apply in_map, in_seq. lia.
  - unfold stopping. apply in_or_app. right. now left.
  - vm_compute. reflexivity.
Defined.

(** In that run the wafer thread 0 had begun is numbered and stored
    after the stop; thread 1, which had not called [process_wafer] yet,
    produces nothing. *)
Example wafer_begun_before_the_stop :
  (List.length (results (ctl producing)),
   map wafer_counter (machines (ctl stopped_machines)),
   started (threads stopped_machines))
  = (0%nat, [0%nat; 0%nat; 0%nat], 1%nat)
  /\ (List.length (results (ctl halted)),
      map wafer_counter (machines (ctl halted)),
      started (threads halted), all_exited halted)
     = (1%nat, [1%nat; 0%nat; 0%nat], 0%nat, true).
Proof. split; vm_compute; reflexivity. Qed.

Lemma run_defect_count_has_key (s : scorers) (image_path : pyval) :
  dict_has "defect_percentage" (run_defect_count s image_path) = true.
Proof.
  unfold run_defect_count. destruct (defect_counter s) as [f|]; [|reflexivity].
  destruct (f image_path) as [d|msg]; [|reflexivity].
  destruct (negb (nonempty d) || negb (dict_has "defect_percentage" d)) eqn:E;
    [reflexivity|].
  apply orb_false_iff in E as [_ E]. now apply negb_false_iff in E.
Qed.

Lemma format_confidence_number (s : scorers) (c : pyval) (txt : string) :
  format_confidence s c = Ok txt -> exists q, as_number c = Some q.
Proof.
  unfold format_confidence. destruct (as_number c) as [q|]; [eauto|].
  destruct c; discriminate.
Qed.

(** The fields of a record that went through the analysis. *)
Lemma analysed_fields (s : scorers) (w : world) (info r : dict) :
  process_wafer_with_analysis s w info = Ok r ->
  image_found w info = Ok true ->
  exists (q : Q) (v : pyval) (p dc : dict),
    dict_get "defect_percentage" r = Some v
    /\ as_number v = Some q
    /\ dict_get "quality_status" r
       = Some (PStr (if Qle_bool q 40 then "PASS" else "FAIL"))
    /\ dict_get "threshold_exceeded" r = Some (PBool (negb (Qle_bool q 40)))
    /\ dict_get "prediction" r = Some (PDict p)
    /\ optional_number "Confidence Score" p = true
    /\ dict_get "defect_count" r = Some (PDict dc)
    /\ dict_get "defect_percentage" dc = Some v.
Proof.
  unfold process_wafer_with_analysis, image_found, image_path_of.
  set (image_path := dict_get_or "image_path" PNone info).
  intros H Hfound. rewrite Hfound in H. cbn [bind negb] in H.
  pose proof (run_defect_count_has_key s image_path) as Hkey.
  set (dc := run_defect_count s image_path) in *.
  set (p := run_prediction s image_path) in *.
  unfold dict_has in Hkey.
  destruct (dict_get "defect_percentage" dc) as [v|] eqn:Hv; [|discriminate].
  assert (Hor : dict_get_or "defect_percentage" (PNum 0) dc = v)
    by (unfold dict_get_or; now rewrite Hv).
  rewrite Hor in H.
  destruct (le_float v defect_threshold) as [b|e] eqn:Hle; cbn [bind] in H;
    [|discriminate].
  rewrite (le_float_gt_float _ _ _ Hle) in H. cbn [bind] in H.
  destruct (format_confidence s _) as [txt|e] eqn:Hconf; cbn [bind] in H;
    [|discriminate].
  injection H as <-.
  destruct (le_float_number _ _ _ Hle) as (q & Hq & ->).
  exists q, v, p, dc. unfold defect_threshold.
  repeat split; auto.
  - rewrite dict_get_set_other by reflexivity. apply dict_get_set_same.
  - rewrite !(dict_get_set_other "quality_status") by reflexivity.
    apply dict_get_set_same.
  - apply dict_get_set_same.
  - rewrite !(dict_get_set_other "prediction") by reflexivity.
    apply dict_get_set_same.
  - apply format_confidence_number in Hconf as (c & Hc).
    unfold optional_number, dict_get_or in *.
    destruct (dict_get "Confidence Score" p) as [x|]; [|reflexivity].
    destruct x as [| [|] | | | |]; try reflexivity; simpl in Hc; discriminate.
  - rewrite !(dict_get_set_other "defect_count") by reflexivity.
    apply dict_get_set_same.
Qed.

(** A record that went through the analysis and was stored reads the
    same for every reader: the aggregator counts it as an anomaly at its
    threshold of 40 exactly when its status is a fail, which is also what
    its [threshold_exceeded] says; its numbers are readable by the summary
    and by [get_anomalies]; and the percentage the report reads under
    [defect_count] is the one stored at the top of the record. *)
Theorem analysed_record_reads_the_same (s : scorers) (w : world) (info r : dict)
    (c : Controller) (write_ok : write_outcome) :
  process_wafer_with_analysis s w info = Ok r ->
  image_found w info = Ok true ->
  exists r' : dict,
    results (save_result c write_ok r) = (results c ++ [r'])%list
    /\ exceeds DEFECT_PERCENTAGE_THRESHOLD r' = is_fail r'
    /\ dict_get "threshold_exceeded" r' = Some (PBool (is_fail r'))
    /\ percentage_readable r' = true
    /\ numbers_ok r' = true
    /\ log_line_ok r' = true
    /\ Some (_get_defect_pct r') = option_map Ok (dict_get "defect_percentage" r').
Proof.
  intros Hpwa Hfound.
  destruct (analysed_fields _ _ _ _ Hpwa Hfound)
    as (q & v & p & dc & Hpct & Hq & Hstatus & Hexc & Hpred & Hconf & Hdc & Hv).
  destruct (save_result_appends c write_ok r) as (r' & Hres & Hkeep & _).
  exists r'. split; [exact Hres|].
  rewrite <- (Hkeep "defect_percentage" eq_refl) in Hpct.
  rewrite <- (Hkeep "quality_status" eq_refl) in Hstatus.
  rewrite <- (Hkeep "threshold_exceeded" eq_refl) in Hexc.
  rewrite <- (Hkeep "prediction" eq_refl) in Hpred.
  rewrite <- (Hkeep "defect_count" eq_refl) in Hdc.
  assert (Hfail : is_fail r' = negb (Qle_bool q 40)).
  { unfold is_fail, is_pass, dict_get_or. rewrite Hstatus.
    now destruct (Qle_bool q 40). }
  assert (Hkey : percentage_key r' = q).
  { unfold percentage_key, dict_get_or. now rewrite Hpct, Hq. }
  repeat split.
  - unfold exceeds, DEFECT_PERCENTAGE_THRESHOLD. now rewrite Hkey, Hfail.
  - now rewrite Hfail.
  - unfold percentage_readable, dict_get_or. now rewrite Hpct, Hq.
  - unfold numbers_ok, prediction_ok, optional_number at 1.
    rewrite Hpct, Hpred, Hconf.
    destruct v as [| [|] | | | |]; simpl in Hq; try discriminate; reflexivity.
  - unfold log_line_ok, dict_has, dict_get_or. now rewrite Hpred, Hdc, Hv, Hq, Hstatus.
  - unfold _get_defect_pct, dict_get_or. now rewrite Hdc, Hv, Hpct.
Qed.

Lemma analysed_record_reads_the_same_witness :
  exists r' : dict,
    results (save_result (new_controller three_machines) Written analysed_1) = [r']
    /\ exceeds DEFECT_PERCENTAGE_THRESHOLD r' = is_fail r'.
Proof.
  destruct (analysed_record_reads_the_same Fixtures.scorers_55 Fixtures.world_ok
              Fixtures.wafer_info_1 analysed_1 (new_controller three_machines) Written)
    as (r' & H1 & H2 & _).
  - vm_compute. reflexivity.
  - vm_compute. reflexivity.
  - exists r'. split; [exact H1|exact H2].
Defined.

(** *** [generate_image] *)

Lemma absolute_filename (a b : string) :
  String.prefix "/" (a ++ String "_" b) = String.prefix "/" a.
Proof.
  destruct a as [|c a]; [reflexivity|]. cbn [append String.prefix].
  destruct (ascii_dec "/" c); [|reflexivity].
  generalize (a ++ String "_" b). intros t. now destruct a, t.
Qed.

(** [generate_image] fails soft: with no image at all it returns
    [None]; while any image is available and the copy succeeds it returns
    a path, falling back to the other pool when the drawn one is empty.
    The path it returns is [os.path.join] of the output directory and
    [type_waferid_stamp.jpg]: the directory, a separator and the file
    name when the directory is not empty and does not end with a
    separator; the directory followed by the file name when it is empty
    or ends with one; the file name alone when the machine type makes it
    absolute. *)
Theorem generate_image_fails_soft (g : WaferImageGenerator) (w : world)
    (wafer_id machine_type : string) (p : Q) :
  (normal_images g = [] -> defect_images g = [] ->
   generate_image g w wafer_id machine_type p = None)
  /\ ((forall src dst, copy2_ok w src dst = true) ->
      (normal_images g <> [] \/ defect_images g <> []) ->
      generate_image g w wafer_id machine_type p <> None)
  /\ (forall path, generate_image g w wafer_id machine_type p = Some path ->
        let filename := machine_type ++ "_" ++ wafer_id ++ "_"
                        ++ now_stamp w ++ ".jpg" in
        path = os_path_join (output_dir g) filename
        /\ (String.prefix "/" machine_type = true -> path = filename)
        /\ (String.prefix "/" machine_type = false ->
            output_dir g <> "" -> ends_with_sep (output_dir g) = false ->
            path = output_dir g ++ "/" ++ filename)
        /\ (String.prefix "/" machine_type = false ->
            output_dir g = "" \/ ends_with_sep (output_dir g) = true ->
            path = output_dir g ++ filename)).
Proof.
  unfold generate_image. split; [|split].
  - intros -> ->. reflexivity.
  - intros Hcopy Hsome.
    destruct (normal_images g) as [|n ns], (defect_images g) as [|d ds];
      cbn [nonempty negb andb];
      try (destruct (negb (Qle_bool p (random_random w))); rewrite Hcopy; discriminate).
    destruct Hsome as [H|H]; now contradiction H.
  - intros path.
    destruct (negb (nonempty (normal_images g)) && negb (nonempty (defect_images g)));
      [discriminate|].
    match goal with
    | |- match ?chosen with _ => _ end = _ -> _ =>
        destruct chosen as [source|]; [|discriminate]
    end.
    destruct (copy2_ok w source _); [|discriminate].
    intros H. injection H as <-. cbv zeta. split; [reflexivity|].
    unfold os_path_join. rewrite absolute_filename.
    split; [|split].
    + now intros ->.
    + intros -> Hne Hsep. apply String.eqb_neq in Hne. now rewrite Hne, Hsep.
    + intros -> [Hempty|Hsep].
      * now rewrite Hempty.
      * rewrite Hsep. now rewrite orb_true_r.
Qed.

Lemma generate_image_fails_soft_witness :
  generate_image Fixtures.generator Fixtures.world_ok "W1" "Mechanical" (7 # 10)
  <> None.
Proof.
  apply (proj1 (proj2 (generate_image_fails_soft Fixtures.generator Fixtures.world_ok
                         "W1" "Mechanical" (7 # 10)))).
  - reflexivity.
  - left. discriminate.
Defined.

(** A directory name that ends with a separator gets no second one. *)
Example generate_image_trailing_separator :
  generate_image
    {| normal_images := ["Test/Normal/n1.jpg"]; defect_images := [];
       output_dir := "processed_images/" |}
    Fixtures.world_ok "W1" "Mechanical" (7 # 10)
  = Some ("processed_images/Mechanical_W1_" ++ now_stamp Fixtures.world_ok ++ ".jpg").
Proof. vm_compute. reflexivity. Qed.

(** *** [_esc] *)

Lemma replace_char_app (c : ascii) (by_ a b : string) :
  replace_char c by_ (a ++ b) = replace_char c by_ a ++ replace_char c by_ b.
Proof.
  induction a as [|x a IH]; [reflexivity|]. cbn [append replace_char].
  destruct (Ascii.eqb x c); rewrite IH; [|reflexivity].
  now rewrite IdentFacts.append_assoc.
Qed.

(** The three replacements in a row amount to escaping each character
    once. *)
Lemma three_replacements (s : string) :
  replace_char ">" "&gt;" (replace_char "<" "&lt;" (replace_char "&" "&amp;" s))
  = escape_all s.
Proof.
  induction s as [|a t IH]; [reflexivity|].
  cbn [replace_char escape_all]. unfold escape_char.
  destruct (Ascii.eqb a "&") eqn:E1.
  - rewrite !replace_char_app, IH. reflexivity.
  - cbn [replace_char]. destruct (Ascii.eqb a "<") eqn:E2.
    + rewrite !replace_char_app, IH. reflexivity.
    + cbn [replace_char]. destruct (Ascii.eqb a ">") eqn:E3; now rewrite IH.
Qed.

Lemma unescape_escape_all (s : string) : unescape (escape_all s) = s.
Proof.
  induction s as [|a t IH]; [reflexivity|].
  cbn [escape_all]. unfold escape_char.
  destruct (Ascii.eqb_spec a "&") as [->|H1]; [cbn; now rewrite IH|].
  destruct (Ascii.eqb_spec a "<") as [->|H2]; [cbn; now rewrite IH|].
  destruct (Ascii.eqb_spec a ">") as [->|H3]; [cbn; now rewrite IH|].
  cbn [append unescape]. apply Ascii.eqb_neq in H1. now rewrite H1, IH.
Qed.

Lemma escape_all_no_bracket (c : ascii) (s : string) :
  c = "<"%char \/ c = ">"%char -> occurs c (escape_all s) = false.
Proof.
  intros Hc. induction s as [|a t IH]; [reflexivity|].
  cbn [escape_all]. unfold escape_char.
  destruct (Ascii.eqb_spec a "&") as [->|H1];
    [destruct Hc as [-> | ->]; cbn; exact IH|].
  destruct (Ascii.eqb_spec a "<") as [->|H2];
    [destruct Hc as [-> | ->]; cbn; exact IH|].
  destruct (Ascii.eqb_spec a ">") as [->|H3];
    [destruct Hc as [-> | ->]; cbn; exact IH|].
  cbn [append occurs]. rewrite IH.
  destruct Hc as [-> | ->]; [apply Ascii.eqb_neq in H2|apply Ascii.eqb_neq in H3];
    now rewrite orb_false_r.
Qed.

(** [_esc] can be undone, so it loses nothing, and its result holds no
    raw angle bracket; [None] is escaped to the empty string. *)
Theorem esc_round_trip (h : host) (v : pyval) :
  unescape (_esc h v) = text_to_escape h v
  /\ occurs "<" (_esc h v) = false
  /\ occurs ">" (_esc h v) = false
  /\ _esc h PNone = "".
Proof.
  assert (H : _esc h v = escape_all (text_to_escape h v)).
  { unfold _esc, text_to_escape. destruct v; try apply three_replacements.
    reflexivity. }
  rewrite H. split; [apply unescape_escape_all|].
  split; [|split; [|reflexivity]]; apply escape_all_no_bracket; auto.
Qed.

End RecordFacts.

(* ------------------------------------------------------------------ *)
(** ** Data_Aggregator.py: dates and defect classes *)

Module KeyedFacts.
Import Py Aggregator Props PyFacts SummaryFacts AnomalyFacts.

Lemma key_eqb_str (k : pyval) (s : string) :
  key_eqb k (PStr s) = true <-> k = PStr s.
Proof.
  destruct k as [| [|] | q | s' | |]; simpl; split; try discriminate.
  - intros H. apply String.eqb_eq in H. now subst.
  - intros H. injection H as ->. apply String.eqb_refl.
Qed.

Lemma key_eqb_str_str (a b : string) : key_eqb (PStr a) (PStr b) = String.eqb a b.
Proof. reflexivity. Qed.

Section StringKeys.
Context {V : Type} (d : V).

Lemma get_at_cons (k : string) (k' : pyval) (v : V) (t : list (pyval * V)) :
  get_at d k ((k', v) :: t) = if key_eqb k' (PStr k) then v else get_at d k t.
Proof. unfold get_at. simpl. now destruct (key_eqb k' (PStr k)). Qed.

Lemma get_at_update (k key : string) (f : V -> V) (m : list (pyval * V)) :
  get_at d k (update key_eqb (PStr key) d f m)
  = if String.eqb key k then f (get_at d key m) else get_at d k m.
Proof.
  induction m as [|[k' v] t IH]; cbn [update].
  - rewrite get_at_cons, key_eqb_str_str. reflexivity.
  - destruct (key_eqb k' (PStr key)) eqn:E1; rewrite !get_at_cons.
    + rewrite E1. apply key_eqb_str in E1. subst k'. rewrite key_eqb_str_str.
      destruct (String.eqb key k); reflexivity.
    + rewrite IH, E1. destruct (String.eqb_spec key k) as [->|Hne]; [|reflexivity].
      now rewrite E1.
Qed.

Lemma update_str_keys (key : string) (f : V -> V) (m : list (pyval * V)) (x : pyval) :
  In x (map fst (update key_eqb (PStr key) d f m)) ->
  x = PStr key \/ In x (map fst m).
Proof.
  induction m as [|[k' v] t IH]; cbn [update map fst].
  - intros [H|[]]; auto.
  - destruct (key_eqb k' (PStr key)); cbn [map fst In]; intuition.
Qed.

Lemma update_str_NoDup (key : string) (f : V -> V) (m : list (pyval * V)) :
  NoDup (map fst m) -> NoDup (map fst (update key_eqb (PStr key) d f m)).
Proof.
  induction m as [|[k' v] t IH]; cbn [update map fst]; intros H.
  - repeat constructor. intros [].
  - inversion H as [|? ? Hnotin Ht]; subst.
    destruct (key_eqb k' (PStr key)) eqn:E; cbn [map fst].
    + now constructor.
    + constructor; auto. intros Hin. apply update_str_keys in Hin as [->|Hin]; auto.
      assert (key_eqb (PStr key) (PStr key) = true) by apply String.eqb_refl.
      congruence.
Qed.

Lemma update_all_str (key : string) (f : V -> V) (m : list (pyval * V)) :
  Forall (fun k => is_str k = true) (map fst m) ->
  Forall (fun k => is_str k = true) (map fst (update key_eqb (PStr key) d f m)).
Proof.
  intros H. apply Forall_forall. intros x Hx.
  apply update_str_keys in Hx as [->|Hx]; [reflexivity|].
  rewrite Forall_forall in H. auto.
Qed.

Lemma get_at_In (k : string) (v : V) (m : list (pyval * V)) :
  NoDup (map fst m) -> In (PStr k, v) m -> get_at d k m = v.
Proof.
  induction m as [|[k' v'] t IH]; intros Hnd Hin; [destruct Hin|].
  rewrite get_at_cons. cbn [map fst] in Hnd.
  inversion Hnd as [|? ? Hnotin Ht]; subst. destruct Hin as [H|H].
  - injection H as -> ->. now rewrite key_eqb_str_str, String.eqb_refl.
  - destruct (key_eqb k' (PStr k)) eqn:E; auto.
    apply key_eqb_str in E. subst k'. exfalso. apply Hnotin.
    now apply (in_map fst) in H.
Qed.

Lemma get_at_found (k : string) (m : list (pyval * V)) :
  get_at d k m <> d -> In (PStr k, get_at d k m) m.
Proof.
  induction m as [|[k' v] t IH]; intros H.
  - now contradiction H.
  - rewrite get_at_cons in *. destruct (key_eqb k' (PStr k)) eqn:E.
    + apply key_eqb_str in E. subst. now left.
    + right. auto.
Qed.

End StringKeys.

Lemma update_values {K V : Type} (eqb : K -> K -> bool) (P : V -> Prop)
    (key : K) (d : V) (f : V -> V) (m : list (K * V)) :
  P (f d) -> (forall v, P v -> P (f v)) ->
  Forall P (map snd m) -> Forall P (map snd (update eqb key d f m)).
Proof.
  intros Hd Hf. induction m as [|[k' v] t IH]; cbn [update map snd]; intros H.
  - repeat constructor. exact Hd.
  - inversion H as [|? ? Hv Ht]; subst.
    destruct (eqb k' key); cbn [map snd]; constructor; auto.
Qed.

Lemma percent_values (l : list pyval) :
  Forall (fun v => percent_value v = true) l ->
  exists qs, map as_number l = map Some qs
             /\ Forall (fun q => (0 <= q)%Q /\ (q <= 100)%Q) qs.
Proof.
  induction 1 as [|v t Hv _ (qs & IH & Hr)]; [exists []; split; constructor|].
  unfold percent_value in Hv. destruct (as_number v) as [q|] eqn:E; [|discriminate].
  apply andb_true_iff in Hv as [H0 H1]. apply Qle_bool_iff in H0, H1.
  exists (q :: qs). cbn [map]. rewrite E, IH. split; [reflexivity|].
  constructor; [now split|exact Hr].
Qed.

(** *** [get_date_statistics] *)

Lemma date_step_tally (m : list (pyval * date_acc)) (r : dict) :
  date_record_ok r = true -> date_inv m ->
  exists m', date_step m r = Ok m'
    /\ date_inv m'
    /\ forall k, k <> "" ->
         d_total_wafers (get_at date_acc_default k m')
         = (d_total_wafers (get_at date_acc_default k m) + bump (dated k r))%Z
         /\ d_pass_count (get_at date_acc_default k m')
            = (d_pass_count (get_at date_acc_default k m)
               + bump (dated k r && is_pass r))%Z
         /\ d_fail_count (get_at date_acc_default k m')
            = (d_fail_count (get_at date_acc_default k m)
               + bump (dated k r && is_fail r))%Z
         /\ d_anomalies (get_at date_acc_default k m')
            = (d_anomalies (get_at date_acc_default k m)
               + bump (dated k r && over_threshold r))%Z.
Proof.
  unfold date_record_ok, date_ok, percent_value. intros Hok (Hnd & Hkeys & Hnum).
  apply andb_true_iff in Hok as [Hdate Hpct].
  assert (Hsame : dict_get_or "simulation_date" PNone r = PNone
                  \/ dict_get_or "simulation_date" PNone r = PStr "" ->
            exists m', date_step m r = Ok m' /\ date_inv m'
              /\ forall k, k <> "" ->
         d_total_wafers (get_at date_acc_default k m')
         = (d_total_wafers (get_at date_acc_default k m) + bump (dated k r))%Z
         /\ d_pass_count (get_at date_acc_default k m')
            = (d_pass_count (get_at date_acc_default k m)
               + bump (dated k r && is_pass r))%Z
         /\ d_fail_count (get_at date_acc_default k m')
            = (d_fail_count (get_at date_acc_default k m)
               + bump (dated k r && is_fail r))%Z
         /\ d_anomalies (get_at date_acc_default k m')
            = (d_anomalies (get_at date_acc_default k m)
               + bump (dated k r && over_threshold r))%Z).
  { intros Hcase. exists m. split.
    - unfold date_step. destruct Hcase as [-> | ->]; reflexivity.
    - split; [now split|]. intros k Hk.
      assert (Hd : dated k r = false).
      { unfold dated. destruct Hcase as [-> | ->]; [reflexivity|].
        destruct k; [congruence|reflexivity]. }
      rewrite Hd. cbn [andb bump]. repeat split; lia. }
  unfold dict_get_or in Hsame.
  destruct (dict_get "simulation_date" r) as [v|] eqn:Ed; [|apply Hsame; now left].
  destruct v as [| | |sd| |]; try discriminate; [apply Hsame; now left|].
  destruct (String.eqb_spec sd "") as [->|Hne]; [apply Hsame; now right|].
  clear Hsame.
  assert (Hsim : dict_get_or "simulation_date" PNone r = PStr sd)
    by (unfold dict_get_or; now rewrite Ed).
  assert (Htr : truthy (PStr sd) = true)
    by (cbn; apply negb_true_iff, String.eqb_neq; exact Hne).
  unfold date_step, dated. rewrite Hsim, Htr. cbn [negb hashable].
  unfold gt_float.
  destruct (as_number (dict_get_or "defect_percentage" (PNum 0) r)) as [q|] eqn:Eq;
    [|discriminate].
  cbn [bind]. eexists. split; [reflexivity|]. split.
  - split; [now apply update_str_NoDup|]. split.
    + apply Forall_forall. intros x Hx.
      apply update_str_keys in Hx as [->|Hx].
      * cbn. apply negb_true_iff, String.eqb_neq. exact Hne.
      * rewrite Forall_forall in Hkeys. auto.
    + apply update_values; [| |exact Hnum].
      * cbn. split; [|lia].
        destruct (not_none _); repeat constructor.
        unfold percent_value. now rewrite Eq.
      * intros s [Hs Hpos]. cbn. split; [|lia].
        destruct (not_none _); auto.
        apply Forall_app. split; auto. repeat constructor.
        unfold percent_value. now rewrite Eq.
  - intros k Hk. rewrite get_at_update. cbn [eq_str].
    unfold over_threshold, exceeds, percentage_key, is_fail.
    rewrite Eq.
    destruct (String.eqb_spec sd k) as [->|Hnk].
    + cbn [andb bump d_total_wafers d_pass_count d_fail_count d_anomalies].
      destruct (is_pass r), (negb (Qle_bool q DEFECT_PERCENTAGE_THRESHOLD));
        cbn [negb bump]; repeat split; lia.
    + cbn [andb bump]. repeat split; lia.
Qed.

Lemma date_loop_tally (l : list dict) (m : list (pyval * date_acc)) :
  Forall (fun r => date_record_ok r = true) l -> date_inv m ->
  exists m', date_loop m l = Ok m'
    /\ date_inv m'
    /\ forall k, k <> "" ->
         d_total_wafers (get_at date_acc_default k m')
         = (d_total_wafers (get_at date_acc_default k m)
            + Z.of_nat (List.length (date_group k l)))%Z
         /\ d_pass_count (get_at date_acc_default k m')
            = (d_pass_count (get_at date_acc_default k m)
               + how_many is_pass (date_group k l))%Z
         /\ d_fail_count (get_at date_acc_default k m')
            = (d_fail_count (get_at date_acc_default k m)
               + how_many is_fail (date_group k l))%Z
         /\ d_anomalies (get_at date_acc_default k m')
            = (d_anomalies (get_at date_acc_default k m)
               + how_many over_threshold (date_group k l))%Z.
Proof.
  intros Hok. revert m. induction Hok as [|r t Hr _ IH]; intros m Hinv.
  - exists m. split; [reflexivity|]. split; [exact Hinv|].
    intros k _. unfold how_many. cbn. repeat split; lia.
  - destruct (date_step_tally m r Hr Hinv) as (m1 & Hstep & Hinv1 & Hone).
    destruct (IH m1 Hinv1) as (m' & Hloop & Hinv' & Hrest).
    exists m'. cbn [date_loop]. rewrite Hstep. cbn [bind]. split; [exact Hloop|].
    split; [exact Hinv'|]. intros k Hk.
    destruct (Hone k Hk) as (T1 & P1 & F1 & A1).
    destruct (Hrest k Hk) as (T2 & P2 & F2 & A2).
    rewrite T2, P2, F2, A2, T1, P1, F1, A1.
    unfold how_many, date_group. cbn [filter].
    destruct (dated k r); cbn [andb bump filter].
    + destruct (is_pass r) eqn:Ep, (over_threshold r) eqn:Eo; unfold is_fail;
        rewrite ?Ep; cbn [negb bump filter List.length]; repeat split; lia.
    + repeat split; lia.
Qed.

Lemma format_date_fields (l : list (pyval * date_acc)) :
  Forall (fun s => Forall (fun v => percent_value v = true) (d_defect_percentages s)
                   /\ (1 <= d_total_wafers s)%Z)
         (map snd l) ->
  exists out, map_result format_date l = Ok out
    /\ map fst out = map fst l
    /\ forall key st, In (key, st) out ->
         exists acc, In (key, acc) l
           /\ ds_total_wafers st = d_total_wafers acc
           /\ ds_pass_count st = d_pass_count acc
           /\ ds_fail_count st = d_fail_count acc
           /\ ds_anomalies st = d_anomalies acc.
Proof.
  induction l as [|[k acc] t IH]; cbn [map snd map_result]; intros H.
  - exists []. split; [reflexivity|]. split; [reflexivity|]. intros ? ? [].
  - inversion H as [|? ? [Hacc _] Ht]; subst.
    destruct (IH Ht) as (ys & Hys & Hkeys & Hin).
    destruct (percent_values _ Hacc) as (qs & Hqs & Hrange).
    unfold format_date at 1. rewrite (mean_or_zero_numbers _ _ Hqs Hrange).
    cbn [bind]. rewrite Hys. cbn [bind]. eexists. split; [reflexivity|].
    split; [cbn; now rewrite Hkeys|].
    intros key st [Heq|Hrest].
    + injection Heq as <- <-. exists acc. cbn. auto.
    + destruct (Hin _ _ Hrest) as (acc' & ? & ?). exists acc'. cbn. auto.
Qed.

(** On records whose date is absent, [null] or a string and whose
    percentage is absent or a number between 0 and 100,
    [get_date_statistics] returns, with one entry per non-empty date
    present; the entry counts the records of that date,
    the passes, the fails (every record that is not a pass) and, as
    anomalies, the records above the threshold of 40.  Records without a
    date or with an empty one are in no entry. *)
Theorem date_statistics_count_by_date (a : DataAggregator) :
  Forall (fun r => date_record_ok r = true) (data a) ->
  exists ds : list (pyval * date_statistics),
    get_date_statistics a = Ok ds
    /\ NoDup (map fst ds)
    /\ (forall key st, In (key, st) ds ->
          exists d, key = PStr d /\ d <> ""
            /\ ds_total_wafers st = Z.of_nat (List.length (date_group d (data a)))
            /\ ds_pass_count st = how_many is_pass (date_group d (data a))
            /\ ds_fail_count st = how_many is_fail (date_group d (data a))
            /\ (ds_pass_count st + ds_fail_count st = ds_total_wafers st)%Z
            /\ ds_anomalies st = how_many over_threshold (date_group d (data a))
            /\ (1 <= ds_total_wafers st)%Z)
    /\ (forall r d, In r (data a) -> dated d r = true -> d <> "" ->
          exists st, In (PStr d, st) ds).
Proof.
  intros Hok.
  assert (Hinv0 : date_inv []) by (repeat split; constructor).
  destruct (date_loop_tally _ [] Hok Hinv0)
    as (m & Hloop & (Hnd & Hkeys & Hnum) & Htally).
  destruct (format_date_fields m Hnum) as (ds & Hfmt & Hfst & Hfields).
  assert (Hget : get_date_statistics a = Ok ds).
  { unfold get_date_statistics. destruct (data a) as [|r0 t] eqn:E.
    - cbn in Hloop. injection Hloop as <-. cbn in Hfmt. congruence.
    - rewrite Hloop. cbn [bind]. exact Hfmt. }
  assert (Hsplit : forall l, (how_many is_pass l + how_many is_fail l
                              = Z.of_nat (List.length l))%Z).
  { intros l. unfold how_many, is_fail. rewrite <- (filter_split_length is_pass l).
    lia. }
  exists ds. split; [exact Hget|]. split; [now rewrite Hfst|]. split.
  - intros key st Hin. destruct (Hfields _ _ Hin) as (acc & Hacc & HT & HP & HF & HA).
    assert (Hk : key_is_date key = true).
    { rewrite Forall_forall in Hkeys. apply Hkeys.
      apply (in_map fst) in Hacc. exact Hacc. }
    assert (Hone : (1 <= d_total_wafers acc)%Z).
    { rewrite Forall_forall in Hnum. apply (Hnum acc).
      apply (in_map snd) in Hacc. exact Hacc. }
    destruct key as [| | |d| |]; try discriminate. cbn in Hk.
    apply negb_true_iff, String.eqb_neq in Hk. exists d.
    split; [reflexivity|]. split; [exact Hk|].
    destruct (Htally d Hk) as (T & P & F & A).
    rewrite (get_at_In date_acc_default _ _ _ Hnd Hacc) in T, P, F, A.
    change (get_at date_acc_default d []) with date_acc_default in T, P, F, A.
    cbn [d_total_wafers d_pass_count d_fail_count d_anomalies date_acc_default]
      in T, P, F, A.
    pose proof (Hsplit (date_group d (data a))).
    rewrite HT, HP, HF, HA. repeat split; lia.
  - intros r d Hr Hd Hne.
    assert (Hnz : get_at date_acc_default d m <> date_acc_default).
    { intros Heq. destruct (Htally d Hne) as (T & _). rewrite Heq in T.
      change (get_at date_acc_default d []) with date_acc_default in T.
      cbn [d_total_wafers date_acc_default] in T.
      assert (Hin : In r (date_group d (data a))).
      { unfold date_group. apply filter_In. now split. }
      destruct (date_group d (data a)); [contradiction|]. simpl in T. lia. }
    apply get_at_found in Hnz. apply (in_map fst) in Hnz. cbn [fst] in Hnz.
    rewrite <- Hfst in Hnz. apply in_map_iff in Hnz as ([k' st] & Hk & Hin).
    cbn in Hk. subst k'. eauto.
Qed.

Lemma date_statistics_count_by_date_witness :
  exists ds : list (pyval * date_statistics),
    get_date_statistics Fixtures.loaded_two_days = Ok ds
    /\ NoDup (map fst ds)
    /\ (forall key st, In (key, st) ds ->
          exists d, key = PStr d /\ d <> ""
            /\ ds_total_wafers st
               = Z.of_nat (List.length (date_group d Fixtures.two_days))
            /\ ds_anomalies st = how_many over_threshold (date_group d Fixtures.two_days))
    /\ exists st, In (PStr "2025-01-02", st) ds.
Proof.
  assert (Hok : Forall (fun r => date_record_ok r = true)
                       (data Fixtures.loaded_two_days)) by (repeat constructor).
  destruct (date_statistics_count_by_date Fixtures.loaded_two_days Hok)
    as (ds & Hget & Hnd & Hin & Hall).
  exists ds. split; [exact Hget|]. split; [exact Hnd|]. split.
  - intros key st H. destruct (Hin key st H) as (d & ? & ? & ? & _ & _ & _ & ? & _).
    exists d. auto.
  - apply (Hall (Fixtures.day_wafer "W0002" "2025-01-02" "Scratch" "FAIL" 55)).
    + right. left. reflexivity.
    + reflexivity.
    + discriminate.
Defined.

(** *** [get_defect_distribution] *)

Lemma class_is_str_class (r : dict) :
  class_is_str r = true -> defect_class_of r = Ok (PStr (class_text r)).
Proof.
  unfold class_is_str, prediction_ok, defect_class_of, prediction_of, class_text.
  intros H. destruct (dict_get "prediction" r) as [v|]; [|reflexivity].
  destruct v as [| | | | |p]; try discriminate. cbn [bind].
  destruct (dict_get_or "Defect Class" (PStr "Unknown") p); try discriminate.
  reflexivity.
Qed.

Lemma count_classes_frequency (l : list dict) (m : list (pyval * Z)) :
  Forall (fun r => class_is_str r = true) l -> counts_inv m ->
  exists m', count_classes m l = Ok m'
    /\ counts_inv m'
    /\ forall c, get_at 0%Z c m'
                 = (get_at 0%Z c m + Z.of_nat (List.length (class_group c l)))%Z.
Proof.
  intros Hok. revert m. induction Hok as [|r t Hr _ IH]; intros m Hinv.
  - exists m. split; [reflexivity|]. split; [exact Hinv|]. intros c. cbn. lia.
  - cbn [count_classes]. rewrite (class_is_str_class r Hr). cbn [bind].
    unfold count_key. cbn [hashable bind].
    destruct Hinv as (Hnd & Hstr & Hpos).
    destruct (IH (update key_eqb (PStr (class_text r)) 0%Z Z.succ m))
      as (m' & Hloop & Hinv' & Hfreq).
    { split; [now apply update_str_NoDup|]. split; [now apply update_all_str|].
      apply update_values; [lia| |exact Hpos]. intros v Hv. lia. }
    exists m'. split; [exact Hloop|]. split; [exact Hinv'|].
    intros c. rewrite Hfreq, get_at_update. unfold class_group. cbn [filter].
    destruct (String.eqb_spec (class_text r) c) as [->|Hne]; cbn [List.length]; lia.
Qed.

Lemma class_is_str_ok (r : dict) : class_is_str r = true -> class_ok r = true.
Proof.
  unfold class_is_str, class_ok, prediction_ok.
  destruct (dict_get "prediction" r) as [v|]; [|reflexivity].
  destruct v as [| | | | |p]; try discriminate.
  destruct (dict_get_or "Defect Class" (PStr "Unknown") p); try discriminate.
  reflexivity.
Qed.

(** On records whose defect class is a string (["Unknown"] when the
    record has no prediction or no class), the counts of
    [get_defect_distribution] have one entry per class present, holding
    the number of records of that class, and the percentages have the
    same classes in the same order. *)
Theorem class_counts_are_frequencies (a : DataAggregator) :
  Forall (fun r => class_is_str r = true) (data a) ->
  data a <> [] ->
  exists (counts : list (pyval * Z)) (percentages : list (pyval * Q)),
    get_defect_distribution a = Ok (Distribution counts percentages)
    /\ NoDup (map fst counts)
    /\ map fst percentages = map fst counts
    /\ (forall key n, In (key, n) counts ->
          exists c, key = PStr c
            /\ n = Z.of_nat (List.length (class_group c (data a)))
            /\ (1 <= n)%Z)
    /\ (forall r, In r (data a) -> exists n, In (PStr (class_text r), n) counts).
Proof.
  intros Hok Hne.
  assert (Hinv0 : counts_inv []) by (repeat split; constructor).
  destruct (count_classes_frequency _ [] Hok Hinv0)
    as (counts & Hloop & (Hnd & Hstr & Hpos) & Hfreq).
  assert (Hok' : Forall (fun r => class_ok r = true) (data a)).
  { eapply Forall_impl; [|exact Hok]. apply class_is_str_ok. }
  destruct (DistributionFacts.count_classes_total _ [] Hok') as (counts' & Hloop' & Hsum).
  rewrite Hloop in Hloop'. injection Hloop' as <-.
  change (sum_values []) with 0%Z in Hsum. rewrite Z.add_0_l in Hsum.
  unfold get_defect_distribution.
  destruct (data a) as [|r0 t] eqn:E; [congruence|]. rewrite <- E in *.
  rewrite Hloop. cbn [bind]. rewrite Hsum.
  assert (Hlt : (0 <? Z.of_nat (List.length (data a)))%Z = true).
  { apply Z.ltb_lt. rewrite E. cbn [List.length]. lia. }
  rewrite Hlt. do 2 eexists. split; [reflexivity|]. split; [exact Hnd|].
  split; [now rewrite map_map|]. split.
  - intros key n Hin.
    assert (Hk : is_str key = true).
    { rewrite Forall_forall in Hstr. apply Hstr.
      apply (in_map fst) in Hin. exact Hin. }
    assert (Hn : (1 <= n)%Z).
    { rewrite Forall_forall in Hpos. apply Hpos.
      apply (in_map snd) in Hin. exact Hin. }
    destruct key as [| | |c| |]; try discriminate. exists c.
    split; [reflexivity|]. split; [|exact Hn].
    rewrite <- (get_at_In 0%Z _ _ _ Hnd Hin), Hfreq. cbn. lia.
  - intros r Hr.
    assert (Hnz : get_at 0%Z (class_text r) counts <> 0%Z).
    { rewrite Hfreq. change (get_at 0%Z (class_text r) []) with 0%Z.
      assert (Hin : In r (class_group (class_text r) (data a))).
      { unfold class_group. apply filter_In. split; [exact Hr|].
        apply String.eqb_refl. }
      destruct (class_group (class_text r) (data a)); [contradiction|].
      cbn [List.length]. lia. }
    apply get_at_found in Hnz. eauto.
Qed.

Lemma class_counts_are_frequencies_witness :
  exists (counts : list (pyval * Z)) (percentages : list (pyval * Q)),
    get_defect_distribution Fixtures.loaded_two_days
    = Ok (Distribution counts percentages)
    /\ NoDup (map fst counts)
    /\ (forall key n, In (key, n) counts ->
          exists c, key = PStr c
            /\ n = Z.of_nat (List.length (class_group c Fixtures.two_days)))
    /\ exists n, In (PStr "Unknown", n) counts.
Proof.
  assert (Hok : Forall (fun r => class_is_str r = true)
                       (data Fixtures.loaded_two_days)) by (repeat constructor).
  assert (Hne : data Fixtures.loaded_two_days <> []) by discriminate.
  destruct (class_counts_are_frequencies Fixtures.loaded_two_days Hok Hne)
    as (counts & percentages & Hget & Hnd & _ & Hin & Hall).
  exists counts, percentages. split; [exact Hget|]. split; [exact Hnd|]. split.
  - intros key n H. destruct (Hin key n H) as (c & ? & ? & _). exists c. auto.
  - apply (Hall [ ("wafer_id", PStr "W0005"); ("quality_status", PStr "PASS") ]).
    do 4 right. left. reflexivity.
Defined.

(** *** [get_available_simulation_dates] *)

Lemma set_add_str (s : string) (members : list pyval) :
  dates_inv members -> s <> "" ->
  dates_inv (set_add (PStr s) members)
  /\ forall d, In (PStr d) (set_add (PStr s) members)
               <-> In (PStr d) members \/ d = s.
Proof.
  intros (Hnd & Hkeys) Hs. unfold set_add.
  destruct (existsb (fun k' => key_eqb k' (PStr s)) members) eqn:E.
  - split; [now split|]. intros d. split; [tauto|]. intros [H| ->]; [exact H|].
    apply existsb_exists in E as (x & Hx & Hk). apply key_eqb_str in Hk. now subst.
  - assert (Hnot : ~ In (PStr s) members).
    { intros Hin. assert (existsb (fun k' => key_eqb k' (PStr s)) members = true).
      { apply existsb_exists. exists (PStr s). split; [exact Hin|].
        apply String.eqb_refl. }
      congruence. }
    split.
    + split.
      * apply NoDup_app; [exact Hnd|repeat constructor; intros []|].
        intros x Hx [<-|[]]. contradiction.
      * apply Forall_app. split; [exact Hkeys|]. repeat constructor. cbn.
        apply negb_true_iff, String.eqb_neq. exact Hs.
    + intros d. rewrite in_app_iff. cbn [In]. split.
      * intros [H|[H|[]]]; [now left|]. injection H as ->. now right.
      * intros [H| ->]; [now left|]. right. now left.
Qed.

Lemma collect_dates_members (l : list dict) (members : list pyval) :
  Forall (fun r => date_ok r = true) l -> dates_inv members ->
  exists out, collect_dates members l = Ok out
    /\ dates_inv out
    /\ forall d, In (PStr d) out
                 <-> In (PStr d) members
                     \/ (d <> "" /\ exists r, In r l /\ dated d r = true).
Proof.
  intros Hok. revert members. induction Hok as [|r t Hr _ IH]; intros members Hinv.
  - exists members. split; [reflexivity|]. split; [exact Hinv|].
    intros d. split; [tauto|]. intros [H|(_ & r & [] & _)]. exact H.
  - cbn [collect_dates]. unfold date_ok in Hr. unfold dated, dict_get_or.
    assert (Hskip : forall v, (v = PNone \/ v = PStr "") ->
              (forall d, d <> "" -> eq_str v d = false)).
    { intros v [-> | ->] d Hd; [reflexivity|]. destruct d; [congruence|reflexivity]. }
    assert (Hsame : match dict_get "simulation_date" r with
                    | Some v => v | None => PNone end = PNone
                    \/ match dict_get "simulation_date" r with
                       | Some v => v | None => PNone end = PStr "" ->
              exists out, (if truthy match dict_get "simulation_date" r with
                                     | Some v => v | None => PNone end
                           then if hashable match dict_get "simulation_date" r with
                                            | Some v => v | None => PNone end
                                then collect_dates
                                       (set_add match dict_get "simulation_date" r with
                                                | Some v => v | None => PNone end members) t
                                else Raise TypeError
                           else collect_dates members t) = Ok out
                /\ dates_inv out
                /\ forall d, In (PStr d) out
                     <-> In (PStr d) members
                         \/ (d <> "" /\ exists r', In r' (r :: t)
                               /\ eq_str match dict_get "simulation_date" r' with
                                         | Some v => v | None => PNone end d = true)).
    { intros Hcase. pose proof (Hskip _ Hcase) as Hno.
      assert (Htr : truthy match dict_get "simulation_date" r with
                           | Some v => v | None => PNone end = false)
        by (destruct Hcase as [-> | ->]; reflexivity).
      rewrite Htr. destruct (IH members Hinv) as (out & Hout & Hinv' & Hmem).
      exists out. split; [exact Hout|]. split; [exact Hinv'|].
      intros d. rewrite Hmem. unfold dated, dict_get_or. split.
      - intros [H|(Hd & r' & Hr' & Hdated)]; [now left|].
        right. split; [exact Hd|]. exists r'. split; [now right|exact Hdated].
      - intros [H|(Hd & r' & [<-|Hr'] & Hdated)]; [now left| |].
        + rewrite (Hno d Hd) in Hdated. discriminate.
        + right. split; [exact Hd|]. exists r'. split; assumption. }
    destruct (dict_get "simulation_date" r) as [v|] eqn:Ed; [|apply Hsame; now left].
    destruct v as [| | |sd| |]; try discriminate; [apply Hsame; now left|].
    destruct (String.eqb_spec sd "") as [->|Hne]; [apply Hsame; now right|].
    clear Hsame Hskip.
    assert (Htr : truthy (PStr sd) = true)
      by (cbn; apply negb_true_iff, String.eqb_neq; exact Hne).
    rewrite Htr. cbn [hashable].
    destruct (set_add_str sd members Hinv Hne) as (Hinv1 & Hadd).
    destruct (IH _ Hinv1) as (out & Hout & Hinv' & Hmem).
    exists out. split; [exact Hout|]. split; [exact Hinv'|].
    intros d. rewrite Hmem, Hadd. unfold dated, dict_get_or. split.
    + intros [[H| ->]|(Hd & r' & Hr' & Hdated)].
      * now left.
      * right. split; [exact Hne|]. exists r. split; [now left|].
        rewrite Ed. cbn. apply String.eqb_refl.
      * right. split; [exact Hd|]. exists r'. split; [now right|exact Hdated].
    + intros [H|(Hd & r' & [<-|Hr'] & Hdated)].
      * left. now left.
      * rewrite Ed in Hdated. cbn in Hdated. apply String.eqb_eq in Hdated.
        left. right. now subst.
      * right. split; [exact Hd|]. exists r'. split; assumption.
Qed.

Lemma insert_desc_by_perm {A : Type} (leb : A -> A -> bool) (x : A) (l : list A) :
  Permutation (insert_desc_by leb x l) (x :: l).
Proof.
  induction l as [|y t IH]; cbn [insert_desc_by]; [reflexivity|].
  destruct (leb y x); [reflexivity|].
  rewrite IH. apply perm_swap.
Qed.

Lemma sort_desc_by_perm {A : Type} (leb : A -> A -> bool) (l : list A) :
  Permutation (sort_desc_by leb l) l.
Proof.
  induction l as [|x t IH]; [reflexivity|].
  unfold sort_desc_by in *. cbn [fold_right].
  rewrite insert_desc_by_perm. now constructor.
Qed.

Lemma insert_desc_by_sorted {A : Type} (leb : A -> A -> bool) (x : A) (l : list A) :
  (forall a b, leb a b = true \/ leb b a = true) ->
  Sorted (fun a b => leb b a = true) l ->
  Sorted (fun a b => leb b a = true) (insert_desc_by leb x l).
Proof.
  intros Htot. induction l as [|y t IH]; cbn [insert_desc_by]; intros Hs.
  - repeat constructor.
  - destruct (leb y x) eqn:E.
    + constructor; [exact Hs|]. constructor. exact E.
    + inversion Hs as [|? ? Ht Hhd]; subst. constructor; [auto|].
      assert (Hxy : leb x y = true) by (destruct (Htot x y); congruence).
      destruct t as [|z t']; cbn [insert_desc_by].
      * constructor. exact Hxy.
      * destruct (leb z x); constructor; [exact Hxy|].
        inversion Hhd; subst. assumption.
Qed.

Lemma sort_desc_by_sorted {A : Type} (leb : A -> A -> bool) (l : list A) :
  (forall a b, leb a b = true \/ leb b a = true) ->
  Sorted (fun a b => leb b a = true) (sort_desc_by leb l).
Proof.
  intros Htot. induction l as [|x t IH]; [constructor|].
  unfold sort_desc_by in *. cbn [fold_right].
  now apply insert_desc_by_sorted.
Qed.

Lemma str_list_texts (l : list pyval) :
  Forall (fun k => is_str k = true) l -> map PStr (map text_of l) = l.
Proof.
  induction 1 as [|k t Hk _ IH]; [reflexivity|].
  destruct k; try discriminate. cbn [map text_of]. now rewrite IH.
Qed.

Lemma sorted_texts (l : list pyval) :
  Sorted (fun a b => text_leb b a = true) l -> descending_text (map text_of l).
Proof.
  unfold descending_text. induction 1 as [|k t Ht IH Hhd]; cbn [map]; [constructor|].
  constructor; [exact IH|]. destruct Hhd; cbn [map]; constructor. assumption.
Qed.

(** On records whose date is absent, [null] or a string,
    [get_available_simulation_dates] returns the non-empty dates of the
    records, each once, the largest string first. *)
Theorem available_dates_listed (a : DataAggregator) :
  Forall (fun r => date_ok r = true) (data a) ->
  exists ds : list string,
    get_available_simulation_dates a = Ok (map PStr ds)
    /\ NoDup ds
    /\ descending_text ds
    /\ forall d, In d ds <-> d <> "" /\ exists r, In r (data a) /\ dated d r = true.
Proof.
  intros Hok.
  assert (Hinv0 : dates_inv []) by (split; constructor).
  destruct (collect_dates_members _ [] Hok Hinv0) as (out & Hout & (Hnd & Hkeys) & Hmem).
  assert (Hstr : Forall (fun k => is_str k = true) out).
  { eapply Forall_impl; [|exact Hkeys]. intros k Hk. destruct k; try discriminate.
    reflexivity. }
  set (sorted := sort_desc_by text_leb out).
  assert (Hperm : Permutation sorted out) by apply sort_desc_by_perm.
  assert (Hstr' : Forall (fun k => is_str k = true) sorted).
  { apply Forall_forall. intros x Hx. rewrite Forall_forall in Hstr. apply Hstr.
    now apply (Permutation_in _ Hperm). }
  assert (Hsorted : get_available_simulation_dates a = Ok sorted).
  { unfold get_available_simulation_dates. destruct (data a) as [|r0 t] eqn:E.
    - cbn in Hout. injection Hout as <-. reflexivity.
    - rewrite Hout. cbn [bind]. unfold sorted_reverse.
      assert (Hall : forallb is_str out = true).
      { apply forallb_forall. rewrite Forall_forall in Hstr. exact Hstr. }
      rewrite Hall. reflexivity. }
  exists (map text_of sorted). rewrite (str_list_texts _ Hstr').
  split; [exact Hsorted|]. split; [|split].
  - assert (Hnd' : NoDup sorted).
    { apply (Permutation_NoDup (l := out)); [now symmetry|exact Hnd]. }
    assert (Hinj : NoDup (map PStr (map text_of sorted)))
      by (now rewrite (str_list_texts _ Hstr')).
    now apply NoDup_map_inv in Hinj.
  - apply sorted_texts. apply sort_desc_by_sorted.
    intros x y. unfold text_leb. apply String.leb_total.
  - intros d.
    assert (Hiff : In d (map text_of sorted) <-> In (PStr d) out).
    { split.
      - intros Hin. apply (in_map PStr) in Hin.
        rewrite (str_list_texts _ Hstr') in Hin.
        now apply (Permutation_in _ Hperm).
      - intros Hin. apply (Permutation_in _ (Permutation_sym Hperm)) in Hin.
        apply (in_map text_of) in Hin. exact Hin. }
    rewrite Hiff, Hmem. split.
    + intros [[]|H]. exact H.
    + intros H. now right.
Qed.

Lemma available_dates_listed_witness :
  exists ds : list string,
    get_available_simulation_dates Fixtures.loaded_two_days = Ok (map PStr ds)
    /\ NoDup ds
    /\ descending_text ds
    /\ In "2025-01-02" ds.
Proof.
  assert (Hok : Forall (fun r => date_ok r = true) (data Fixtures.loaded_two_days))
    by (repeat constructor).
  destruct (available_dates_listed Fixtures.loaded_two_days Hok)
    as (ds & Hget & Hnd & Hdesc & Hmem).
  exists ds. split; [exact Hget|]. split; [exact Hnd|]. split; [exact Hdesc|].
  apply Hmem. split; [discriminate|].
  exists (Fixtures.day_wafer "W0002" "2025-01-02" "Scratch" "FAIL" 55).
  split; [right; left; reflexivity|reflexivity].
Defined.

End KeyedFacts.

(* ------------------------------------------------------------------ *)
(** ** Data_Aggregator.py: the percentages of the defect classes *)

Module PercentageFacts.
Import Py Aggregator Props PyFacts NumFacts DistributionFacts KeyedFacts.

(** C7.  With at least one record loaded, [get_defect_distribution]
    returns the counts, one per defect class that occurs, each the number
    of records of that class, which add up to the number of records; and
    for each class its percentage [count / total * 100] rounded to 2
    decimals: the float of a number of 2 decimals between 0 and 100,
    within half a hundredth (and what the rounded operations add, less
    than [2^-44]) of the exact share.  So the percentages add up to 100
    up to that much per class.  With no record loaded the function
    returns the empty dictionary. *)
Theorem distribution_percentages_sum (a : DataAggregator) :
  Forall (fun r => class_is_str r = true) (data a) ->
  match data a with
  | [] => get_defect_distribution a = Ok EmptyDistribution
  | _ :: _ =>
      exists (counts : list (pyval * Z)) (percentages : list (pyval * Q)),
        get_defect_distribution a = Ok (Distribution counts percentages)
        /\ NoDup (map fst counts)
        /\ (forall key n, In (key, n) counts ->
              exists c, key = PStr c
                /\ n = Z.of_nat (List.length (class_group c (data a)))
                /\ (1 <= n)%Z)
        /\ (forall r, In r (data a) -> exists n, In (PStr (class_text r), n) counts)
        /\ sum_values counts = Z.of_nat (List.length (data a))
        /\ percentages
           = map (fun kv =>
                    (fst kv,
                     round (percent_of (snd kv) (Z.of_nat (List.length (data a)))) 2))
                 counts
        /\ Forall (fun kp => exists d : Z,
                     snd kp = fl (inject_Z d / inject_Z 100) /\ (0 <= d <= 10000)%Z)
                  percentages
        /\ (forall key n, In (key, n) counts ->
              exists p, In (key, p) percentages
                /\ (Qabs (p - inject_Z n
                              / inject_Z (Z.of_nat (List.length (data a))) * 100)
                    <= percentage_slack)%Q)
        /\ (Qabs (Qsum (map snd percentages) - 100)
            <= inject_Z (Z.of_nat (List.length percentages)) * percentage_slack)%Q
  end.
Proof.
  intros Hok. destruct (data a) as [|r0 t] eqn:E.
  - unfold get_defect_distribution. now rewrite E.
  - rewrite <- E in *.
    assert (Hinv0 : counts_inv []) by (repeat split; constructor).
    destruct (count_classes_frequency _ [] Hok Hinv0)
      as (counts & Hloop & (Hnd & Hstr & Hpos) & Hfreq).
    assert (Hok' : Forall (fun r => class_ok r = true) (data a)).
    { eapply Forall_impl; [|exact Hok]. apply class_is_str_ok. }
    destruct (count_classes_total _ [] Hok') as (counts' & Hloop' & Hsum).
    rewrite Hloop in Hloop'. injection Hloop' as <-.
    change (sum_values []) with 0%Z in Hsum. rewrite Z.add_0_l in Hsum.
    set (N := Z.of_nat (List.length (data a))) in *.
    assert (HN : (0 < N)%Z) by (unfold N; rewrite E; cbn [List.length]; lia).
    assert (Hget : get_defect_distribution a
                   = Ok (Distribution counts
                           (map (fun kv => (fst kv, round (percent_of (snd kv) N) 2))
                                counts))).
    { unfold get_defect_distribution. rewrite E, <- E, Hloop. cbn [bind].
      rewrite Hsum. fold N. apply Z.ltb_lt in HN. now rewrite HN. }
    assert (Hrange : forall key n, In (key, n) counts -> (0 <= n <= N)%Z).
    { intros key n Hin. destruct (count_le_sum counts key n Hpos Hin) as [Hle _].
      rewrite Forall_forall in Hpos. pose proof (Hpos n) as Hn.
      assert (1 <= n)%Z by (apply Hn; now apply (in_map snd) in Hin). lia. }
    do 2 eexists. split; [exact Hget|]. split; [exact Hnd|]. split; [|split]; [| |split].
    + intros key n Hin.
      assert (Hk : is_str key = true).
      { rewrite Forall_forall in Hstr. apply Hstr. now apply (in_map fst) in Hin. }
      assert (Hn : (1 <= n)%Z).
      { rewrite Forall_forall in Hpos. apply Hpos. now apply (in_map snd) in Hin. }
      destruct key as [| | |c| |]; try discriminate. exists c.
      split; [reflexivity|]. split; [|exact Hn].
      rewrite <- (get_at_In 0%Z _ _ _ Hnd Hin), Hfreq. cbn. lia.
    + intros r Hr.
      assert (Hnz : get_at 0%Z (class_text r) counts <> 0%Z).
      { rewrite Hfreq. change (get_at 0%Z (class_text r) []) with 0%Z.
        assert (Hin : In r (class_group (class_text r) (data a))).
        { unfold class_group. apply filter_In. split; [exact Hr|].
          apply String.eqb_refl. }
        destruct (class_group (class_text r) (data a)); [contradiction|].
        cbn [List.length]. lia. }
      apply get_at_found in Hnz. eauto.
    + exact Hsum.
    + split; [reflexivity|]. split; [|split].
      * apply Forall_forall. intros [key p] Hin.
        apply in_map_iff in Hin as ([key' n] & Heq & Hin). injection Heq as -> <-.
        cbn [snd fst]. apply (rounded_percent n N); [now apply (Hrange key)|exact HN].
      * intros key n Hin. eexists. split.
        -- apply in_map_iff. exists (key, n). split; [reflexivity|exact Hin].
        -- cbn [snd]. apply (rounded_percent n N); [now apply (Hrange key)|exact HN].
      * rewrite map_map, length_map. cbn [snd].
        pose proof (close_sums
                      (fun kv : pyval * Z => round (percent_of (snd kv) N) 2)
                      (fun kv : pyval * Z => (inject_Z (snd kv) / inject_Z N * 100)%Q)
                      percentage_slack counts) as Hclose.
        rewrite shares_sum, Hsum in Hclose.
        assert (H100 : (inject_Z N / inject_Z N * 100 == 100)%Q).
        { assert (HNq : (0 < inject_Z N)%Q)
            by (change 0%Q with (inject_Z 0); now rewrite <- Zlt_Qlt).
          field. lra. }
        rewrite H100 in Hclose. apply Hclose.
        intros [key n] Hin. cbn [snd].
        apply (rounded_percent n N); [now apply (Hrange key)|exact HN].
Qed.

Lemma distribution_percentages_sum_witness :
  exists (counts : list (pyval * Z)) (percentages : list (pyval * Q)),
    get_defect_distribution Fixtures.loaded_shares = Ok (Distribution counts percentages)
    /\ sum_values counts = 160%Z
    /\ (Qabs (Qsum (map snd percentages) - 100)
        <= inject_Z (Z.of_nat (List.length percentages)) * percentage_slack)%Q.
Proof.
  assert (Hok : Forall (fun r => class_is_str r = true) (data Fixtures.loaded_shares)).
  { apply Forall_forall. intros r Hr. unfold Fixtures.loaded_shares in Hr.
    cbn [data] in Hr. unfold Fixtures.shares in Hr.
    apply in_app_iff in Hr as [Hr|Hr]; apply repeat_spec in Hr; now subst. }
  pose proof (distribution_percentages_sum Fixtures.loaded_shares Hok) as H.
  change (data Fixtures.loaded_shares)
    with (Fixtures.class_record "Scratch" :: tl Fixtures.shares) in H at 1.
  cbv iota in H. destruct H as (counts & percentages & Hd & _ & _ & _ & Hsum & _ & _ & _ & Hb).
  exists counts, percentages. split; [exact Hd|]. split; [exact Hsum|exact Hb].
Defined.

(** With 23 records of one class among 160, the share is 14.375; the
    float product is just below it and the percentage is 14.37. *)
Example distribution_in_floats :
  get_defect_distribution Fixtures.loaded_shares
  = Ok (Distribution [ (PStr "Scratch", 23%Z); (PStr "Normal", 137%Z) ]
          [ (PStr "Scratch", fl (1437 # 100)); (PStr "Normal", fl (8562 # 100)) ]).
Proof. vm_compute. reflexivity. Qed.

End PercentageFacts.

(* ------------------------------------------------------------------ *)
(** ** Manufacturing_Simulation.py: what the status counters cover *)

Module CounterFacts.
Import Py Simulation Props PyFacts RunInvariants.

Lemma set_nth_total (f : ManufacturingMachine -> nat) (i : nat)
    (old new : ManufacturingMachine) (l : list ManufacturingMachine) :
  nth_error l i = Some old ->
  (list_sum (map f (set_nth i new l)) + f old = list_sum (map f l) + f new)%nat.
Proof.
  revert i. induction l as [|x t IH]; intros [|i] H; cbn in H; try discriminate.
  - injection H as ->. unfold set_nth. cbn. lia.
  - specialize (IH i H). unfold set_nth in *.
    change (firstn (S i) (x :: t) ++ new :: skipn (S (S i)) (x :: t))%list
      with (x :: (firstn i t ++ new :: skipn (S i) t))%list.
    change (list_sum (map f (x :: firstn i t ++ new :: skipn (S i) t)))
      with (f x + list_sum (map f (firstn i t ++ new :: skipn (S i) t)))%nat.
    change (list_sum (map f (x :: t))) with (f x + list_sum (map f t))%nat.
    lia.
Qed.

Lemma process_wafer_counts (m : ManufacturingMachine) (w : world) :
  (processed_wafers m <= wafer_counter m)%nat ->
  (processed_wafers (fst (process_wafer_running m w))
   <= wafer_counter (fst (process_wafer_running m w)))%nat
  /\ processed_wafers (fst (process_wafer_running m w))
     = (processed_wafers m
        + match snd (process_wafer_running m w) with Some _ => 1 | None => 0 end)%nat.
Proof.
  intros H. unfold process_wafer_running.
  destruct (generate_image _ _ _ _ _); cbn [fst snd incr_processed_wafers
    incr_wafer_counter processed_wafers wafer_counter]; lia.
Qed.

Lemma do_action_counters (s : scorers) (mw : option nat) (a : action)
    (cf cf' : config) :
  do_action s mw a cf = Some cf' -> counters_cover cf -> counters_cover cf'.
Proof.
  intros Hdo [Hle Hsum]. destruct a as [|j| |i w ok]; cbn [do_action] in Hdo.
  - injection Hdo as <-. now split.
  - injection Hdo as <-. unfold stop_machine.
    destruct (nth_error (machines (ctl cf)) j) as [mj|] eqn:Hj; [|now split].
    unfold counters_cover, with_machine, processed_total in *.
    cbn [ctl threads machines results].
    pose proof (set_nth_total processed_wafers j mj (stop mj) _ Hj) as Htot.
    cbn [stop set_running processed_wafers] in Htot. split.
    + apply set_nth_Forall; [exact Hle|].
      rewrite Forall_forall in Hle. apply (Hle mj). eapply nth_error_In; eauto.
    + lia.
  - injection Hdo as <-. now split.
  - unfold worker_step in Hdo.
    destruct (nth_error (threads cf) i) as [p|] eqn:Hp; [|discriminate].
    destruct (nth_error (machines (ctl cf)) i) as [m|] eqn:Hm;
      [|destruct p; discriminate].
    assert (Hquiet : forall new,
              (List.length (infos_of new) <= List.length (infos_of p))%nat ->
              counters_cover (goto cf (ctl cf) i new)).
    { intros new Hnew. pose proof (pending_set_nth i p new _ Hp).
      unfold counters_cover, goto. cbn [ctl threads]. split; [exact Hle|]. lia. }
    destruct p as [| | | |wafer_info|].
    + destruct (negb _ || _); injection Hdo as <-; apply Hquiet; cbn; lia.
    + destruct (cap_reached _ _); injection Hdo as <-; apply Hquiet; cbn; lia.
    + destruct (negb (is_running m)); injection Hdo as <-; apply Hquiet; cbn; lia.
    + assert (Hm_le : (processed_wafers m <= wafer_counter m)%nat).
      { rewrite Forall_forall in Hle. apply Hle. eapply nth_error_In; eauto. }
      destruct (process_wafer_counts m w Hm_le) as (Hle' & Hcount).
      pose proof (pending_set_nth i Started) as Hpend.
      destruct (process_wafer_running m w) as [m' [wafer_info|]]; cbn [fst snd] in *;
        injection Hdo as <-; unfold counters_cover, goto, with_machine, processed_total;
        cbn [ctl threads machines results].
      * specialize (Hpend (Produced wafer_info) _ Hp).
        pose proof (set_nth_total processed_wafers i m m' _ Hm).
        cbn [infos_of List.length] in Hpend. unfold processed_total in Hsum.
        split; [now apply set_nth_Forall|]. lia.
      * specialize (Hpend AtLoop _ Hp).
        pose proof (set_nth_total processed_wafers i m m' _ Hm).
        cbn [infos_of List.length] in Hpend. unfold processed_total in Hsum.
        split; [now apply set_nth_Forall|]. lia.
    + pose proof (pending_set_nth i (Produced wafer_info)) as Hpend.
      destruct (process_wafer_with_analysis s w wafer_info) as [r|e];
        injection Hdo as <-.
      * destruct (save_result_appends (ctl cf) ok r)
          as (r' & Hres & _ & _ & Hmach & _).
        specialize (Hpend (if log_line_ok r then AtLoop else Exited) _ Hp).
        unfold counters_cover, goto. cbn [ctl threads].
        rewrite Hmach, Hres, length_app. cbn [List.length infos_of] in *.
        split; [exact Hle|].
        destruct (log_line_ok r); cbn [infos_of List.length] in Hpend; lia.
      * apply Hquiet. cbn. lia.
    + discriminate.
Qed.

Lemma run_counters (s : scorers) (mw : option nat) (acts : list action)
    (cf cf' : config) :
  run s mw acts cf = Some cf' -> counters_cover cf -> counters_cover cf'.
Proof.
  revert cf. induction acts as [|a rest IH]; intros cf Hrun Hinv; cbn [run] in Hrun.
  - now injection Hrun as <-.
  - destruct (do_action s mw a cf) as [cf1|] eqn:Hdo; [|discriminate].
    apply (IH cf1 Hrun). now apply (do_action_counters s mw a cf).
Qed.

Lemma status_numbers (m : ManufacturingMachine) :
  status_number "processed_wafers" m = Some (inject_Z (Z.of_nat (processed_wafers m)))
  /\ status_number "wafer_counter" m = Some (inject_Z (Z.of_nat (wafer_counter m))).
Proof. split; reflexivity. Qed.

(** At every point of a run of a controller as [__init__] builds it, the
    status of every machine reports at most as many processed wafers as
    wafers numbered, and the records stored plus the ones a thread still
    holds are at most the processed wafers of all machines: a record is
    never stored without its machine having counted it. *)
Theorem status_counters_cover_store (s : scorers) (mw : option nat)
    (g : WaferImageGenerator) (num_mechanical num_electrical num_thermal : nat)
    (date : string) (acts : list action) (cf : config) :
  run s mw acts
      (run_simulation_start
         (new_controller (init_machines g num_mechanical num_electrical num_thermal))
         date) = Some cf ->
  (forall m, In m (machines (ctl cf)) ->
     exists p c, status_number "processed_wafers" m = Some p
                 /\ status_number "wafer_counter" m = Some c
                 /\ (0 <= p)%Q /\ (p <= c)%Q)
  /\ (List.length (results (ctl cf)) + pending (threads cf)
      <= processed_total (machines (ctl cf)))%nat.
Proof.
  intros Hrun.
  assert (Hstart : counters_cover
            (run_simulation_start
               (new_controller (init_machines g num_mechanical num_electrical num_thermal))
               date)).
  { unfold counters_cover, run_simulation_start, new_controller, start_all_machines.
    cbn [ctl threads machines results List.length]. split.
    - apply Forall_forall. intros m Hm. apply in_map_iff in Hm as (m0 & <- & Hm0).
      unfold init_machines in Hm0. rewrite !in_app_iff, !in_map_iff in Hm0.
      destruct Hm0 as [(k & <- & _)|[(k & <- & _)|(k & <- & _)]]; cbn; lia.
    - assert (Hnone : forall l : list ManufacturingMachine,
                pending (map (fun _ => AtLoop) l) = 0%nat).
      { induction l as [|m t IH]; [reflexivity|exact IH]. }
      rewrite Hnone. lia. }
  destruct (run_counters _ _ _ _ _ Hrun Hstart) as [Hle Hsum].
  split; [|exact Hsum].
  intros m Hm. destruct (status_numbers m) as [Hp Hc].
  do 2 eexists. split; [exact Hp|]. split; [exact Hc|].
  rewrite Forall_forall in Hle. specialize (Hle m Hm). split.
  - change 0%Q with (inject_Z 0). rewrite <- Zle_Qle. lia.
  - rewrite <- Zle_Qle. lia.
Qed.

Lemma status_counters_cover_store_witness :
  (List.length (results (ctl racing_end)) + pending (threads racing_end)
   <= processed_total (machines (ctl racing_end)))%nat.
Proof.
  refine (proj2 (status_counters_cover_store Fixtures.scorers_55 (Some 5%nat)
                   Fixtures.generator 1 1 1 "2025-01-01" racing_schedule
                   racing_end _)).
  vm_compute. reflexivity.
Defined.

End CounterFacts.
